(** * Multi-database patent search coordinator

    A shallow embedding of [multi_db_coordinator.py] (class
    [MultiDBCoordinator]) and the properties of its fan-out, fingerprint,
    merge and statistics steps.  The last part, "Further properties of the
    coordinator", adds [get_statistics] and the record parser of the USPTO
    backend, [uspto_search_bot.py].

    Conventions of the embedding:
    - a Python [str] is a Rocq [string] holding its UTF-8 bytes; its
      characters are its UTF-8 sequences; [upper], [lower] and [strip] are
      those of Python on ASCII text and carry every other byte unchanged, so
      every statement that depends on the normalised patent number or title
      is made for ASCII key fields ([ascii_only]);
    - a [float] obtained by [/] on two integers is the rational it stands
      for, [float_of] of the exact quotient;
    - Python values handled by the coordinator are the JSON-like values of
      [pyval]; a [dict] keeps its insertion order;
    - a raised exception is the [Raise] case of [result]; every [try] of the
      source is a [match] on a [result];
    - [self.execution_log] is threaded explicitly; calls to [logger] write to
      an external sink, never influence control flow, and are not modelled;
    - the records that the merge step tags and updates are the objects held
      by the per-database results; the deduplication keeps them in a store
      and updates them there, and the per-database map of a run is given as
      the strategy produced it, before these updates;
    - the message of an exception raised by a built-in follows CPython's
      wording. *)

From Stdlib Require Import ZArith QArith Ascii String List Lia Permutation.
From Stdlib Require Import DecimalString DecimalZ.
From stdpp Require Import base option list strings gmap sets.

Local Open Scope string_scope.
Local Open Scope Z_scope.

(** ** Python string methods used by the coordinator *)

Module PyStr.

Definition code (c : ascii) : Z := Z.of_N (N_of_ascii c).

(** [str.isspace] on the ASCII range: TAB..CR, FS..US and the blank. *)
Definition is_space (c : ascii) : bool :=
  let n := code c in
  ((9 <=? n) && (n <=? 13)) || ((28 <=? n) && (n <=? 32)).

(** [str.upper] and [str.lower] on ASCII text: the letters a-z and A-Z are
    mapped, every other byte is kept.  Python also maps letters outside
    ASCII, which these definitions do not follow. *)
Definition upper_char (c : ascii) : ascii :=
  let n := code c in
  if (97 <=? n) && (n <=? 122) then ascii_of_N (Z.to_N (n - 32)) else c.

Definition lower_char (c : ascii) : ascii :=
  let n := code c in
  if (65 <=? n) && (n <=? 90) then ascii_of_N (Z.to_N (n + 32)) else c.

Fixpoint map_chars (f : ascii -> ascii) (s : string) : string :=
  match s with
  | EmptyString => EmptyString
  | String c r => String (f c) (map_chars f r)
  end.

Definition upper : string -> string := map_chars upper_char.
Definition lower : string -> string := map_chars lower_char.

(** [str.strip] on ASCII text: the whitespace removed is that of
    [is_space].  Python also removes whitespace outside ASCII. *)
Fixpoint lstrip (s : string) : string :=
  match s with
  | EmptyString => EmptyString
  | String c r => if is_space c then lstrip r else s
  end.

Fixpoint rstrip (s : string) : string :=
  match s with
  | EmptyString => EmptyString
  | String c r =>
      match rstrip r with
      | EmptyString => if is_space c then EmptyString else String c EmptyString
      | r' => String c r'
      end
  end.

Definition strip (s : string) : string := rstrip (lstrip s).

(** [s.replace(old, new)] for a non-empty [old]: the occurrences of [old]
    are found left to right and do not overlap.  [skip] counts the
    characters of a matched occurrence that are still to be dropped. *)
Fixpoint replace_go (old new : string) (skip : nat) (s : string) : string :=
  match s with
  | EmptyString => EmptyString
  | String c r =>
      match skip with
      | S k => replace_go old new k r
      | O =>
          if String.prefix old s
          then new +:+ replace_go old new (pred (String.length old)) r
          else String c (replace_go old new 0 r)
      end
  end.

(** With an empty [old], Python puts [new] before every character and at
    the end. *)
Fixpoint replace_empty (new : string) (s : string) : string :=
  match s with
  | EmptyString => new
  | String c r => new +:+ String c (replace_empty new r)
  end.

Definition replace (old new s : string) : string :=
  match old with
  | EmptyString => replace_empty new s
  | _ => replace_go old new 0 s
  end.

(** Deleting every occurrence of one character: [s.replace(c, "")]. *)
Fixpoint remove_char (c : ascii) (s : string) : string :=
  match s with
  | EmptyString => EmptyString
  | String d r => if Ascii.eqb c d then remove_char c r else String d (remove_char c r)
  end.

(** A byte that continues a UTF-8 sequence: 10xxxxxx. *)
Definition is_continuation (c : ascii) : bool :=
  let n := code c in (128 <=? n) && (n <? 192).

(** The characters of a string, as Python iterates over it: a byte
    followed by continuation bytes is one character with them. *)
Definition continues (r : string) : bool :=
  match r with
  | String d _ => is_continuation d
  | EmptyString => false
  end.

Fixpoint chars (s : string) : list string :=
  match s with
  | EmptyString => []
  | String c r =>
      match chars r with
      | ch :: rest =>
          if continues r then String c ch :: rest
          else String c EmptyString :: ch :: rest
      | [] => [String c EmptyString]
      end
  end.

(** [sep.join(parts)]. *)
Fixpoint join (sep : string) (parts : list string) : string :=
  match parts with
  | [] => EmptyString
  | [p] => p
  | p :: ps => p +:+ sep +:+ join sep ps
  end.

(** [str(n)] for an [int]. *)
Definition of_Z (z : Z) : string := NilZero.string_of_int (Z.to_int z).

End PyStr.

(** ** [hashlib.md5(...).hexdigest()] (RFC 1321) *)

Module MD5.

Definition w32 (x : Z) : Z := x mod 4294967296.
Definition not32 (x : Z) : Z := Z.lxor x 4294967295.
Definition rotl32 (x n : Z) : Z :=
  w32 (Z.lor (Z.shiftl x n) (Z.shiftr x (32 - n))).

Definition shifts : list Z :=
  [7;12;17;22;7;12;17;22;7;12;17;22;7;12;17;22;
   5;9;14;20;5;9;14;20;5;9;14;20;5;9;14;20;
   4;11;16;23;4;11;16;23;4;11;16;23;4;11;16;23;
   6;10;15;21;6;10;15;21;6;10;15;21;6;10;15;21].

(** [K i = floor (2^32 * |sin (i + 1)|)]. *)
Definition K : list Z :=
  [3614090360; 3905402710; 606105819; 3250441966; 4118548399; 1200080426;
   2821735955; 4249261313; 1770035416; 2336552879; 4294925233; 2304563134;
   1804603682; 4254626195; 2792965006; 1236535329; 4129170786; 3225465664;
   643717713; 3921069994; 3593408605; 38016083; 3634488961; 3889429448;
   568446438; 3275163606; 4107603335; 1163531501; 2850285829; 4243563512;
   1735328473; 2368359562; 4294588738; 2272392833; 1839030562; 4259657740;
   2763975236; 1272893353; 4139469664; 3200236656; 681279174; 3936430074;
   3572445317; 76029189; 3654602809; 3873151461; 530742520; 3299628645;
   4096336452; 1126891415; 2878612391; 4237533241; 1700485571; 2399980690;
   4293915773; 2240044497; 1873313359; 4264355552; 2734768916; 1309151649;
   4149444226; 3174756917; 718787259; 3951481745].

Fixpoint le_bytes (n : nat) (x : Z) : list Z :=
  match n with
  | O => []
  | S k => (x mod 256) :: le_bytes k (x / 256)
  end.

Fixpoint of_le_bytes (bs : list Z) : Z :=
  match bs with
  | [] => 0
  | b :: r => b + 256 * of_le_bytes r
  end.

Definition pad (msg : list Z) : list Z :=
  let len := Z.of_nat (List.length msg) in
  msg ++ [128] ++ List.repeat 0 (Z.to_nat ((55 - len) mod 64))
      ++ le_bytes 8 ((len * 8) mod 18446744073709551616).

(** Cutting a byte sequence into groups of [n]; [fuel] bounds the number
    of groups. *)
Fixpoint groups (fuel n : nat) (bs : list Z) : list (list Z) :=
  match fuel with
  | O => []
  | S f =>
      match bs with
      | [] => []
      | _ => firstn n bs :: groups f n (skipn n bs)
      end
  end.

Definition words (chunk : list Z) : list Z :=
  List.map of_le_bytes (groups 16 4 chunk).

Definition state : Type := (Z * Z * Z * Z)%type.

Definition step (M : list Z) (st : state) (i : nat) : state :=
  let '(A, B, C, D) := st in
  let iz := Z.of_nat i in
  let '(F, g) :=
    if iz <? 16 then (Z.lor (Z.land B C) (Z.land (not32 B) D), iz)
    else if iz <? 32 then (Z.lor (Z.land D B) (Z.land (not32 D) C), (5 * iz + 1) mod 16)
    else if iz <? 48 then (Z.lxor (Z.lxor B C) D, (3 * iz + 5) mod 16)
    else (Z.lxor C (Z.lor B (not32 D)), (7 * iz) mod 16) in
  let F' := w32 (F + A + List.nth i K 0 + List.nth (Z.to_nat g) M 0) in
  (D, w32 (B + rotl32 F' (List.nth i shifts 0)), B, C).

Definition process (st : state) (chunk : list Z) : state :=
  let '(a0, b0, c0, d0) := st in
  let '(A, B, C, D) := List.fold_left (step (words chunk)) (List.seq 0 64) st in
  (w32 (a0 + A), w32 (b0 + B), w32 (c0 + C), w32 (d0 + D)).

Definition init : state := (1732584193, 4023233417, 2562383102, 271733878).

Definition digest (msg : list Z) : list Z :=
  let p := pad msg in
  let '(a, b, c, d) :=
    List.fold_left process (groups (List.length p) 64 p) init in
  le_bytes 4 a ++ le_bytes 4 b ++ le_bytes 4 c ++ le_bytes 4 d.

Definition hex_digit (n : Z) : ascii :=
  if n <? 10 then ascii_of_N (Z.to_N (48 + n)) else ascii_of_N (Z.to_N (87 + n)).

Fixpoint hex (bs : list Z) : string :=
  match bs with
  | [] => EmptyString
  | b :: r => String (hex_digit (b / 16)) (String (hex_digit (b mod 16)) (hex r))
  end.

(** [hashlib.md5(s.encode('utf-8')).hexdigest()]. *)
Definition hexdigest (s : string) : string :=
  hex (digest (List.map PyStr.code (list_ascii_of_string s))).

End MD5.

Example md5_empty : MD5.hexdigest "" = "d41d8cd98f00b204e9800998ecf8427e".
Proof. vm_compute. reflexivity. Qed.

Example md5_abc : MD5.hexdigest "abc" = "900150983cd24fb0d6963f7d28e17f72".
Proof. vm_compute. reflexivity. Qed.

Example md5_widget : MD5.hexdigest "1234567|widget" = "b41fb5b3f3cd067894d8baca6ae714bb".
Proof. vm_compute. reflexivity. Qed.

(** ** Python values, exceptions and the runtime *)

#[local] Set Warnings "-register-all".

(** The values that cross the coordinator: [None], integers, strings,
    lists and string-keyed dictionaries in insertion order. *)
Inductive pyval : Type :=
| PNone
| PInt (z : Z)
| PStr (s : string)
| PList (l : list pyval)
| PDict (d : list (string * pyval)).

Record exn : Type := MkExn { exn_class : string; exn_msg : string }.

Inductive result (A : Type) : Type :=
| Ok (a : A)
| Raise (e : exn).
Arguments Ok {A} a.
Arguments Raise {A} e.

#[global] Instance result_ret : MRet result := fun _ a => Ok a.
#[global] Instance result_bind : MBind result := fun _ _ k r =>
  match r with
  | Ok a => k a
  | Raise e => Raise e
  end.

Definition is_ok {A} (r : result A) : bool :=
  match r with Ok _ => true | Raise _ => false end.

Definition type_name (v : pyval) : string :=
  match v with
  | PNone => "NoneType"
  | PInt _ => "int"
  | PStr _ => "str"
  | PList _ => "list"
  | PDict _ => "dict"
  end.

Definition dquote : string := String (ascii_of_nat 34) EmptyString.

Definition AttributeError (v : pyval) (attr : string) : exn :=
  MkExn "AttributeError"
    ("'" +:+ type_name v +:+ "' object has no attribute '" +:+ attr +:+ "'").
Definition TypeError (msg : string) : exn := MkExn "TypeError" msg.
Definition KeyError (k : string) : exn := MkExn "KeyError" ("'" +:+ k +:+ "'").
Definition ValueError (msg : string) : exn := MkExn "ValueError" msg.

(** Structural equality of values, as [==] and set membership use it on
    [None], integers and strings. *)
Fixpoint pyval_eqb (a b : pyval) : bool :=
  match a, b with
  | PNone, PNone => true
  | PInt x, PInt y => Z.eqb x y
  | PStr s, PStr t => String.eqb s t
  | PList l, PList m =>
      (fix go (l m : list pyval) : bool :=
         match l, m with
         | [], [] => true
         | x :: l', y :: m' => pyval_eqb x y && go l' m'
         | _, _ => false
         end) l m
  | PDict d, PDict e =>
      (fix go (d e : list (string * pyval)) : bool :=
         match d, e with
         | [], [] => true
         | (k, x) :: d', (k', y) :: e' =>
             String.eqb k k' && pyval_eqb x y && go d' e'
         | _, _ => false
         end) d e
  | _, _ => false
  end.

(** What the interpreter decides and the source does not: the keyed hash
    of a string, the text of [repr], the iteration order of a set, the
    order in which futures complete, the wall-clock time of a run and the
    rounding of a quotient to a [float].

    [repr] tells the values of [pyval] apart ([ast.literal_eval] reads each
    back).  [float_of q] is the [float] that [/] returns for two integers of
    exact quotient [q]: the nearest one, so rounding keeps the order and
    leaves [0] and [1] as they are. *)
Class Runtime : Type := {
  py_hash : string -> Z;
  py_repr : pyval -> string;
  py_repr_inj : forall a b, py_repr a = py_repr b -> a = b;
  set_to_list : list pyval -> list pyval;
  set_to_list_NoDup : forall l, NoDup (set_to_list l);
  set_to_list_elem : forall l x, x ∈ set_to_list l <-> x ∈ l;
  as_completed : list string -> list string;
  as_completed_perm : forall l, as_completed l ≡ₚ l;
  elapsed : Q;
  float_of : Q -> Q;
  float_of_mono : forall p q, (p <= q)%Q -> (float_of p <= float_of q)%Q;
  float_of_0 : (float_of 0 == 0)%Q;
  float_of_1 : (float_of 1 == 1)%Q
}.

(** *** Dictionaries *)

Fixpoint dict_get (d : list (string * pyval)) (k : string) : option pyval :=
  match d with
  | [] => None
  | (k', v) :: r => if String.eqb k k' then Some v else dict_get r k
  end.

(** [d[k] = v]: an existing key keeps its place, a new key goes last. *)
Fixpoint dict_set (k : string) (v : pyval) (d : list (string * pyval))
  : list (string * pyval) :=
  match d with
  | [] => [(k, v)]
  | (k', v') :: r =>
      if String.eqb k k' then (k, v) :: r else (k', v') :: dict_set k v r
  end.

(** [obj.get(k, default)]. *)
Definition py_get (obj : pyval) (k : string) (default : pyval) : result pyval :=
  match obj with
  | PDict d => Ok (match dict_get d k with Some v => v | None => default end)
  | _ => Raise (AttributeError obj "get")
  end.

(** [obj.get(k)], whose default is [None]. *)
Definition py_get1 (obj : pyval) (k : string) : result pyval := py_get obj k PNone.

(** [obj[k]] with a string key. *)
Definition py_getitem (obj : pyval) (k : string) : result pyval :=
  match obj with
  | PDict d =>
      match dict_get d k with
      | Some v => Ok v
      | None => Raise (KeyError k)
      end
  | PStr _ => Raise (TypeError "string indices must be integers")
  | PList _ => Raise (TypeError "list indices must be integers or slices, not str")
  | _ => Raise (TypeError ("'" +:+ type_name obj +:+ "' object is not subscriptable"))
  end.

(** [obj[k] = v] with a string key. *)
Definition py_setitem (obj : pyval) (k : string) (v : pyval) : result pyval :=
  match obj with
  | PDict d => Ok (PDict (dict_set k v d))
  | PList _ => Raise (TypeError "list indices must be integers or slices, not str")
  | _ => Raise (TypeError ("'" +:+ type_name obj +:+ "' object does not support item assignment"))
  end.

(** *** Truth value, [+], iteration, [len], [set]

    A [str] is iterated and measured character by character. *)

Definition truthy (v : pyval) : bool :=
  match v with
  | PNone => false
  | PInt z => negb (Z.eqb z 0)
  | PStr EmptyString => false
  | PStr _ => true
  | PList [] => false
  | PList _ => true
  | PDict [] => false
  | PDict _ => true
  end.

Definition py_add (a b : pyval) : result pyval :=
  match a, b with
  | PList l, PList m => Ok (PList (l ++ m))
  | PStr s, PStr t => Ok (PStr (s +:+ t))
  | PInt x, PInt y => Ok (PInt (x + y))
  | PList _, _ =>
      Raise (TypeError ("can only concatenate list (not " +:+ dquote
                        +:+ type_name b +:+ dquote +:+ ") to list"))
  | PStr _, _ =>
      Raise (TypeError ("can only concatenate str (not " +:+ dquote
                        +:+ type_name b +:+ dquote +:+ ") to str"))
  | _, _ =>
      Raise (TypeError ("unsupported operand type(s) for +: '" +:+ type_name a
                        +:+ "' and '" +:+ type_name b +:+ "'"))
  end.

Definition py_iter (v : pyval) : result (list pyval) :=
  match v with
  | PList l => Ok l
  | PStr s => Ok (PStr <$> PyStr.chars s)
  | PDict d => Ok ((fun kv => PStr kv.1) <$> d)
  | _ => Raise (TypeError ("'" +:+ type_name v +:+ "' object is not iterable"))
  end.

Definition py_len (v : pyval) : result nat :=
  match v with
  | PList l => Ok (length l)
  | PStr s => Ok (length (PyStr.chars s))
  | PDict d => Ok (length d)
  | _ => Raise (TypeError ("object of type '" +:+ type_name v +:+ "' has no len()"))
  end.

(** A [str] is measured and iterated in characters, not in bytes. *)
Example len_counts_characters :
  py_len (PStr "Élan") = Ok 4%nat
  /\ py_len (PStr "專利") = Ok 2%nat
  /\ py_iter (PStr "aé") = Ok [PStr "a"; PStr "é"].
Proof. repeat split. Qed.

Definition hashable (v : pyval) : bool :=
  match v with
  | PList _ | PDict _ => false
  | _ => true
  end.

(** The first element of a list that cannot be hashed, if any. *)
Definition first_unhashable (l : list pyval) : option pyval :=
  List.find (fun v => negb (hashable v)) l.

(** [str(v)]. *)
Definition py_str `{Runtime} (v : pyval) : string :=
  match v with
  | PStr s => s
  | PInt z => PyStr.of_Z z
  | PNone => "None"
  | _ => py_repr v
  end.

(** [list(set(v))]. *)
Definition py_list_set `{Runtime} (v : pyval) : result (list pyval) :=
  l ← py_iter v;
  match first_unhashable l with
  | Some u => Raise (TypeError ("unhashable type: '" +:+ type_name u +:+ "'"))
  | None => Ok (set_to_list l)
  end.

(** A string method called on a value: only a [str] has it. *)
Definition str_method (name : string) (f : string -> string) (v : pyval)
  : result string :=
  match v with
  | PStr s => Ok (f s)
  | _ => Raise (AttributeError v name)
  end.

(** ** The coordinator *)

Section Coordinator.

Context `{Runtime}.

(** *** Fingerprint: [_calculate_patent_hash] *)

(** The body of the [try]: the string that is hashed.  [strip], [upper]
    and [lower] are Python's on ASCII text; the statements about the value of
    the fingerprint, and about which records share one, are made for records
    whose key fields are ASCII strings. *)
Definition hash_string (patent : pyval) : result string :=
  n ← py_get patent "patent_number" (PStr "");
  n ← str_method "strip" PyStr.strip n;
  let patent_number := PyStr.upper n in
  t ← py_get patent "title" (PStr "");
  t ← str_method "strip" PyStr.strip t;
  let title := PyStr.lower t in
  let patent_number :=
    PyStr.replace " " ""
      (PyStr.replace "-" ""
         (PyStr.replace "TW" "" (PyStr.replace "US" "" patent_number))) in
  Ok (patent_number +:+ "|" +:+ title).

Definition _calculate_patent_hash (patent : pyval) : string :=
  match hash_string patent with
  | Ok s => MD5.hexdigest s
  | Raise _ => PyStr.of_Z (py_hash (py_str patent))
  end.

(** *** Merging one record into another: [_merge_patent_info] *)

(** [existing[key] = list(set(existing.get(key, []) + new.get(key, [])))] *)
Definition merge_list_field (key : string) (existing new : pyval) : result pyval :=
  e ← py_get existing key (PList []);
  n ← py_get new key (PList []);
  s ← py_add e n;
  combined ← py_list_set s;
  py_setitem existing key (PList combined).

(** [if not existing.get(key) and new.get(key): existing[key] = new[key]] *)
Definition fill_forward (key : string) (existing new : pyval) : result pyval :=
  e ← py_get1 existing key;
  if truthy e then Ok existing
  else
    n ← py_get1 new key;
    if truthy n then v ← py_getitem new key; py_setitem existing key v
    else Ok existing.

Definition merge_steps : list (pyval -> pyval -> result pyval) :=
  [ merge_list_field "inventors";
    merge_list_field "applicants";
    merge_list_field "ipc_classes";
    fill_forward "abstract";
    fill_forward "claims";
    fill_forward "description";
    merge_list_field "images" ].

(** The statements run in order on the record being updated; the first one
    that raises ends the method, whose [except] only reports it, so the
    updates made before it stay. *)
Fixpoint run_steps (steps : list (pyval -> pyval -> result pyval))
    (existing new : pyval) : pyval :=
  match steps with
  | [] => existing
  | s :: rest =>
      match s existing new with
      | Ok existing' => run_steps rest existing' new
      | Raise _ => existing
      end
  end.

Definition _merge_patent_info (existing new : pyval) : pyval :=
  run_steps merge_steps existing new.

(** *** Deduplication: [_deduplicate_patents] *)

(** The records of the input list are distinct objects, updated in place:
    [store] holds their current contents by position, and [deduplicated]
    refers to them by position. *)
Record dedup_state : Type := MkDedup {
  store : list pyval;
  deduplicated : list nat;
  seen_hashes : gset string
}.

(** The inner [for existing_patent in deduplicated] with its [if]. *)
Definition find_existing (h : string) (st : dedup_state) : option nat :=
  List.find
    (fun j =>
       match store st !! j with
       | Some existing => String.eqb (_calculate_patent_hash existing) h
       | None => false
       end)
    (deduplicated st).

Definition merge_sources (existing patent : pyval) : result pyval :=
  existing_sources ← py_get existing "source_databases" (PList []);
  new_sources ← py_get patent "source_databases" (PList []);
  s ← py_add existing_sources new_sources;
  combined_sources ← py_list_set s;
  py_setitem existing "source_databases" (PList combined_sources).

(** One turn of the outer loop, for the record at position [i]. *)
Definition dedup_step (st : dedup_state) (i : nat) (patent : pyval)
  : result dedup_state :=
  let patent_hash := _calculate_patent_hash patent in
  if bool_decide (patent_hash ∈ seen_hashes st) then
    match find_existing patent_hash st with
    | None => Ok st
    | Some j =>
        match store st !! j with
        | None => Ok st
        | Some existing =>
            existing' ← merge_sources existing patent;
            Ok (MkDedup (<[j := _merge_patent_info existing' patent]> (store st))
                        (deduplicated st) (seen_hashes st))
        end
    end
  else
    Ok (MkDedup (store st) (deduplicated st ++ [i])
                (seen_hashes st ∪ {[patent_hash]})).

(** The outer loop; a raised exception leaves the state reached so far. *)
Fixpoint dedup_loop (i : nat) (patents : list pyval) (st : dedup_state)
  : dedup_state * option exn :=
  match patents with
  | [] => (st, None)
  | patent :: rest =>
      match dedup_step st i patent with
      | Ok st' => dedup_loop (S i) rest st'
      | Raise e => (st, Some e)
      end
  end.

Definition _deduplicate_patents (patents : list pyval) : list pyval :=
  match patents with
  | [] => []
  | _ =>
      let '(st, err) := dedup_loop 0 patents (MkDedup patents [] ∅) in
      match err with
      | None => omap (fun j => store st !! j) (deduplicated st)
      | Some _ => store st
      end
  end.

(** *** Collecting and merging: [_merge_and_deduplicate_results] *)

(** [patent["source_databases"] = [db]] for every record of one backend. *)
Fixpoint tag_records (db : string) (patents : list pyval) : result (list pyval) :=
  match patents with
  | [] => Ok []
  | patent :: rest =>
      patent' ← py_setitem patent "source_databases" (PList [PStr db]);
      rest' ← tag_records db rest;
      Ok (patent' :: rest')
  end.

Definition collect_result (db : string) (res : pyval) : result (list pyval) :=
  status ← py_get1 res "status";
  if pyval_eqb status (PStr "completed") then
    patents ← py_get res "results" (PList []);
    l ← py_iter patents;
    tag_records db l
  else Ok [].

Fixpoint collect_patents (results : list (string * pyval)) : result (list pyval) :=
  match results with
  | [] => Ok []
  | (db, res) :: rest =>
      here ← collect_result db res;
      there ← collect_patents rest;
      Ok (here ++ there)%list
  end.

Definition str_of_nat (n : nat) : string := PyStr.of_Z (Z.of_nat n).

Definition _merge_and_deduplicate_results
    (results : list (string * pyval)) (log : list string)
  : list pyval * list string :=
  let log := (log ++ ["開始合併和去重結果"])%list in
  match collect_patents results with
  | Ok all_patents =>
      let deduplicated_patents := _deduplicate_patents all_patents in
      (deduplicated_patents,
       (log ++ ["去重完成: " +:+ str_of_nat (length all_patents) +:+ " -> "
                  +:+ str_of_nat (length deduplicated_patents)])%list)
  | Raise e => ([], (log ++ ["合併和去重結果失敗: " +:+ exn_msg e])%list)
  end.

(** *** Statistics: [_calculate_dedup_ratio] *)

(** [sum(len(result.get("results", [])) for result in results.values())] *)
Fixpoint total_original (results : list (string * pyval)) : result nat :=
  match results with
  | [] => Ok O
  | (_, res) :: rest =>
      r ← py_get res "results" (PList []);
      n ← py_len r;
      m ← total_original rest;
      Ok (n + m)%nat
  end.

(** [0.0] is the rational [0]; the quotient of the two integers is the
    [float] nearest to their exact quotient. *)
Definition _calculate_dedup_ratio
    (results : list (string * pyval)) (merged_results : list pyval) : Q :=
  match total_original results with
  | Ok total =>
      let total_merged := length merged_results in
      if Nat.eqb total 0 then 0%Q
      else float_of ((Z.of_nat total - Z.of_nat total_merged) # Pos.of_nat total)%Q
  | Raise _ => 0%Q
  end.

End Coordinator.

(** *** Backends and the execution strategies *)

Record Query : Type := MkQuery {
  keywords : option (list string);
  patent_number : option string;
  search_options : option pyval
}.

(** A backend is known by its [search_patents]: it returns a value or
    raises. *)
Definition bot : Type := Query -> result pyval.

(** The entry the coordinator writes for a backend that did not deliver. *)
Definition failed_result (error : string) : pyval :=
  PDict [ ("status", PStr "failed");
          ("error", PStr error);
          ("total_found", PInt 0);
          ("results", PList []);
          ("downloaded_files", PList []) ].

Definition unsupported_database : string := "不支援的資料庫".

Section Strategy.

Context `{Runtime}.
Variable bots : gmap string bot.
Variable query : Query.

Definition _search_single_database (database : string) : result pyval :=
  match bots !! database with
  | Some b => b query
  | None => Raise (KeyError database)
  end.

(** The [try] around one backend's outcome, shared by both strategies:
    the result is stored, then its count is read for the log; an exception
    at either point is reported and a failed entry takes the place. *)
Definition record_outcome (db : string) (outcome : result pyval)
    (acc : list (string * pyval) * list string)
  : list (string * pyval) * list string :=
  let '(results, log) := acc in
  match outcome with
  | Ok res =>
      let results := dict_set db res results in
      match py_get res "total_found" (PInt 0) with
      | Ok total =>
          (results,
           (log ++ [db +:+ " 檢索完成: " +:+ py_str total +:+ " 筆結果"])%list)
      | Raise e =>
          (dict_set db (failed_result (exn_msg e)) results,
           (log ++ [db +:+ " 檢索失敗: " +:+ exn_msg e])%list)
      end
  | Raise e =>
      (dict_set db (failed_result (exn_msg e)) results,
       (log ++ [db +:+ " 檢索失敗: " +:+ exn_msg e])%list)
  end.

(** [executor.submit] for the registered ids, a log line for the others. *)
Definition submit (acc : list string * list string) (db : string)
  : list string * list string :=
  let '(future_to_db, log) := acc in
  match bots !! db with
  | Some _ => ((future_to_db ++ [db])%list, log)
  | None => (future_to_db, (log ++ ["不支援的資料庫: " +:+ db])%list)
  end.

Definition collect (acc : list (string * pyval) * list string) (db : string)
  : list (string * pyval) * list string :=
  record_outcome db (_search_single_database db) acc.

(** [ThreadPoolExecutor(max_workers=n)] raises [ValueError] unless [n > 0]. *)
Definition _search_parallel (databases : list string) (log : list string)
  : result (list (string * pyval)) * list string :=
  let log := (log ++ ["使用並行模式檢索"])%list in
  if Nat.leb (length databases) 0 then
    (Raise (ValueError "max_workers must be greater than 0"), log)
  else
    let '(future_to_db, log) := List.fold_left submit databases ([], log) in
    let '(results, log) :=
      List.fold_left collect (as_completed future_to_db) ([], log) in
    (Ok results, log).

Definition sequential_step (acc : list (string * pyval) * list string)
    (db : string) : list (string * pyval) * list string :=
  let '(results, log) := acc in
  match bots !! db with
  | Some _ =>
      record_outcome db (_search_single_database db)
        (results, (log ++ ["開始檢索 " +:+ db])%list)
  | None =>
      (dict_set db (failed_result unsupported_database) results,
       (log ++ ["不支援的資料庫: " +:+ db])%list)
  end.

Definition _search_sequential (databases : list string) (log : list string)
  : result (list (string * pyval)) * list string :=
  let log := (log ++ ["使用順序模式檢索"])%list in
  let '(results, log) := List.fold_left sequential_step databases ([], log) in
  (Ok results, log).

End Strategy.

(** *** The run: [search_multiple_databases] *)

Module Summary.
(** The dictionary a run returns; the keys that only a completed run has
    are optional.  [results_by_database] lists the entries as the strategy
    produced them: in Python the records under a completed entry are the
    very objects that [results] holds after tagging and merging. *)
Record t : Type := Make {
  status : string;
  error : option string;
  databases_searched : list string;
  total_found_by_db : option (list (string * nat));
  total_found : nat;
  merged_count : nat;
  deduplication_ratio : option Q;
  results : list pyval;
  results_by_database : option (list (string * pyval));
  downloaded_files : list pyval;
  execution_time : Q;
  execution_log : list string
}.
End Summary.

Record coordinator : Type := MkCoordinator {
  bots : gmap string bot;
  all_results : list pyval;
  merged_results : list pyval;
  downloaded_files : list pyval;
  execution_log : list string
}.

Section Run.

Context `{Runtime}.

(** [for db_result in results.values():
       all_downloaded_files.extend(db_result.get("downloaded_files", []))] *)
Fixpoint gather_downloaded_files (results : list (string * pyval))
  : result (list pyval) :=
  match results with
  | [] => Ok []
  | (_, db_result) :: rest =>
      fs ← py_get db_result "downloaded_files" (PList []);
      here ← py_iter fs;
      there ← gather_downloaded_files rest;
      Ok (here ++ there)%list
  end.

(** [{db: len(result.get("results", [])) for db, result in results.items()}] *)
Fixpoint count_by_db (results : list (string * pyval))
  : result (list (string * nat)) :=
  match results with
  | [] => Ok []
  | (db, res) :: rest =>
      r ← py_get res "results" (PList []);
      n ← py_len r;
      m ← count_by_db rest;
      Ok ((db, n) :: m)
  end.

Definition failed_summary (self : coordinator) (databases : list string)
    (e : exn) (log : list string) : Summary.t * coordinator :=
  let log := (log ++ ["多資料庫檢索失敗: " +:+ exn_msg e])%list in
  (Summary.Make "failed" (Some (exn_msg e)) databases None 0 0 None [] None []
                elapsed log,
   MkCoordinator (bots self) (all_results self) (merged_results self)
                 (downloaded_files self) log).

Definition search_multiple_databases (self : coordinator)
    (databases : list string) (query : Query) (parallel : bool)
  : Summary.t * coordinator :=
  let log :=
    (execution_log self
       ++ ["開始多資料庫檢索: " +:+ PyStr.join ", " databases])%list in
  let '(searched, log) :=
    if parallel then _search_parallel (bots self) query databases log
    else _search_sequential (bots self) query databases log in
  match searched with
  | Raise e => failed_summary self databases e log
  | Ok results =>
      let '(merged, log) := _merge_and_deduplicate_results results log in
      match gather_downloaded_files results with
      | Raise e => failed_summary self databases e log
      | Ok all_downloaded_files =>
          let self :=
            MkCoordinator (bots self) (snd <$> results) merged
                          all_downloaded_files log in
          match
            by_db ← count_by_db results;
            total ← total_original results;
            Ok (by_db, total)
          with
          | Raise e => failed_summary self databases e log
          | Ok (by_db, total) =>
              let log :=
                (log ++ ["多資料庫檢索完成，共找到 "
                           +:+ str_of_nat (length merged)
                           +:+ " 筆去重後的專利"])%list in
              (Summary.Make "completed" None databases (Some by_db) total
                 (length merged)
                 (Some (_calculate_dedup_ratio results merged))
                 merged (Some results) all_downloaded_files elapsed log,
               MkCoordinator (bots self) (all_results self)
                 (merged_results self) (downloaded_files self) log)
          end
      end
  end.

End Run.

(** ** Equality of values is decidable *)

Section PyvalInd.

Variable P : pyval -> Prop.
Hypothesis HNone : P PNone.
Hypothesis HInt : forall z, P (PInt z).
Hypothesis HStr : forall s, P (PStr s).
Hypothesis HList : forall l, Forall P l -> P (PList l).
Hypothesis HDict : forall d, Forall (fun kv => P kv.2) d -> P (PDict d).

Fixpoint pyval_nested_ind (v : pyval) : P v :=
  match v with
  | PNone => HNone
  | PInt z => HInt z
  | PStr s => HStr s
  | PList l =>
      HList l
        ((fix go (l : list pyval) : Forall P l :=
            match l with
            | [] => @List.Forall_nil _ P
            | x :: r => @List.Forall_cons _ P x r (pyval_nested_ind x) (go r)
            end) l)
  | PDict d =>
      HDict d
        ((fix go (d : list (string * pyval)) : Forall (fun kv => P kv.2) d :=
            match d with
            | [] => @List.Forall_nil _ _
            | kv :: r =>
                @List.Forall_cons _ (fun kv => P kv.2) kv r
                  (pyval_nested_ind kv.2) (go r)
            end) d)
  end.

End PyvalInd.

Lemma pyval_eqb_spec (a b : pyval) : pyval_eqb a b = true <-> a = b.
Proof.
  revert b. induction a as [| z | s | l IH | d IH] using pyval_nested_ind;
    intros [| z' | s' | l' | d']; simpl; try (split; [discriminate | congruence]);
    try tauto.
  - rewrite Z.eqb_eq. split; congruence.
  - rewrite String.eqb_eq. split; congruence.
  - revert l'. induction IH as [| x r Hx _ IHr]; intros [| y r'];
      try (split; [discriminate | congruence]); [tauto |].
    rewrite andb_true_iff, Hx. specialize (IHr r'). rewrite IHr.
    split; [intros [-> [= ->]] | intros [= -> ->]]; auto.
  - revert d'. induction IH as [| [k x] r Hx _ IHr]; intros [| [k' y] r'];
      try (split; [discriminate | congruence]); [tauto |].
    simpl in Hx. rewrite !andb_true_iff, String.eqb_eq, Hx.
    specialize (IHr r'). rewrite IHr.
    split; [intros [[-> ->] [= ->]] | intros [= -> -> ->]]; auto.
Qed.

#[global] Instance pyval_eq_dec : EqDecision pyval.
Proof.
  intros a b. destruct (pyval_eqb a b) eqn:E.
  - left. apply pyval_eqb_spec, E.
  - right. intros Hab. apply pyval_eqb_spec in Hab. congruence.
Defined.

(** ** Reading records *)

Definition is_dict (p : pyval) : bool :=
  match p with PDict _ => true | _ => false end.

(** [k] looked up in a record; a value that is not a dictionary has no
    fields. *)
Definition field (p : pyval) (k : string) : option pyval :=
  match p with
  | PDict d => dict_get d k
  | _ => None
  end.

(** The string that [p.get(k, "")] yields, when it yields one. *)
Definition text_field (p : pyval) (k : string) : option string :=
  match p with
  | PDict d =>
      match dict_get d k with
      | None => Some ""
      | Some (PStr s) => Some s
      | Some _ => None
      end
  | _ => None
  end.

(** The two normalisations inside [_calculate_patent_hash]. *)
Definition normalize_number (n : string) : string :=
  PyStr.replace " " ""
    (PyStr.replace "-" ""
       (PyStr.replace "TW" "" (PyStr.replace "US" "" (PyStr.upper (PyStr.strip n))))).

Definition normalize_title (t : string) : string := PyStr.lower (PyStr.strip t).

(** A record takes the digest path when both key fields are strings. *)
Definition keyed (p : pyval) : bool :=
  match text_field p "patent_number", text_field p "title" with
  | Some _, Some _ => true
  | _, _ => false
  end.

(** A string of ASCII characters: on such strings [PyStr.upper],
    [PyStr.lower] and [PyStr.strip] are Python's. *)
Fixpoint ascii_only (s : string) : bool :=
  match s with
  | EmptyString => true
  | String c r => (PyStr.code c <? 128) && ascii_only r
  end.

(** A record whose key fields are ASCII strings. *)
Definition ascii_keyed (p : pyval) : bool :=
  match text_field p "patent_number", text_field p "title" with
  | Some n, Some t => ascii_only n && ascii_only t
  | _, _ => false
  end.

(** [pat] occurs in [s] at some position. *)
Fixpoint occurs (pat s : string) : bool :=
  match s with
  | EmptyString => String.prefix pat EmptyString
  | String _ r => String.prefix pat s || occurs pat r
  end.

Fixpoint mem_char (c : ascii) (s : string) : bool :=
  match s with
  | EmptyString => false
  | String d r => Ascii.eqb c d || mem_char c r
  end.

(** The fingerprint as the specification words it: the number uppercased,
    reduced to its letters and digits, then without a leading "US" and a
    leading "TW"; the title lowercased and trimmed. *)
Module Claimed.

Definition is_alnum (c : ascii) : bool :=
  let n := PyStr.code c in
  ((48 <=? n) && (n <=? 57)) || ((65 <=? n) && (n <=? 90))
  || ((97 <=? n) && (n <=? 122)).

Fixpoint keep_alnum (s : string) : string :=
  match s with
  | EmptyString => EmptyString
  | String c r => if is_alnum c then String c (keep_alnum r) else keep_alnum r
  end.

Definition strip_leading (tok s : string) : string :=
  if String.prefix tok s
  then String.substring (String.length tok) (String.length s - String.length tok) s
  else s.

Definition normalized_number (n : string) : string :=
  strip_leading "TW" (strip_leading "US" (keep_alnum (PyStr.upper n))).

Definition normalized_title (t : string) : string := PyStr.strip (PyStr.lower t).

Definition fingerprint (number title : string) : string :=
  MD5.hexdigest (normalized_number number +:+ "|" +:+ normalized_title title).

End Claimed.

(** ** Facts about strings *)

#[local] Arguments String.append : simpl nomatch.

Lemma prefix_nil (s : string) : String.prefix "" s = true.
Proof. by destruct s. Qed.

Lemma prefix_cons (a b : ascii) (s1 s2 : string) :
  String.prefix (String a s1) (String b s2) = Ascii.eqb a b && String.prefix s1 s2.
Proof.
  cbn [String.prefix]. destruct (ascii_dec a b) as [->|Hne].
  - by rewrite Ascii.eqb_refl.
  - apply Ascii.eqb_neq in Hne. by rewrite Hne.
Qed.

(** Deleting a two-character token that stands in front. *)
Lemma replace_go_leading (a b : ascii) (rest : string) :
  PyStr.replace_go (String a (String b "")) "" 0 (String a (String b rest))
  = PyStr.replace_go (String a (String b "")) "" 0 rest.
Proof.
  cbn [PyStr.replace_go]. rewrite !prefix_cons, !Ascii.eqb_refl, prefix_nil.
  reflexivity.
Qed.

Lemma prefix_single (c d : ascii) (r : string) :
  String.prefix (String c EmptyString) (String d r) = Ascii.eqb c d.
Proof.
  simpl. destruct (ascii_dec c d) as [->|Hne].
  - rewrite Ascii.eqb_refl. by destruct r.
  - apply Ascii.eqb_neq in Hne. by rewrite Hne.
Qed.

Lemma replace_char_remove (c : ascii) (s : string) :
  PyStr.replace (String c EmptyString) "" s = PyStr.remove_char c s.
Proof.
  unfold PyStr.replace. induction s as [|d r IH]; [done|].
  cbn [PyStr.replace_go PyStr.remove_char]. rewrite prefix_single.
  destruct (Ascii.eqb c d); cbn [String.length pred]; simpl; by rewrite IH.
Qed.

Lemma replace_go_absent (old new s : string) :
  occurs old s = false -> PyStr.replace_go old new 0 s = s.
Proof.
  induction s as [|c r IH]; [done|].
  cbn [occurs PyStr.replace_go]. intros [Hp Hr]%orb_false_iff.
  rewrite Hp. by rewrite IH.
Qed.

Lemma replace_absent (old new s : string) :
  occurs old s = false -> PyStr.replace old new s = s.
Proof.
  intros Ho. destruct old as [|a old'].
  - by destruct s.
  - by apply replace_go_absent.
Qed.

Lemma append_bar_inj (n1 n2 t1 t2 : string) :
  mem_char "|" n1 = false -> mem_char "|" n2 = false ->
  n1 +:+ "|" +:+ t1 = n2 +:+ "|" +:+ t2 -> n1 = n2 /\ t1 = t2.
Proof.
  revert n2. induction n1 as [|c r IH]; intros [|c' r'];
    cbn [mem_char String.append].
  - intros _ _ [= ->]. done.
  - intros _ [Hc _]%orb_false_iff [= <- _].
    by rewrite Ascii.eqb_refl in Hc.
  - intros [Hc _]%orb_false_iff _ [= -> _].
    by rewrite Ascii.eqb_refl in Hc.
  - intros [_ H1]%orb_false_iff [_ H2]%orb_false_iff [= -> Heq].
    destruct (IH r' H1 H2 Heq) as [-> ->]. done.
Qed.

(** [str(n)] is injective on the integers. *)
Lemma to_int_proper (z : Z) :
  Z.to_int z <> Decimal.Pos Decimal.Nil /\ Z.to_int z <> Decimal.Neg Decimal.Nil.
Proof.
  destruct z as [|p|p]; simpl; split; try discriminate;
    intros [= Hp]; by apply DecimalPos.Unsigned.to_uint_nonnil in Hp.
Qed.

Lemma of_Z_inj (x y : Z) : PyStr.of_Z x = PyStr.of_Z y -> x = y.
Proof.
  unfold PyStr.of_Z. intros Hs.
  apply (f_equal NilZero.int_of_string) in Hs.
  destruct (to_int_proper x) as [Hx1 Hx2], (to_int_proper y) as [Hy1 Hy2].
  rewrite !NilZero.isi in Hs by done.
  injection Hs as Hs. apply (f_equal Z.of_int) in Hs.
  by rewrite !DecimalZ.of_to in Hs.
Qed.

(** ** A reference runtime

    One admissible choice of what the interpreter decides: sets iterate in
    first-occurrence order, futures complete in reverse submission order,
    [repr] is a code of the value that tells values apart, and a quotient is
    its own [float].  It shows that the laws of [Runtime] can be met and lets
    the definitions run on examples. *)

(** A value as a tree over its integers and strings. *)
Fixpoint pyval_tree (v : pyval) : gen_tree (Z + string) :=
  match v with
  | PNone => GenNode 0 []
  | PInt z => GenLeaf (inl z)
  | PStr s => GenLeaf (inr s)
  | PList l =>
      GenNode 1
        ((fix go (l : list pyval) : list (gen_tree (Z + string)) :=
            match l with
            | [] => []
            | x :: r => pyval_tree x :: go r
            end) l)
  | PDict d =>
      GenNode 2
        ((fix go (d : list (string * pyval)) : list (gen_tree (Z + string)) :=
            match d with
            | [] => []
            | (k, x) :: r => GenNode 3 [GenLeaf (inr k); pyval_tree x] :: go r
            end) d)
  end.

Lemma pyval_tree_inj (a b : pyval) : pyval_tree a = pyval_tree b -> a = b.
Proof.
  revert b. induction a as [| z | s | l IH | d IH] using pyval_nested_ind;
    intros [| z' | s' | l' | d']; cbn [pyval_tree]; try discriminate;
    try congruence.
  - intros [= Hl]. f_equal. revert l' Hl.
    induction IH as [| x r Hx _ IHr]; intros [| y r']; try discriminate; [done|].
    intros [= Hxy Hr]. f_equal; [by apply Hx | by apply IHr].
  - intros [= Hd]. f_equal. revert d' Hd.
    induction IH as [| [k x] r Hx _ IHr]; intros [| [k' y] r'];
      try discriminate; [done|].
    cbn [snd] in Hx. intros [= -> Hxy Hr]. f_equal; [|by apply IHr].
    f_equal. by apply Hx.
Qed.

Definition simple_repr (v : pyval) : string :=
  PyStr.of_Z (Z.pos (encode (pyval_tree v))).

Lemma simple_repr_inj (a b : pyval) : simple_repr a = simple_repr b -> a = b.
Proof.
  unfold simple_repr. intros [= Hc]%of_Z_inj.
  by apply pyval_tree_inj, (inj encode).
Qed.

Definition simple_hash (s : string) : Z :=
  MD5.of_le_bytes (firstn 8 (MD5.digest (List.map PyStr.code (list_ascii_of_string s))))
  - 9223372036854775808.

#[refine] Instance reference_runtime : Runtime := {|
  py_hash := simple_hash;
  py_repr := simple_repr;
  set_to_list := remove_dups;
  as_completed := @rev string;
  elapsed := 0%Q;
  float_of := fun q => q
|}.
Proof.
  - exact simple_repr_inj.
  - intros l. apply NoDup_remove_dups.
  - intros l x. apply elem_of_remove_dups.
  - intros l. symmetry. apply Permutation_rev.
  - intros p q Hpq. exact Hpq.
  - reflexivity.
  - reflexivity.
Defined.

(** ** The fingerprint *)

Section Fingerprint.

Context `{Runtime}.

Lemma hash_string_keyed (p : pyval) (n t : string) :
  text_field p "patent_number" = Some n ->
  text_field p "title" = Some t ->
  hash_string p = Ok (normalize_number n +:+ "|" +:+ normalize_title t).
Proof.
  unfold text_field, hash_string, py_get. destruct p as [| | |l|d]; try done.
  intros Hn Ht. cbn [mbind result_bind].
  destruct (dict_get d "patent_number") as [[| |sn| |]|]; try done;
    destruct (dict_get d "title") as [[| |st| |]|]; try done;
    injection Hn as <-; injection Ht as <-; reflexivity.
Qed.


Lemma keyed_fields (p : pyval) :
  keyed p = true ->
  exists n t, text_field p "patent_number" = Some n /\ text_field p "title" = Some t.
Proof.
  unfold keyed. destruct (text_field p "patent_number") as [n|]; [|done].
  destruct (text_field p "title") as [t|]; [|done]. eauto.
Qed.

Lemma fingerprint_keyed (p : pyval) (n t : string) :
  text_field p "patent_number" = Some n ->
  text_field p "title" = Some t ->
  _calculate_patent_hash p
  = MD5.hexdigest (normalize_number n +:+ "|" +:+ normalize_title t).
Proof.
  intros Hn Ht. unfold _calculate_patent_hash.
  by rewrite (hash_string_keyed p n t Hn Ht).
Qed.


(** A leading country code and nothing else of the kind: the number
    loses the code, the hyphens and the blanks, and keeps the rest. *)
Lemma normalize_number_prefix (n pre rest : string) :
  PyStr.upper (PyStr.strip n) = pre +:+ rest ->
  pre = "" \/ pre = "US" \/ pre = "TW" ->
  occurs "US" rest = false -> occurs "TW" rest = false ->
  normalize_number n = PyStr.remove_char " " (PyStr.remove_char "-" rest).
Proof.
  intros Hu Hpre Hus Htw. unfold normalize_number. rewrite Hu.
  rewrite !replace_char_remove. do 2 f_equal.
  destruct Hpre as [-> | [-> | ->]].
  - change ("" +:+ rest) with rest.
    rewrite (replace_absent "US") by done. by apply replace_absent.
  - assert (PyStr.replace "US" "" ("US" +:+ rest) = rest) as ->.
    { unfold PyStr.replace.
      change ("US" +:+ rest) with (String "U" (String "S" rest)).
      rewrite replace_go_leading. by apply replace_go_absent. }
    by apply replace_absent.
  - assert (PyStr.replace "US" "" ("TW" +:+ rest) = "TW" +:+ rest) as ->.
    { apply replace_absent.
      change ("TW" +:+ rest) with (String "T" (String "W" rest)).
      cbn [occurs]. rewrite !prefix_cons, Hus. reflexivity. }
    unfold PyStr.replace.
    change ("TW" +:+ rest) with (String "T" (String "W" rest)).
    rewrite replace_go_leading. by apply replace_go_absent.
Qed.

End Fingerprint.

(** *** Examples the fingerprint is run on *)

Definition comma_record : pyval :=
  PDict [("patent_number", PStr "1,234"); ("title", PStr "t")].

Definition bar_in_number : pyval :=
  PDict [("patent_number", PStr "1|2"); ("title", PStr "3")].

Definition bar_in_title : pyval :=
  PDict [("patent_number", PStr "1"); ("title", PStr "2|3")].

Definition spaced_us_record : pyval :=
  PDict [("title", PStr "  Widget "); ("abstract", PStr "x");
         ("patent_number", PStr " us-1,234 567 ")].



Section FingerprintClaims.

Context `{Runtime}.

(** C3 (as amended).  For a record whose [patent_number] and [title] are
    ASCII strings (an absent one counts as the empty string): when the
    trimmed, uppercased patent number is a leading "US" or "TW", or neither,
    followed by a rest in which neither token occurs, the fingerprint is the
    MD5 digest of that rest without its "-" and " " characters, every other
    character kept, then "|", then the title trimmed and lowercased. *)
Theorem C3_fingerprint_normalisation (p : pyval) (number title pre rest : string) :
  text_field p "patent_number" = Some number ->
  text_field p "title" = Some title ->
  ascii_only number = true ->
  ascii_only title = true ->
  PyStr.upper (PyStr.strip number) = pre +:+ rest ->
  pre = "" \/ pre = "US" \/ pre = "TW" ->
  occurs "US" rest = false ->
  occurs "TW" rest = false ->
  _calculate_patent_hash p
  = MD5.hexdigest
      (PyStr.remove_char " " (PyStr.remove_char "-" rest)
       +:+ "|" +:+ PyStr.lower (PyStr.strip title)).
Proof.
  intros Hn Ht _ _ Hu Hpre Hus Htw.
  rewrite (fingerprint_keyed p number title Hn Ht).
  by rewrite (normalize_number_prefix number pre rest Hu Hpre Hus Htw).
Qed.

(** C4 (as amended).  For two records whose [patent_number] and [title]
    are ASCII strings: equal normalized number and title give equal
    fingerprints;
    whatever the other fields are and in whatever order the fields come, the
    same number and title give the same fingerprint; and when "|" occurs in
    neither normalized number, the two hashed strings are equal exactly when
    the normalized numbers and the normalized titles are. *)
Theorem C4_fingerprint_determined (a b : pyval) (na ta nb tb : string) :
  text_field a "patent_number" = Some na ->
  text_field a "title" = Some ta ->
  text_field b "patent_number" = Some nb ->
  text_field b "title" = Some tb ->
  ascii_only na = true -> ascii_only ta = true ->
  ascii_only nb = true -> ascii_only tb = true ->
  (normalize_number na = normalize_number nb ->
   normalize_title ta = normalize_title tb ->
   _calculate_patent_hash a = _calculate_patent_hash b)
  /\ (na = nb -> ta = tb -> _calculate_patent_hash a = _calculate_patent_hash b)
  /\ (mem_char "|" (normalize_number na) = false ->
      mem_char "|" (normalize_number nb) = false ->
      (hash_string a = hash_string b <->
       normalize_number na = normalize_number nb
       /\ normalize_title ta = normalize_title tb)).
Proof.
  intros Hna Hta Hnb Htb _ _ _ _.
  rewrite (fingerprint_keyed a na ta Hna Hta), (fingerprint_keyed b nb tb Hnb Htb).
  rewrite (hash_string_keyed a na ta Hna Hta), (hash_string_keyed b nb tb Hnb Htb).
  split; [|split].
  - by intros -> ->.
  - by intros -> ->.
  - intros Ha Hb. split.
    + intros [= Heq]. by apply append_bar_inj.
    + by intros [-> ->].
Qed.



End FingerprintClaims.

(** A missing key field does not leave the digest path. *)
Example missing_fields_keyed : keyed (PDict []) = true /\ keyed (PDict [("title", PInt 3)]) = false.
Proof. split; reflexivity. Qed.

(** The token "US" is deleted wherever it stands, and only tokens present
    before the hyphens and blanks go. *)
Example interior_token : normalize_number "1US2" = "12" /\ normalize_number "U-S1" = "US1".
Proof. split; vm_compute; reflexivity. Qed.

Lemma C3_fingerprint_normalisation_witness :
  _calculate_patent_hash spaced_us_record
  = MD5.hexdigest
      (PyStr.remove_char " " (PyStr.remove_char "-" "-1,234 567")
       +:+ "|" +:+ PyStr.lower (PyStr.strip "  Widget ")).
Proof.
  exact (C3_fingerprint_normalisation spaced_us_record
           " us-1,234 567 " "  Widget " "US" "-1,234 567"
           eq_refl eq_refl eq_refl eq_refl eq_refl
           (or_intror (or_introl eq_refl)) eq_refl eq_refl).
Defined.

(** The claim as worded fails on a number with a comma: the code keeps
    the comma, the worded normalisation drops it, and the digests differ. *)
Lemma C3_comma_counterexample :
  (forall rt : Runtime,
     @_calculate_patent_hash rt comma_record = "acec06f697f4d761e8783188a3a737f3")
  /\ Claimed.fingerprint "1,234" "t" = "a1a10c5aa273272bb3f8869e48af8e21"
  /\ (forall rt : Runtime,
        @_calculate_patent_hash rt comma_record <> Claimed.fingerprint "1,234" "t").
Proof.
  split; [|split].
  - intros rt. vm_compute. reflexivity.
  - vm_compute. reflexivity.
  - intros rt. vm_compute. discriminate.
Qed.

Lemma C4_fingerprint_determined_witness :
  (normalize_number "US1234567" = normalize_number "1234567" ->
   normalize_title "Widget" = normalize_title "widget " ->
   _calculate_patent_hash
     (PDict [("patent_number", PStr "US1234567"); ("title", PStr "Widget")])
   = _calculate_patent_hash
       (PDict [("inventors", PList [PStr "Al"]); ("title", PStr "widget ");
               ("patent_number", PStr "1234567")]))
  /\ True.
Proof.
  pose proof (C4_fingerprint_determined
           (PDict [("patent_number", PStr "US1234567"); ("title", PStr "Widget")])
           (PDict [("inventors", PList [PStr "Al"]); ("title", PStr "widget ");
                   ("patent_number", PStr "1234567")])
           "US1234567" "Widget" "1234567" "widget "
           eq_refl eq_refl eq_refl eq_refl
           eq_refl eq_refl eq_refl eq_refl) as (H1 & _).
  exact (conj H1 I).
Defined.

(** Two records with different numbers and different titles, and one
    fingerprint: the separator also occurs inside a field. *)
Lemma C4_separator_counterexample :
  (forall rt : Runtime,
     @_calculate_patent_hash rt bar_in_number = @_calculate_patent_hash rt bar_in_title)
  /\ normalize_number "1|2" = "1|2" /\ normalize_number "1" = "1"
  /\ normalize_title "3" = "3" /\ normalize_title "2|3" = "2|3"
  /\ Claimed.normalized_number "1|2" = "12" /\ Claimed.normalized_number "1" = "1".
Proof.
  split; [intros rt; vm_compute; reflexivity|].
  split; [vm_compute; reflexivity|].
  split; [vm_compute; reflexivity|].
  split; [vm_compute; reflexivity|].
  split; [vm_compute; reflexivity|].
  split; vm_compute; reflexivity.
Qed.





(** ** Typed records *)

(** What [p.get(k)] returns on a dictionary. *)
Definition scalar (p : pyval) (k : string) : pyval :=
  match field p k with Some v => v | None => PNone end.

(** The members of a multi-valued field; an absent field has none. *)
Definition elements (p : pyval) (k : string) : list pyval :=
  match field p k with Some (PList l) => l | _ => [] end.

(** A multi-valued field is absent or a list of hashable values. *)
Definition list_field_ok (p : pyval) (k : string) : bool :=
  match field p k with
  | None => true
  | Some (PList l) => forallb hashable l
  | Some _ => false
  end.

Definition set_fields : list string :=
  ["source_databases"; "inventors"; "applicants"; "ipc_classes"; "images"].

(** The record type of the data model: a dictionary whose multi-valued
    fields are lists of hashable values. *)
Definition well_typed (p : pyval) : bool :=
  is_dict p && forallb (list_field_ok p) set_fields.

(** ** Facts about dictionaries and the merge steps *)

Lemma dict_get_set_eq (k : string) (v : pyval) (d : list (string * pyval)) :
  dict_get (dict_set k v d) k = Some v.
Proof.
  induction d as [|[k' v'] r IH]; cbn [dict_set dict_get].
  - by rewrite String.eqb_refl.
  - destruct (String.eqb k k') eqn:E; cbn [dict_get].
    + by rewrite String.eqb_refl.
    + by rewrite E.
Qed.

Lemma dict_get_set_ne (k k' : string) (v : pyval) (d : list (string * pyval)) :
  k <> k' -> dict_get (dict_set k v d) k' = dict_get d k'.
Proof.
  intros Hne. induction d as [|[k0 v0] r IH]; cbn [dict_set dict_get].
  - destruct (String.eqb k' k) eqn:E; [|done].
    apply String.eqb_eq in E. congruence.
  - destruct (String.eqb k k0) eqn:E; cbn [dict_get].
    + apply String.eqb_eq in E. subst k0.
      destruct (String.eqb k' k) eqn:E'; [|done].
      apply String.eqb_eq in E'. congruence.
    + by rewrite IH.
Qed.

Lemma dict_set_set (k : string) (v w : pyval) (d : list (string * pyval)) :
  dict_set k w (dict_set k v d) = dict_set k w d.
Proof.
  induction d as [|[k' v'] r IH]; cbn [dict_set].
  - by rewrite String.eqb_refl.
  - destruct (String.eqb k k') eqn:E; cbn [dict_set].
    + by rewrite String.eqb_refl.
    + by rewrite E, IH.
Qed.

Lemma first_unhashable_none (l : list pyval) :
  forallb hashable l = true -> first_unhashable l = None.
Proof.
  unfold first_unhashable. induction l as [|x r IH]; [done|].
  cbn [forallb List.find]. intros [Hx Hr]%andb_true_iff.
  rewrite Hx. cbn [negb]. by apply IH.
Qed.

Lemma forallb_hashable_app (l m : list pyval) :
  forallb hashable l = true -> forallb hashable m = true ->
  forallb hashable (l ++ m) = true.
Proof. intros Hl Hm. rewrite forallb_app, Hl, Hm. done. Qed.

Section MergeFacts.

Context `{Runtime}.

Lemma set_to_list_hashable (l : list pyval) :
  forallb hashable l = true -> forallb hashable (set_to_list l) = true.
Proof.
  intros Hl. apply forallb_forall. intros x Hx.
  apply list_elem_of_In in Hx. apply (proj1 (set_to_list_elem l x)) in Hx.
  apply list_elem_of_In in Hx.
  by apply (proj1 (forallb_forall _ _) Hl).
Qed.

Lemma merge_sources_is_merge (existing patent : pyval) :
  merge_sources existing patent = merge_list_field "source_databases" existing patent.
Proof. reflexivity. Qed.

(** A list merge that returns has written one list under its key. *)
Lemma merge_list_field_inv (k : string) (e n e' : pyval) :
  merge_list_field k e n = Ok e' ->
  exists d l, e = PDict d /\ e' = PDict (dict_set k (PList l) d).
Proof.
  unfold merge_list_field. destruct e as [| | | |d]; try done.
  cbn [py_get mbind result_bind].
  destruct (py_get n k (PList [])) as [nv|]; [|done]. cbn [mbind result_bind].
  destruct (py_add _ nv) as [s|]; [|done]. cbn [mbind result_bind].
  destruct (py_list_set s) as [c|]; [|done]. cbn [mbind result_bind py_setitem].
  intros [= <-]. eauto.
Qed.

(** On typed fields the list merge returns the union. *)
Lemma merge_list_field_typed (k : string) (d dn : list (string * pyval)) :
  list_field_ok (PDict d) k = true ->
  list_field_ok (PDict dn) k = true ->
  merge_list_field k (PDict d) (PDict dn)
  = Ok (PDict (dict_set k
                 (PList (set_to_list (elements (PDict d) k ++ elements (PDict dn) k)))
                 d)).
Proof.
  unfold list_field_ok, elements, merge_list_field, field.
  cbn [py_get mbind result_bind].
  destruct (dict_get d k) as [[| | |l|]|]; try done;
    destruct (dict_get dn k) as [[| | |l'|]|]; try done;
    intros Hl Hl'; cbn [py_add mbind result_bind]; unfold py_list_set;
    cbn [py_iter mbind result_bind];
    by rewrite first_unhashable_none by by apply forallb_hashable_app.
Qed.

(** A fill-forward that returns either left the record as it was, the
    field being non-empty or the incoming one empty, or wrote the incoming
    value into an empty field. *)
Lemma fill_forward_inv (k : string) (e n e' : pyval) :
  fill_forward k e n = Ok e' ->
  exists d, e = PDict d
    /\ ((e' = e /\ (truthy (scalar e k) = true \/ truthy (scalar n k) = false))
        \/ (truthy (scalar e k) = false /\ truthy (scalar n k) = true
            /\ e' = PDict (dict_set k (scalar n k) d))).
Proof.
  unfold fill_forward, py_get1, scalar, field.
  destruct e as [| | | |d]; try done. cbn [py_get mbind result_bind].
  intros Hff. exists d. split; [done|].
  destruct (truthy (match dict_get d k with Some v => v | None => PNone end)) eqn:Et.
  - injection Hff as <-. left. auto.
  - destruct n as [| | | |dn]; try done. cbn [py_get mbind result_bind] in Hff.
    destruct (dict_get dn k) as [v|] eqn:Ev.
    + destruct (truthy v) eqn:Etv.
      * cbn [py_getitem] in Hff. rewrite Ev in Hff.
        cbn [mbind result_bind py_setitem] in Hff. injection Hff as <-.
        right. auto.
      * injection Hff as <-. left. auto.
    + cbn [truthy] in Hff. injection Hff as <-. left. auto.
Qed.

(** Between two dictionaries a fill-forward never raises. *)
Lemma fill_forward_dicts (k : string) (d dn : list (string * pyval)) :
  exists e', fill_forward k (PDict d) (PDict dn) = Ok e'.
Proof.
  unfold fill_forward, py_get1. cbn [py_get mbind result_bind].
  destruct (truthy _); [eauto|].
  destruct (dict_get dn k) as [v|] eqn:Ev.
  - destruct (truthy v); [|eauto].
    cbn [py_getitem]. rewrite Ev. cbn [mbind result_bind py_setitem]. eauto.
  - cbn [truthy]. eauto.
Qed.

End MergeFacts.

(** ** Observing a record after an update *)

Lemma field_set_eq (k : string) (v : pyval) (d : list (string * pyval)) :
  field (PDict (dict_set k v d)) k = Some v.
Proof. apply dict_get_set_eq. Qed.

Lemma field_set_ne (k k' : string) (v : pyval) (d : list (string * pyval)) :
  k <> k' -> field (PDict (dict_set k v d)) k' = field (PDict d) k'.
Proof. apply dict_get_set_ne. Qed.

Lemma scalar_set_eq (k : string) (v : pyval) (d : list (string * pyval)) :
  scalar (PDict (dict_set k v d)) k = v.
Proof. unfold scalar. by rewrite field_set_eq. Qed.

Lemma scalar_set_ne (k k' : string) (v : pyval) (d : list (string * pyval)) :
  k <> k' -> scalar (PDict (dict_set k v d)) k' = scalar (PDict d) k'.
Proof. intros Hne. unfold scalar. by rewrite field_set_ne. Qed.

Lemma text_field_field (p q : pyval) (k : string) :
  is_dict p = is_dict q -> field p k = field q k -> text_field p k = text_field q k.
Proof.
  destruct p as [| | | |d], q as [| | | |e]; try done.
  unfold text_field, field. by intros _ ->.
Qed.

Lemma keyed_is_dict (p : pyval) : keyed p = true -> is_dict p = true.
Proof. by destruct p. Qed.

Lemma ascii_keyed_keyed (p : pyval) : ascii_keyed p = true -> keyed p = true.
Proof.
  unfold ascii_keyed, keyed.
  by destruct (text_field p "patent_number"), (text_field p "title").
Qed.

(** The two updates a merge performs on a typed record. *)
Definition union_field `{Runtime} (k : string) (d : list (string * pyval))
    (n : pyval) : list (string * pyval) :=
  dict_set k (PList (set_to_list (elements (PDict d) k ++ elements n k))) d.

Definition fill_field (k : string) (d : list (string * pyval)) (n : pyval)
  : list (string * pyval) :=
  if truthy (scalar (PDict d) k) then d
  else if truthy (scalar n k) then dict_set k (scalar n k) d
  else d.

Definition merged_dict `{Runtime} (d : list (string * pyval)) (n : pyval)
  : list (string * pyval) :=
  union_field "images"
    (fill_field "description"
       (fill_field "claims"
          (fill_field "abstract"
             (union_field "ipc_classes"
                (union_field "applicants" (union_field "inventors" d n) n) n)
             n) n) n) n.

(** The loop of [_deduplicate_patents] read as a fold: a record either
    joins the list or is merged into the first entry of its fingerprint. *)
Definition merge_into `{Runtime} (existing patent : pyval) : pyval :=
  match merge_sources existing patent with
  | Ok existing' => _merge_patent_info existing' patent
  | Raise _ => existing
  end.

Definition absorb `{Runtime} (acc : list pyval) (patent : pyval) : list pyval :=
  match
    list_find
      (fun a => _calculate_patent_hash a = _calculate_patent_hash patent) acc
  with
  | Some (t, existing) => <[t := merge_into existing patent]> acc
  | None => acc ++ [patent]
  end.

(** A record the loop handles without raising: its key fields are strings
    and its sources are a list of hashable values. *)
Definition record_ok (p : pyval) : bool :=
  keyed p && list_field_ok p "source_databases".

Ltac split_steps :=
  unfold _merge_patent_info, merge_steps; cbn [run_steps];
  repeat match goal with
  | |- context [match ?s ?e ?n with Ok _ => _ | Raise _ => _ end] =>
      let E := fresh "Step" in destruct (s e n) eqn:E
  end.

Ltac inv_steps :=
  repeat match goal with
  | H : merge_list_field _ _ _ = Ok _ |- _ =>
      apply merge_list_field_inv in H; destruct H as (? & ? & ? & ?); simplify_eq
  | H : fill_forward _ _ _ = Ok _ |- _ =>
      apply fill_forward_inv in H;
      destruct H as (? & ? & [[? ?] | (? & ? & ?)]); simplify_eq
  end.


Section MergeInfo.

Context `{Runtime}.

(** Merging never turns a record into something else, and writes only
    under its seven keys. *)
Lemma merge_info_is_dict (e n : pyval) :
  is_dict (_merge_patent_info e n) = is_dict e.
Proof. split_steps; inv_steps; reflexivity. Qed.

Lemma merge_info_frame (e n : pyval) (k : string) :
  k <> "inventors" -> k <> "applicants" -> k <> "ipc_classes" ->
  k <> "abstract" -> k <> "claims" -> k <> "description" -> k <> "images" ->
  field (_merge_patent_info e n) k = field e k.
Proof.
  intros H1 H2 H3 H4 H5 H6 H7. split_steps; inv_steps;
    repeat (rewrite field_set_ne by congruence); reflexivity.
Qed.


Lemma list_field_ok_set_ne (k k' : string) (v : pyval) (d : list (string * pyval)) :
  k <> k' -> list_field_ok (PDict (dict_set k v d)) k' = list_field_ok (PDict d) k'.
Proof. intros Hne. unfold list_field_ok. by rewrite field_set_ne. Qed.

Lemma elements_set_ne (k k' : string) (v : pyval) (d : list (string * pyval)) :
  k <> k' -> elements (PDict (dict_set k v d)) k' = elements (PDict d) k'.
Proof. intros Hne. unfold elements. by rewrite field_set_ne. Qed.

Lemma field_fill_ne (k k' : string) (d : list (string * pyval)) (n : pyval) :
  k <> k' -> field (PDict (fill_field k d n)) k' = field (PDict d) k'.
Proof.
  intros Hne. unfold fill_field.
  destruct (truthy (scalar (PDict d) k)); [done|].
  destruct (truthy (scalar n k)); [|done]. by apply field_set_ne.
Qed.

Lemma fill_forward_typed (k : string) (d dn : list (string * pyval)) :
  fill_forward k (PDict d) (PDict dn) = Ok (PDict (fill_field k d (PDict dn))).
Proof.
  unfold fill_forward, fill_field, py_get1, scalar, field.
  cbn [py_get mbind result_bind].
  destruct (truthy (match dict_get d k with Some v => v | None => PNone end)); [done|].
  destruct (dict_get dn k) as [v|] eqn:Ev; [|done].
  destruct (truthy v); [|done].
  cbn [py_getitem]. by rewrite Ev.
Qed.

Lemma merge_list_field_union (k : string) (d dn : list (string * pyval)) :
  list_field_ok (PDict d) k = true ->
  list_field_ok (PDict dn) k = true ->
  merge_list_field k (PDict d) (PDict dn) = Ok (PDict (union_field k d (PDict dn))).
Proof. apply merge_list_field_typed. Qed.

End MergeInfo.

(** ** Merging typed records *)

Section TypedMerge.

Context `{Runtime}.

Lemma well_typed_fields (p : pyval) :
  well_typed p = true ->
  is_dict p = true
  /\ list_field_ok p "source_databases" = true
  /\ list_field_ok p "inventors" = true
  /\ list_field_ok p "applicants" = true
  /\ list_field_ok p "ipc_classes" = true
  /\ list_field_ok p "images" = true.
Proof.
  unfold well_typed, set_fields. cbn [forallb].
  rewrite !andb_true_iff. tauto.
Qed.

Lemma list_field_ok_union_ne (k k' : string) (d : list (string * pyval)) (n : pyval) :
  k <> k' -> list_field_ok (PDict (union_field k d n)) k' = list_field_ok (PDict d) k'.
Proof. apply list_field_ok_set_ne. Qed.

Lemma list_field_ok_fill_ne (k k' : string) (d : list (string * pyval)) (n : pyval) :
  k <> k' -> list_field_ok (PDict (fill_field k d n)) k' = list_field_ok (PDict d) k'.
Proof. intros Hne. unfold list_field_ok. by rewrite field_fill_ne. Qed.

Lemma merge_patent_info_typed (d dn : list (string * pyval)) :
  well_typed (PDict d) = true -> well_typed (PDict dn) = true ->
  _merge_patent_info (PDict d) (PDict dn) = PDict (merged_dict d (PDict dn)).
Proof.
  intros (_ & _ & Hi & Ha & Hc & Hm)%well_typed_fields
         (_ & _ & Hi' & Ha' & Hc' & Hm')%well_typed_fields.
  unfold _merge_patent_info, merge_steps, merged_dict. cbn [run_steps].
  rewrite merge_list_field_union by done.
  rewrite merge_list_field_union
    by (by rewrite ?list_field_ok_union_ne by done).
  rewrite merge_list_field_union
    by (by rewrite ?list_field_ok_union_ne by done).
  rewrite !fill_forward_typed.
  rewrite merge_list_field_union; [done| |done].
  by rewrite !list_field_ok_fill_ne, !list_field_ok_union_ne by done.
Qed.

Lemma merge_sources_typed (d dn : list (string * pyval)) :
  list_field_ok (PDict d) "source_databases" = true ->
  list_field_ok (PDict dn) "source_databases" = true ->
  merge_sources (PDict d) (PDict dn)
  = Ok (PDict (union_field "source_databases" d (PDict dn))).
Proof. apply merge_list_field_typed. Qed.

Lemma scalar_fill_ne k k' d n : k <> k' -> scalar (PDict (fill_field k d n)) k' = scalar (PDict d) k'.
Proof. intros. unfold scalar. by rewrite field_fill_ne. Qed.

Lemma scalar_fill_filled k d n :
  truthy (scalar (PDict d) k) = false -> truthy (scalar n k) = true ->
  scalar (PDict (fill_field k d n)) k = scalar n k.
Proof. intros He Hn. unfold fill_field. rewrite He, Hn. apply scalar_set_eq. Qed.

Lemma scalar_union_ne k k' d n : k <> k' -> scalar (PDict (union_field k d n)) k' = scalar (PDict d) k'.
Proof. apply scalar_set_ne. Qed.

Lemma merged_scalar_filled (key : string) (d : list (string * pyval)) (n : pyval) :
  key = "abstract" \/ key = "claims" \/ key = "description" ->
  truthy (scalar (PDict d) key) = false -> truthy (scalar n key) = true ->
  scalar (PDict (merged_dict d n)) key = scalar n key.
Proof.
  intros Hk He Hn. unfold merged_dict.
  destruct Hk as [-> | [-> | ->]];
    rewrite ?scalar_union_ne, ?scalar_fill_ne by done;
    (rewrite scalar_fill_filled; [done| |done]);
    by rewrite ?scalar_fill_ne, ?scalar_union_ne by done.
Qed.

Lemma fingerprint_fields (a b : pyval) :
  keyed a = true -> is_dict b = true ->
  field a "patent_number" = field b "patent_number" ->
  field a "title" = field b "title" ->
  keyed b = true /\ _calculate_patent_hash b = _calculate_patent_hash a.
Proof.
  intros Hk Hb Hn Ht.
  pose proof (keyed_is_dict a Hk) as Ha.
  destruct (keyed_fields a Hk) as (n & t & Han & Hat).
  assert (text_field b "patent_number" = Some n) as Hbn.
  { rewrite <- Han. apply text_field_field; congruence. }
  assert (text_field b "title" = Some t) as Hbt.
  { rewrite <- Hat. apply text_field_field; congruence. }
  split.
  - unfold keyed. by rewrite Hbn, Hbt.
  - by rewrite (fingerprint_keyed a n t), (fingerprint_keyed b n t).
Qed.

Lemma record_ok_fields (p : pyval) :
  record_ok p = true ->
  keyed p = true /\ list_field_ok p "source_databases" = true
  /\ exists d, p = PDict d.
Proof.
  unfold record_ok. intros [Hk Hs]%andb_true_iff. split; [done|]. split; [done|].
  destruct p; try done. eauto.
Qed.

Lemma merge_into_typed (d : list (string * pyval)) (p : pyval) :
  record_ok (PDict d) = true -> record_ok p = true ->
  merge_sources (PDict d) p = Ok (PDict (union_field "source_databases" d p))
  /\ merge_into (PDict d) p
     = _merge_patent_info (PDict (union_field "source_databases" d p)) p.
Proof.
  intros (_ & Hs & _)%record_ok_fields (_ & Hs' & dp & ->)%record_ok_fields.
  assert (merge_sources (PDict d) (PDict dp)
          = Ok (PDict (union_field "source_databases" d (PDict dp)))) as Hm
    by by apply merge_sources_typed.
  split; [done|]. unfold merge_into. by rewrite Hm.
Qed.

Lemma merge_into_field (a p : pyval) (k : string) :
  record_ok a = true -> record_ok p = true ->
  k <> "source_databases" ->
  k <> "inventors" -> k <> "applicants" -> k <> "ipc_classes" ->
  k <> "abstract" -> k <> "claims" -> k <> "description" -> k <> "images" ->
  field (merge_into a p) k = field a k.
Proof.
  intros Ha Hp Hs H1 H2 H3 H4 H5 H6 H7.
  destruct (record_ok_fields a Ha) as (_ & _ & d & ->).
  destruct (merge_into_typed d p Ha Hp) as [_ ->].
  rewrite merge_info_frame by done. unfold union_field. by rewrite field_set_ne.
Qed.

Lemma merge_into_sources (a p : pyval) :
  record_ok a = true -> record_ok p = true ->
  field (merge_into a p) "source_databases"
  = Some (PList (set_to_list (elements a "source_databases"
                              ++ elements p "source_databases"))).
Proof.
  intros Ha Hp.
  destruct (record_ok_fields a Ha) as (_ & _ & d & ->).
  destruct (merge_into_typed d p Ha Hp) as [_ ->].
  rewrite merge_info_frame by done. unfold union_field. by rewrite field_set_eq.
Qed.

Lemma elements_hashable (p : pyval) (k : string) :
  list_field_ok p k = true -> forallb hashable (elements p k) = true.
Proof.
  unfold list_field_ok, elements. by destruct (field p k) as [[]|].
Qed.

Lemma merge_into_ok (a p : pyval) :
  record_ok a = true -> record_ok p = true ->
  record_ok (merge_into a p) = true
  /\ _calculate_patent_hash (merge_into a p) = _calculate_patent_hash a.
Proof.
  intros Ha Hp.
  destruct (record_ok_fields a Ha) as (Hk & Hsa & d & ->).
  destruct (record_ok_fields p Hp) as (_ & Hsp & _).
  assert (is_dict (merge_into (PDict d) p) = true) as Hd.
  { destruct (merge_into_typed d p Ha Hp) as [_ ->]. by rewrite merge_info_is_dict. }
  destruct (fingerprint_fields (PDict d) (merge_into (PDict d) p)) as [Hk' Hfp];
    try done; try (symmetry; by apply merge_into_field).
  split; [|done]. unfold record_ok. rewrite Hk'. cbn [andb].
  unfold list_field_ok. rewrite merge_into_sources by done.
  apply set_to_list_hashable, forallb_hashable_app; by apply elements_hashable.
Qed.

End TypedMerge.

(** ** The loop of [_deduplicate_patents] is a fold *)

Section LoopIsFold.

Context `{Runtime}.

(** The loop state [st] stands for the list [acc] after [i] records of
    [orig]. *)
Record stands_for (st : dedup_state) (acc : list pyval) (i : nat)
    (orig : list pyval) : Prop := {
  sf_lookup : Forall2 (fun j a => store st !! j = Some a) (deduplicated st) acc;
  sf_nodup : NoDup (deduplicated st);
  sf_seen : forall h, h ∈ seen_hashes st <->
                      exists a, a ∈ acc /\ _calculate_patent_hash a = h;
  sf_ok : Forall (fun a => record_ok a = true) acc;
  sf_below : forall j, j ∈ deduplicated st -> (j < i)%nat;
  sf_rest : forall j, (i <= j)%nat -> store st !! j = orig !! j
}.

Lemma find_existing_list_find (h : string) (st : dedup_state) (acc : list pyval) :
  Forall2 (fun j a => store st !! j = Some a) (deduplicated st) acc ->
  match list_find (fun a => _calculate_patent_hash a = h) acc with
  | Some (t, a) =>
      exists j, find_existing h st = Some j /\ deduplicated st !! t = Some j
                /\ store st !! j = Some a
  | None => find_existing h st = None
  end.
Proof.
  unfold find_existing. generalize (deduplicated st). intros l Hl.
  induction Hl as [|j a l acc Hj Hl IH]; [done|].
  cbn [list_find List.find]. rewrite Hj.
  destruct (decide (_calculate_patent_hash a = h)) as [Heq|Hne].
  - rewrite Heq, String.eqb_refl. exists j. done.
  - apply String.eqb_neq in Hne. rewrite Hne.
    destruct (list_find _ acc) as [[t a']|]; [|done].
    cbn [fmap option_fmap option_map prod_map fst snd]. done.
Qed.

Lemma stands_for_step (st : dedup_state) (acc orig : list pyval) (i : nat) (p : pyval) :
  stands_for st acc i orig ->
  orig !! i = Some p ->
  record_ok p = true ->
  exists st', dedup_step st i p = Ok st' /\ stands_for st' (absorb acc p) (S i) orig.
Proof.
  intros [Hlk Hnd Hseen Hok Hbelow Hrest] Hp Hpok.
  unfold dedup_step, absorb.
  pose proof (find_existing_list_find (_calculate_patent_hash p) st acc Hlk) as Hfind.
  destruct (decide (_calculate_patent_hash p ∈ seen_hashes st)) as [Hin|Hnin].
  - rewrite bool_decide_eq_true_2 by done.
    destruct (list_find _ acc) as [[t a]|] eqn:Hlf.
    + destruct Hfind as (j & -> & Htj & Hja). rewrite Hja.
      apply list_find_Some in Hlf as (Hta & Hfp & _).
      assert (record_ok a = true) as Haok.
      { by apply (proj1 (Forall_lookup _ _) Hok t a). }
      destruct (record_ok_fields a Haok) as (_ & _ & d & ->).
      destruct (merge_into_typed d p Haok Hpok) as [Hms Hmi].
      rewrite Hms. cbn [mbind result_bind]. rewrite <- Hmi.
      destruct (merge_into_ok (PDict d) p Haok Hpok) as [Hmok Hmfp].
      eexists. split; [done|]. split; cbn [store deduplicated seen_hashes].
      * apply Forall2_same_length_lookup_2.
        { rewrite length_insert. by apply Forall2_length in Hlk. }
        intros t' j' a' Hj' Ha'.
        destruct (decide (t' = t)) as [->|Hne].
        -- rewrite Htj in Hj'. injection Hj' as <-.
           rewrite list_lookup_insert_eq in Ha'
             by (by apply lookup_lt_Some in Hta).
           injection Ha' as <-.
           apply list_lookup_insert_eq. by apply lookup_lt_Some in Hja.
        -- rewrite list_lookup_insert_ne in Ha' by done.
           rewrite list_lookup_insert_ne.
           ++ by apply (Forall2_lookup_lr _ _ _ t' j' a' Hlk).
           ++ intros <-. apply Hne. by apply (NoDup_lookup (deduplicated st) t' t j).
      * done.
      * intros h. rewrite Hseen. split.
        -- intros (a' & Ha' & Hfa').
           apply list_elem_of_lookup in Ha' as [t' Ht'].
           destruct (decide (t' = t)) as [->|Hne].
           ++ exists (merge_into (PDict d) p). split.
              ** apply list_elem_of_lookup. exists t.
                 apply list_lookup_insert_eq. by apply lookup_lt_Some in Hta.
              ** rewrite Hmfp. congruence.
           ++ exists a'. split; [|done]. apply list_elem_of_lookup. exists t'.
              by rewrite list_lookup_insert_ne.
        -- intros (a' & Ha' & Hfa').
           apply list_elem_of_lookup in Ha' as [t' Ht'].
           destruct (decide (t' = t)) as [->|Hne].
           ++ rewrite list_lookup_insert_eq in Ht' by (by apply lookup_lt_Some in Hta).
              injection Ht' as <-. exists (PDict d). split.
              ** apply list_elem_of_lookup. eauto.
              ** congruence.
           ++ rewrite list_lookup_insert_ne in Ht' by done.
              exists a'. split; [|done]. apply list_elem_of_lookup. eauto.
      * apply Forall_insert; done.
      * intros j' Hj'. specialize (Hbelow j' Hj'). lia.
      * intros j' Hj'. rewrite list_lookup_insert_ne; [apply Hrest; lia|].
        intros <-. assert (j < i)%nat; [|lia].
        apply Hbelow. apply list_elem_of_lookup. eauto.
    + exfalso. apply Hseen in Hin as (a & Ha & Hfa).
      apply list_find_None in Hlf.
      by apply (proj1 (Forall_forall _ _) Hlf a Ha).
  - rewrite bool_decide_eq_false_2 by done.
    destruct (list_find _ acc) as [[t a]|] eqn:Hlf.
    + exfalso. apply list_find_Some in Hlf as (Hta & Hfp & _).
      apply Hnin, Hseen. exists a. split; [|done].
      apply list_elem_of_lookup. eauto.
    + eexists. split; [done|]. split; cbn [store deduplicated seen_hashes].
      * apply Forall2_app; [done|]. constructor; [|constructor].
        rewrite Hrest by done. done.
      * apply NoDup_app. split; [done|]. split; [|apply NoDup_singleton].
        intros j Hj ->%list_elem_of_singleton. specialize (Hbelow i Hj). lia.
      * intros h. rewrite elem_of_union, elem_of_singleton, Hseen. split.
        -- intros [(a & Ha & Hfa) | ->].
           ++ exists a. split; [|done]. apply elem_of_app. by left.
           ++ exists p. split; [|done]. apply elem_of_app. right.
              by apply list_elem_of_singleton.
        -- intros (a & [Ha | ->%list_elem_of_singleton]%elem_of_app & Hfa).
           ++ left. eauto.
           ++ by right.
      * apply Forall_app. split; [done|]. by constructor.
      * intros j [Hj | ->%list_elem_of_singleton]%elem_of_app.
        -- specialize (Hbelow j Hj). lia.
        -- lia.
      * intros j Hj. apply Hrest. lia.
Qed.

Lemma stands_for_loop (rest : list pyval) :
  forall (st : dedup_state) (acc orig : list pyval) (i : nat),
  stands_for st acc i orig ->
  drop i orig = rest ->
  Forall (fun p => record_ok p = true) rest ->
  exists st', dedup_loop i rest st = (st', None)
              /\ stands_for st' (foldl absorb acc rest) (i + length rest) orig.
Proof.
  induction rest as [|p rest IH]; intros st acc orig i Hsf Hdrop Hok.
  - exists st. split; [done|]. cbn [length foldl]. by rewrite Nat.add_0_r.
  - apply Forall_cons in Hok as [Hp Hrest].
    assert (orig !! i = Some p) as Hi.
    { rewrite <- (Nat.add_0_r i), <- lookup_drop, Hdrop. done. }
    destruct (stands_for_step st acc orig i p Hsf Hi Hp) as (st1 & Hstep & Hsf1).
    cbn [dedup_loop foldl]. rewrite Hstep.
    destruct (IH st1 (absorb acc p) orig (S i) Hsf1) as (st' & Hloop & Hsf').
    { rewrite (drop_S _ _ _ Hi) in Hdrop. by injection Hdrop. }
    { done. }
    exists st'. split; [done|]. cbn [length]. by rewrite <- Nat.add_succ_comm.
Qed.

Lemma dedup_is_fold (patents : list pyval) :
  Forall (fun p => record_ok p = true) patents ->
  _deduplicate_patents patents = foldl absorb [] patents.
Proof.
  intros Hok. destruct patents as [|p0 rest]; [done|].
  unfold _deduplicate_patents.
  destruct (stands_for_loop (p0 :: rest) (MkDedup (p0 :: rest) [] ∅) []
              (p0 :: rest) 0) as (st' & -> & Hsf); [|done|done|].
  { split; cbn [store deduplicated seen_hashes]; try done.
    - constructor.
    - intros h. split; [set_solver|]. intros (a & Ha & _). by apply elem_of_nil in Ha.
    - intros j Hj. by apply elem_of_nil in Hj. }
  destruct Hsf as [Hlk _ _ _ _ _].
  revert Hlk. generalize (foldl absorb [] (p0 :: rest)) (deduplicated st').
  intros acc l Hl. induction Hl as [|j a l acc Hj Hl IH]; [done|].
  cbn. rewrite Hj. by rewrite <- IH.
Qed.

End LoopIsFold.

(** ** Fill-forward of the scalar fields *)

Section FillForward.

Context `{Runtime}.

Lemma well_typed_record_ok (p : pyval) :
  well_typed p = true -> keyed p = true -> record_ok p = true.
Proof.
  intros (_ & Hs & _)%well_typed_fields Hk. unfold record_ok. by rewrite Hk, Hs.
Qed.

Lemma well_typed_union_sources (d : list (string * pyval)) (p : pyval) :
  well_typed (PDict d) = true ->
  list_field_ok p "source_databases" = true ->
  well_typed (PDict (union_field "source_databases" d p)) = true.
Proof.
  intros (_ & Hs & Hi & Ha & Hc & Hm)%well_typed_fields Hp.
  unfold well_typed, set_fields. cbn [is_dict forallb andb].
  rewrite (list_field_ok_union_ne _ "inventors"), (list_field_ok_union_ne _ "applicants"),
    (list_field_ok_union_ne _ "ipc_classes"), (list_field_ok_union_ne _ "images") by done.
  rewrite Hi, Ha, Hc, Hm.
  rewrite !andb_true_r. unfold list_field_ok, union_field.
  rewrite field_set_eq.
  apply set_to_list_hashable, forallb_hashable_app; by apply elements_hashable.
Qed.


End FillForward.

Definition first_seen : pyval :=
  PDict [("patent_number", PStr "US1234567"); ("title", PStr "Widget");
         ("abstract", PStr ""); ("inventors", PList [PStr "Al"])].
Definition later_seen : pyval :=
  PDict [("patent_number", PStr "1234567"); ("title", PStr "widget ");
         ("abstract", PStr "A gadget.")].




(** ** Deduplicating a deduplicated list *)

(** Two records with the same contents, the multi-valued fields read as
    sets (an absent one is the empty set). *)
Definition same_record (a b : pyval) : Prop :=
  is_dict a = is_dict b
  /\ (forall k, k ∈ set_fields -> forall x, x ∈ elements a k <-> x ∈ elements b k)
  /\ (forall k, k ∉ set_fields -> field a k = field b k).

Section Idempotence.

Context `{Runtime}.





Lemma elements_set_eq (k : string) (l : list pyval) (d : list (string * pyval)) :
  elements (PDict (dict_set k (PList l) d)) k = l.
Proof. unfold elements. by rewrite field_set_eq. Qed.







Lemma absorb_fresh (acc : list pyval) (p : pyval) :
  (forall a, a ∈ acc -> _calculate_patent_hash a <> _calculate_patent_hash p) ->
  absorb acc p = (acc ++ [p])%list.
Proof.
  intros Hfresh. unfold absorb.
  destruct (list_find _ acc) as [[t a]|] eqn:Hlf; [|done].
  apply list_find_Some in Hlf as (Hta & Hfp & _).
  exfalso. apply (Hfresh a); [|done]. apply list_elem_of_lookup. eauto.
Qed.

Lemma fold_fresh (records : list pyval) :
  forall acc : list pyval,
  NoDup (_calculate_patent_hash <$> records) ->
  (forall a p, a ∈ acc -> p ∈ records ->
               _calculate_patent_hash a <> _calculate_patent_hash p) ->
  foldl absorb acc records = (acc ++ records)%list.
Proof.
  induction records as [|p rest IH]; intros acc Hnd Hfresh.
  - cbn [foldl]. by rewrite app_nil_r.
  - cbn [foldl]. rewrite fmap_cons in Hnd. apply NoDup_cons in Hnd as [Hp Hnd].
    rewrite absorb_fresh by (intros a Ha; apply Hfresh; [done|by left]).
    rewrite IH; [by rewrite <- app_assoc|done|].
    intros a q [Ha | ->%list_elem_of_singleton]%elem_of_app Hq.
    + apply Hfresh; [done|by right].
    + intros Heq. apply Hp. rewrite Heq. by apply list_elem_of_fmap_2.
Qed.




End Idempotence.

Definition tagged_widget : pyval :=
  PDict [("patent_number", PStr "US1234567"); ("title", PStr "Widget");
         ("abstract", PStr ""); ("inventors", PList [PStr "Al"; PStr "Bo"]);
         ("source_databases", PList [PStr "uspto"; PStr "twpat"])].

Definition tagged_gadget : pyval :=
  PDict [("patent_number", PStr "TW I234567"); ("title", PStr "Gadget");
         ("source_databases", PList [PStr "twpat"])].




(** ** The output of the pass *)

Section Output.

Context `{Runtime}.

Lemma list_field_ok_union_eq (k : string) (d : list (string * pyval)) (n : pyval) :
  list_field_ok (PDict d) k = true -> list_field_ok n k = true ->
  list_field_ok (PDict (union_field k d n)) k = true.
Proof.
  intros Hd Hn. unfold list_field_ok, union_field. rewrite field_set_eq.
  apply set_to_list_hashable, forallb_hashable_app; by apply elements_hashable.
Qed.

Lemma well_typed_merged (d : list (string * pyval)) (n : pyval) :
  well_typed (PDict d) = true -> well_typed n = true ->
  well_typed (PDict (merged_dict d n)) = true.
Proof.
  intros (_ & Hs & Hi & Ha & Hc & Hm)%well_typed_fields
         (_ & Hs' & Hi' & Ha' & Hc' & Hm')%well_typed_fields.
  unfold well_typed, set_fields, merged_dict. cbn [is_dict forallb andb].
  repeat (apply andb_true_iff; split); try done.
  - by rewrite list_field_ok_union_ne, !list_field_ok_fill_ne,
      !list_field_ok_union_ne by done.
  - rewrite list_field_ok_union_ne, !list_field_ok_fill_ne,
      !list_field_ok_union_ne by done.
    by apply list_field_ok_union_eq.
  - rewrite list_field_ok_union_ne, !list_field_ok_fill_ne,
      list_field_ok_union_ne by done.
    apply list_field_ok_union_eq; [|done]. by rewrite list_field_ok_union_ne.
  - rewrite list_field_ok_union_ne, !list_field_ok_fill_ne by done.
    apply list_field_ok_union_eq; [|done]. by rewrite !list_field_ok_union_ne.
  - apply list_field_ok_union_eq; [|done].
    by rewrite !list_field_ok_fill_ne, !list_field_ok_union_ne by done.
Qed.

Lemma well_typed_merge_into (a p : pyval) :
  well_typed a = true -> keyed a = true ->
  well_typed p = true -> keyed p = true ->
  well_typed (merge_into a p) = true.
Proof.
  intros Hta Hka Htp Hkp.
  pose proof (well_typed_record_ok _ Hta Hka) as Hoa.
  pose proof (well_typed_record_ok _ Htp Hkp) as Hop.
  destruct (record_ok_fields a Hoa) as (_ & _ & d & ->).
  destruct (record_ok_fields p Hop) as (_ & Hsp & dp & ->).
  destruct (merge_into_typed d (PDict dp) Hoa Hop) as [_ ->].
  rewrite merge_patent_info_typed by (by try apply well_typed_union_sources).
  apply well_typed_merged; [|done]. by apply well_typed_union_sources.
Qed.

Lemma absorb_distinct (acc : list pyval) (p : pyval) :
  Forall (fun a => well_typed a = true /\ keyed a = true) acc ->
  NoDup (_calculate_patent_hash <$> acc) ->
  well_typed p = true -> keyed p = true ->
  Forall (fun a => well_typed a = true /\ keyed a = true) (absorb acc p)
  /\ NoDup (_calculate_patent_hash <$> absorb acc p).
Proof.
  intros Hacc Hnd Htp Hkp. unfold absorb.
  destruct (list_find _ acc) as [[t a]|] eqn:Hlf.
  - apply list_find_Some in Hlf as (Hta & Hfp & _).
    destruct (proj1 (Forall_lookup _ _) Hacc t a Hta) as [Hwa Hka].
    destruct (merge_into_ok a p) as [Hmok Hmfp];
      [by apply well_typed_record_ok|by apply well_typed_record_ok|].
    split.
    + apply Forall_insert; [done|]. split; [by apply well_typed_merge_into|].
      unfold record_ok in Hmok. by apply andb_true_iff in Hmok as [? _].
    + rewrite list_fmap_insert, Hmfp, list_insert_id; [done|].
      by rewrite list_lookup_fmap, Hta.
  - apply list_find_None in Hlf. split.
    + apply Forall_app. split; [done|]. by constructor.
    + rewrite fmap_app. apply NoDup_app. split; [done|].
      split; [|apply NoDup_singleton].
      intros h (a & -> & Ha)%list_elem_of_fmap Heq%list_elem_of_singleton.
      by apply (proj1 (Forall_forall _ _) Hlf a Ha).
Qed.

(** What the pass returns on records of the data model is again such a
    list, with pairwise distinct fingerprints. *)
Lemma dedup_output_distinct (patents : list pyval) :
  Forall (fun p => well_typed p = true /\ keyed p = true) patents ->
  Forall (fun p => well_typed p = true /\ keyed p = true)
    (_deduplicate_patents patents)
  /\ NoDup (_calculate_patent_hash <$> _deduplicate_patents patents).
Proof.
  intros Hty.
  rewrite dedup_is_fold.
  2:{ eapply Forall_impl; [exact Hty|]. intros p [Ht Hk]. by apply well_typed_record_ok. }
  assert (forall ps acc,
            Forall (fun p => well_typed p = true /\ keyed p = true) ps ->
            Forall (fun a => well_typed a = true /\ keyed a = true) acc ->
            NoDup (_calculate_patent_hash <$> acc) ->
            Forall (fun a => well_typed a = true /\ keyed a = true) (foldl absorb acc ps)
            /\ NoDup (_calculate_patent_hash <$> foldl absorb acc ps)) as Hfold.
  { induction ps as [|p rest IH]; intros acc Hps Hacc Hnd; [done|].
    apply Forall_cons in Hps as [[Htp Hkp] Hrest]. cbn [foldl].
    destruct (absorb_distinct acc p Hacc Hnd Htp Hkp) as [Hacc' Hnd'].
    by apply IH. }
  apply Hfold; [done|done|]. cbn. apply NoDup_nil_2.
Qed.

End Output.

(** ** The shape of the loop on any records *)

Section LoopShape.
Context `{Runtime}.

(** What every state of the loop satisfies, whatever the records are. *)
Definition loop_shape (n i : nat) (st : dedup_state) : Prop :=
  length (store st) = n
  /\ (length (deduplicated st) <= i)%nat
  /\ ((0 < i)%nat -> exists rest, deduplicated st = 0%nat :: rest).

Lemma dedup_step_shape (n i : nat) (st st' : dedup_state) (p : pyval) :
  loop_shape n i st ->
  (i = 0%nat -> deduplicated st = [] /\ seen_hashes st = ∅) ->
  dedup_step st i p = Ok st' ->
  loop_shape n (S i) st'.
Proof.
  intros (Hn & Hl & Hz) Hfirst. unfold dedup_step.
  destruct (bool_decide _) eqn:Hseen.
  - destruct (find_existing _ st) as [j|]; [|].
    + destruct (store st !! j) as [existing|]; [|].
      * destruct (merge_sources existing p) as [e'|]; [|done].
        cbn [mbind result_bind]. intros [= <-].
        split; [|split]; cbn [store deduplicated].
        -- by rewrite length_insert.
        -- lia.
        -- intros _. apply Hz. destruct i; [|lia].
           destruct (Hfirst eq_refl) as [_ Hs]. rewrite Hs in Hseen.
           apply bool_decide_eq_true in Hseen. by apply not_elem_of_empty in Hseen.
      * intros [= <-]. split; [done|]. split; [lia|].
        intros _. apply Hz. destruct i; [|lia].
        destruct (Hfirst eq_refl) as [_ Hs]. rewrite Hs in Hseen.
        apply bool_decide_eq_true in Hseen. by apply not_elem_of_empty in Hseen.
    + intros [= <-]. split; [done|]. split; [lia|].
      intros _. apply Hz. destruct i; [|lia].
      destruct (Hfirst eq_refl) as [_ Hs]. rewrite Hs in Hseen.
      apply bool_decide_eq_true in Hseen. by apply not_elem_of_empty in Hseen.
  - intros [= <-]. split; [|split]; cbn [store deduplicated].
    + done.
    + rewrite length_app. cbn [length]. lia.
    + intros _. destruct i as [|i].
      * destruct (Hfirst eq_refl) as [-> _]. by exists [].
      * destruct Hz as [rest ->]; [lia|]. by eexists.
Qed.

Lemma dedup_loop_shape (patents : list pyval) :
  forall (n i : nat) (st st' : dedup_state) (err : option exn),
  loop_shape n i st ->
  (i = 0%nat -> deduplicated st = [] /\ seen_hashes st = ∅) ->
  dedup_loop i patents st = (st', err) ->
  loop_shape n (i + length patents) st'.
Proof.
  induction patents as [|p rest IH]; intros n i st st' err Hsh Hfirst.
  - cbn [dedup_loop length]. intros [= <- _]. by rewrite Nat.add_0_r.
  - cbn [dedup_loop length]. destruct (dedup_step st i p) as [st1|e] eqn:Hstep.
    + intros Hloop. rewrite <- Nat.add_succ_comm.
      apply (IH n (S i) st1 st' err); [|done|done].
      by apply (dedup_step_shape n i st st1 p).
    + intros [= <- _]. destruct Hsh as (Hn & Hl & Hz).
      split; [done|]. split; [lia|]. intros _.
      destruct i as [|i]; [|apply Hz; lia].
      exfalso. destruct (Hfirst eq_refl) as [_ Hs].
      unfold dedup_step in Hstep. rewrite Hs in Hstep.
      by rewrite bool_decide_eq_false_2 in Hstep by apply not_elem_of_empty.
Qed.

Lemma length_omap_le {A B} (f : A -> option B) (l : list A) :
  (length (omap f l) <= length l)%nat.
Proof.
  induction l as [|x l IH]; [done|]. cbn. destruct (f x); cbn [length]; lia.
Qed.

(** The pass returns at most as many records as it was given, and at
    least one when it was given any. *)
Lemma dedup_length (patents : list pyval) :
  (length (_deduplicate_patents patents) <= length patents)%nat
  /\ (patents <> [] -> _deduplicate_patents patents <> []).
Proof.
  destruct patents as [|p0 rest]; [done|].
  unfold _deduplicate_patents.
  destruct (dedup_loop 0 (p0 :: rest) _) as [st err] eqn:Hloop.
  apply (dedup_loop_shape _ (length (p0 :: rest)) 0) in Hloop as (Hn & Hl & Hz);
    [| |done].
  2:{ split; [done|]. split; [cbn; lia|]. intros Hlt. lia. }
  cbn [plus] in Hl, Hz.
  destruct err as [e|].
  - split; [by rewrite Hn|]. intros _ Hnil. rewrite Hnil in Hn. done.
  - split.
    + etrans; [apply length_omap_le|]. done.
    + intros _. destruct Hz as [r ->]; [cbn [length]; lia|].
      destruct (store st) as [|x s] eqn:Hs; [done|]. cbn. done.
Qed.
End LoopShape.

(** ** The deduplication ratio *)

Lemma py_iter_len (v : pyval) (l : list pyval) (n : nat) :
  py_iter v = Ok l -> py_len v = Ok n -> length l = n.
Proof.
  destruct v as [| |s|l'|d]; try done; cbn [py_iter py_len]; intros [= <-] [= <-].
  - by rewrite length_fmap.
  - done.
  - by rewrite length_fmap.
Qed.

Lemma tag_records_length (db : string) (l tagged : list pyval) :
  tag_records db l = Ok tagged -> length tagged = length l.
Proof.
  revert tagged. induction l as [|p r IH]; intros tagged; cbn [tag_records].
  - by intros [= <-].
  - destruct (py_setitem p _ _) as [p'|]; [|done]. cbn [mbind result_bind].
    destruct (tag_records db r) as [r'|]; [|done]. cbn [mbind result_bind].
    intros [= <-]. cbn [length]. by rewrite (IH r').
Qed.

Lemma collect_result_length (db : string) (res : pyval) (here : list pyval)
    (r : pyval) (n : nat) :
  collect_result db res = Ok here ->
  py_get res "results" (PList []) = Ok r -> py_len r = Ok n ->
  (length here <= n)%nat.
Proof.
  unfold collect_result, py_get1. intros Hc Hr Hn.
  destruct (py_get res "status" PNone) as [status|]; [|done].
  cbn [mbind result_bind] in Hc.
  destruct (pyval_eqb status (PStr "completed")).
  - rewrite Hr in Hc. cbn [mbind result_bind] in Hc.
    destruct (py_iter r) as [l|] eqn:Hl; [|done]. cbn [mbind result_bind] in Hc.
    apply tag_records_length in Hc. rewrite Hc.
    by rewrite (py_iter_len r l n).
  - injection Hc as <-. cbn [length]. lia.
Qed.

Lemma collect_patents_length (results : list (string * pyval)) :
  forall (all_patents : list pyval) (total : nat),
  collect_patents results = Ok all_patents ->
  total_original results = Ok total ->
  (length all_patents <= total)%nat.
Proof.
  induction results as [|[db res] rest IH]; intros all_patents total;
    cbn [collect_patents total_original].
  - by intros [= <-] [= <-].
  - destruct (collect_result db res) as [here|] eqn:Hh; [|done].
    cbn [mbind result_bind].
    destruct (collect_patents rest) as [there|]; [|done]. cbn [mbind result_bind].
    intros [= <-].
    destruct (py_get res "results" (PList [])) as [r|] eqn:Hr; [|done].
    cbn [mbind result_bind].
    destruct (py_len r) as [n|] eqn:Hn; [|done]. cbn [mbind result_bind].
    destruct (total_original rest) as [m|]; [|done]. cbn [mbind result_bind].
    intros [= <-]. rewrite length_app.
    pose proof (collect_result_length db res here r n Hh Hr Hn).
    specialize (IH there m eq_refl eq_refl). lia.
Qed.

Lemma ratio_bounds (total merged : nat) :
  (0 < total)%nat -> (merged <= total)%nat ->
  (0 <= (Z.of_nat total - Z.of_nat merged) # Pos.of_nat total)%Q
  /\ ((Z.of_nat total - Z.of_nat merged) # Pos.of_nat total <= 1)%Q.
Proof.
  intros Ht Hm. unfold Qle. cbn [Qnum Qden].
  assert (Z.pos (Pos.of_nat total) = Z.of_nat total) as Hp.
  { destruct total as [|t]; [lia|]. rewrite <- Pos.of_nat_succ, Zpos_P_of_succ_nat. lia. }
  rewrite Hp. lia.
Qed.

Section Ratio.
Context `{Runtime}.

Lemma merged_length (results : list (string * pyval)) (log : list string) (total : nat) :
  total_original results = Ok total ->
  (length (_merge_and_deduplicate_results results log).1 <= total)%nat.
Proof.
  intros Ht. unfold _merge_and_deduplicate_results.
  destruct (collect_patents results) as [all_patents|e] eqn:Hc; cbn [fst].
  - etrans; [apply dedup_length|]. by apply (collect_patents_length results).
  - cbn [length]. lia.
Qed.

(** Rounding to a [float] keeps a quotient between [0] and [1] there. *)
Lemma float_of_bounds (q : Q) :
  (0 <= q)%Q -> (q <= 1)%Q -> (0 <= float_of q)%Q /\ (float_of q <= 1)%Q.
Proof.
  intros H0 H1. split.
  - eapply Qle_trans; [|apply float_of_mono, H0]. rewrite float_of_0. apply Qle_refl.
  - eapply Qle_trans; [apply float_of_mono, H1|]. rewrite float_of_1. apply Qle_refl.
Qed.

Lemma dedup_ratio_bounds (results : list (string * pyval)) (merged : list pyval)
    (total : nat) :
  total_original results = Ok total -> (length merged <= total)%nat ->
  (0 <= _calculate_dedup_ratio results merged)%Q
  /\ (_calculate_dedup_ratio results merged <= 1)%Q.
Proof.
  intros Ht Hm. unfold _calculate_dedup_ratio. rewrite Ht.
  destruct total as [|t]; [done|]. cbn [Nat.eqb].
  apply float_of_bounds; apply ratio_bounds; lia.
Qed.

End Ratio.

(** ** Failures inside the merge step *)

Lemma tag_records_malformed (db : string) (l : list pyval) (x : pyval) :
  x ∈ l -> is_dict x = false -> exists e, tag_records db l = Raise e.
Proof.
  intros Hx Hd. induction l as [|p r IH]; [by apply elem_of_nil in Hx|].
  cbn [tag_records]. destruct (py_setitem p _ _) as [p'|e] eqn:Hp; [|eauto].
  cbn [mbind result_bind].
  apply elem_of_cons in Hx as [<- | Hx].
  - destruct x; done.
  - destruct (IH Hx) as [e ->]. cbn [mbind result_bind]. eauto.
Qed.

Lemma collect_patents_raises (results : list (string * pyval)) (db : string)
    (res : pyval) (e : exn) :
  (db, res) ∈ results -> collect_result db res = Raise e ->
  exists e', collect_patents results = Raise e'.
Proof.
  intros Hin Hr. induction results as [|[db' res'] rest IH];
    [by apply elem_of_nil in Hin|].
  cbn [collect_patents].
  destruct (collect_result db' res') as [here|e0] eqn:Hh; [|eauto].
  cbn [mbind result_bind].
  apply elem_of_cons in Hin as [[= <- <-] | Hin]; [congruence|].
  destruct (IH Hin) as [e' ->]. cbn [mbind result_bind]. eauto.
Qed.

Section MergeFailure.
Context `{Runtime}.

(** C6 (as amended).  The merge step always returns a list and the log.
    When collecting the records raises (an entry that is not a dictionary, a
    [results] value that cannot be iterated, a record that is not a
    dictionary), the step appends the error to the execution log and returns
    the empty list.  Otherwise it returns the deduplicated records, which are
    not empty when any record was collected: an exception raised while two
    records are merged is handled where it arises and does not empty the
    result. *)
Theorem C6_merge_failure (results : list (string * pyval)) (log : list string) :
  (forall e, collect_patents results = Raise e ->
     _merge_and_deduplicate_results results log
     = ([], (log ++ ["開始合併和去重結果"; "合併和去重結果失敗: " +:+ exn_msg e])%list))
  /\ (forall db res e, (db, res) ∈ results -> collect_result db res = Raise e ->
        (_merge_and_deduplicate_results results log).1 = [])
  /\ (forall db d l x, (db, PDict d) ∈ results ->
        dict_get d "status" = Some (PStr "completed") ->
        dict_get d "results" = Some (PList l) ->
        x ∈ l -> is_dict x = false ->
        (_merge_and_deduplicate_results results log).1 = [])
  /\ (forall all_patents, collect_patents results = Ok all_patents ->
        (_merge_and_deduplicate_results results log).1
        = _deduplicate_patents all_patents
        /\ (all_patents <> [] ->
            (_merge_and_deduplicate_results results log).1 <> [])).
Proof.
  assert (forall e, collect_patents results = Raise e ->
     _merge_and_deduplicate_results results log
     = ([], (log ++ ["開始合併和去重結果"; "合併和去重結果失敗: " +:+ exn_msg e])%list))
    as Hraise.
  { intros e He. unfold _merge_and_deduplicate_results. rewrite He.
    by rewrite <- app_assoc. }
  assert (forall db res e, (db, res) ∈ results -> collect_result db res = Raise e ->
        (_merge_and_deduplicate_results results log).1 = []) as Hentry.
  { intros db res e Hin Hr.
    destruct (collect_patents_raises results db res e Hin Hr) as [e' He'].
    by rewrite (Hraise e' He'). }
  split; [done|]. split; [done|]. split.
  - intros db d l x Hin Hst Hres Hx Hd.
    destruct (tag_records_malformed db l x Hx Hd) as [e He].
    apply (Hentry db (PDict d) e Hin).
    unfold collect_result, py_get1. cbn [py_get]. rewrite Hst, Hres.
    cbn [mbind result_bind pyval_eqb String.eqb py_iter]. 
    replace (pyval_eqb (PStr "completed") (PStr "completed")) with true by done.
    cbn [mbind result_bind py_iter]. done.
  - intros all_patents Hall. unfold _merge_and_deduplicate_results.
    rewrite Hall. cbn [fst]. split; [done|]. apply dedup_length.
Qed.
End MergeFailure.

(** Two completed backends return the same patent, one with the
    inventors as a string and one as a list. *)
Definition clash_results : list (string * pyval) :=
  [ ("a", PDict [("status", PStr "completed");
                 ("results",
                  PList [PDict [("patent_number", PStr "1"); ("title", PStr "t");
                                ("inventors", PStr "Al")]])]);
    ("b", PDict [("status", PStr "completed");
                 ("results",
                  PList [PDict [("patent_number", PStr "1"); ("title", PStr "t");
                                ("inventors", PList [PStr "Bo"])]])]) ].

Definition clash_first : pyval :=
  PDict [("patent_number", PStr "1"); ("title", PStr "t");
         ("inventors", PStr "Al"); ("source_databases", PList [PStr "a"])].

Definition clash_second : pyval :=
  PDict [("patent_number", PStr "1"); ("title", PStr "t");
         ("inventors", PList [PStr "Bo"]); ("source_databases", PList [PStr "b"])].

(** The merge of the two raises inside [_merge_patent_info], and the
    merged list still holds the record. *)
Lemma C6_nested_exception_counterexample :
  collect_patents clash_results = Ok [clash_first; clash_second]
  /\ (forall rt : Runtime,
        exists existing',
          @merge_sources rt clash_first clash_second = Ok existing'
          /\ @merge_list_field rt "inventors" existing' clash_second
             = Raise (TypeError
                        ("can only concatenate str (not " +:+ dquote +:+ "list"
                         +:+ dquote +:+ ") to str")))
  /\ (forall rt : Runtime,
        length (@_merge_and_deduplicate_results rt clash_results []).1 = 1%nat).
Proof.
  split; [reflexivity|]. split.
  - intros rt. eexists. split; [reflexivity|]. reflexivity.
  - intros rt. vm_compute. reflexivity.
Qed.

(** ** The map a strategy returns *)

(** The entry that [record_outcome] leaves for a backend's outcome. *)
Definition outcome_entry (o : result pyval) : pyval :=
  match o with
  | Ok res =>
      match py_get res "total_found" (PInt 0) with
      | Ok _ => res
      | Raise e => failed_result (exn_msg e)
      end
  | Raise e => failed_result (exn_msg e)
  end.

(** The registry built by [__init__]. *)
Definition registry (twpat uspto : bot) : gmap string bot :=
  <["twpat" := twpat]> (<["uspto" := uspto]> ∅).

Lemma dict_get_fold_set (f : string -> pyval) (dbs : list string) :
  forall (r0 : list (string * pyval)) (k : string),
  dict_get (fold_left (fun r db => dict_set db (f db) r) dbs r0) k
  = if decide (k ∈ dbs) then Some (f k) else dict_get r0 k.
Proof.
  induction dbs as [|db rest IH]; intros r0 k; cbn [fold_left].
  - rewrite decide_False; [done|apply not_elem_of_nil].
  - rewrite IH. destruct (decide (k ∈ rest)) as [Hin|Hnin].
    + rewrite decide_True; [done|by right].
    + destruct (decide (k = db)) as [->|Hne].
      * rewrite decide_True by by left. apply dict_get_set_eq.
      * rewrite decide_False.
        -- by apply dict_get_set_ne.
        -- by intros [?|?]%elem_of_cons.
Qed.

Lemma dict_get_elem (d : list (string * pyval)) (k : string) (v : pyval) :
  dict_get d k = Some v -> (k, v) ∈ d.
Proof.
  induction d as [|[k' v'] r IH]; [done|]. cbn [dict_get].
  destruct (String.eqb k k') eqn:E.
  - apply String.eqb_eq in E as ->. intros [= ->]. by left.
  - intros Hr. right. by apply IH.
Qed.

Lemma dict_set_Forall (P : string * pyval -> Prop) (k : string) (v : pyval)
    (d : list (string * pyval)) :
  Forall P d -> P (k, v) -> Forall P (dict_set k v d).
Proof.
  intros Hd Hv. induction Hd as [|[k' v'] r Hkv Hr IH]; cbn [dict_set].
  - by constructor.
  - destruct (String.eqb k k'); by constructor.
Qed.

Lemma fold_set_Forall (P : string * pyval -> Prop) (f : string -> pyval)
    (dbs : list string) :
  forall r0 : list (string * pyval),
  Forall P r0 -> (forall db, db ∈ dbs -> P (db, f db)) ->
  Forall P (fold_left (fun r db => dict_set db (f db) r) dbs r0).
Proof.
  induction dbs as [|db rest IH]; intros r0 Hr Hf; [done|].
  cbn [fold_left]. apply IH.
  - apply dict_set_Forall; [done|]. apply Hf. by left.
  - intros db' Hdb'. apply Hf. by right.
Qed.

Section StrategyFacts.
Context `{Runtime}.
Variable bots : gmap string bot.
Variable query : Query.

Lemma record_outcome_results (db : string) (o : result pyval)
    (results : list (string * pyval)) (log : list string) :
  (record_outcome db o (results, log)).1 = dict_set db (outcome_entry o) results.
Proof.
  unfold record_outcome, outcome_entry. destruct o as [res|e]; [|done].
  destruct (py_get res "total_found" (PInt 0)); [done|].
  cbn [fst]. apply dict_set_set.
Qed.

(** What each strategy writes for a requested id. *)
Definition sequential_entry (db : string) : pyval :=
  match bots !! db with
  | Some b => outcome_entry (b query)
  | None => failed_result unsupported_database
  end.

Definition parallel_entry (db : string) : pyval :=
  outcome_entry (_search_single_database bots query db).

Lemma sequential_fold (dbs : list string) :
  forall (results : list (string * pyval)) (log : list string),
  (fold_left (sequential_step bots query) dbs (results, log)).1
  = fold_left (fun r db => dict_set db (sequential_entry db) r) dbs results.
Proof.
  induction dbs as [|db rest IH]; intros results log; [done|].
  cbn [fold_left].
  destruct (sequential_step bots query (results, log) db) as [r1 l1] eqn:Hs.
  rewrite IH. f_equal.
  unfold sequential_step, sequential_entry, _search_single_database in *.
  destruct (bots !! db) as [b|].
  - rewrite <- record_outcome_results with (log := (log ++ ["開始檢索 " +:+ db])%list).
    by rewrite Hs.
  - by injection Hs as <- _.
Qed.

Lemma collect_fold (futures : list string) :
  forall (results : list (string * pyval)) (log : list string),
  (fold_left (collect bots query) futures (results, log)).1
  = fold_left (fun r db => dict_set db (parallel_entry db) r) futures results.
Proof.
  induction futures as [|db rest IH]; intros results log; [done|].
  cbn [fold_left].
  destruct (collect bots query (results, log) db) as [r1 l1] eqn:Hs.
  rewrite IH. f_equal. unfold collect, parallel_entry in *.
  rewrite <- record_outcome_results with (log := log). by rewrite Hs.
Qed.

Lemma submit_fold (dbs : list string) :
  forall (futures : list string) (log : list string),
  (fold_left (submit bots) dbs (futures, log)).1
  = (futures ++ filter (fun db => is_Some (bots !! db)) dbs)%list.
Proof.
  induction dbs as [|db rest IH]; intros futures log.
  - cbn [fold_left fst]. by rewrite filter_nil, app_nil_r.
  - cbn [fold_left]. unfold submit at 2. rewrite filter_cons.
    destruct (bots !! db) as [b|] eqn:Hb.
    + rewrite IH, decide_True by eauto. by rewrite <- app_assoc.
    + rewrite IH, decide_False; [done|]. by intros [? ?].
Qed.

Lemma submit_log_unsupported (dbs : list string) (db : string) :
  forall (futures : list string) (log : list string),
  db ∈ dbs -> bots !! db = None ->
  ("不支援的資料庫: " +:+ db) ∈ (fold_left (submit bots) dbs (futures, log)).2.
Proof.
  assert (forall dbs futures log x, x ∈ log ->
            x ∈ (fold_left (submit bots) dbs (futures, log)).2) as Hkeep.
  { clear. intros dbs. induction dbs as [|d rest IH]; intros futures log x Hx; [done|].
    cbn [fold_left]. unfold submit at 2. destruct (bots !! d).
    - by apply IH.
    - apply IH. apply elem_of_app. by left. }
  induction dbs as [|d rest IH]; intros futures log Hin Hnone;
    [by apply elem_of_nil in Hin|].
  cbn [fold_left]. unfold submit at 2.
  apply elem_of_cons in Hin as [<- | Hin].
  - rewrite Hnone. apply Hkeep. apply elem_of_app. right. by left.
  - destruct (bots !! d); by apply IH.
Qed.

(** The map each strategy returns. *)
Lemma search_sequential_results (dbs : list string) (log : list string) :
  exists log',
    _search_sequential bots query dbs log
    = (Ok (fold_left (fun r db => dict_set db (sequential_entry db) r) dbs []), log').
Proof.
  unfold _search_sequential.
  pose proof (sequential_fold dbs [] (log ++ ["使用順序模式檢索"])%list) as Hf.
  destruct (fold_left _ dbs _) as [r l]. cbn [fst] in Hf. subst r. eauto.
Qed.

Lemma search_parallel_results (dbs : list string) (log : list string) :
  dbs <> [] ->
  exists log',
    _search_parallel bots query dbs log
    = (Ok (fold_left (fun r db => dict_set db (parallel_entry db) r)
             (as_completed (filter (fun db => is_Some (bots !! db)) dbs)) []),
       log')
    /\ (forall db, db ∈ dbs -> bots !! db = None ->
          ("不支援的資料庫: " +:+ db) ∈ log').
Proof.
  intros Hne. unfold _search_parallel.
  destruct dbs as [|d0 rest]; [done|]. cbn [length Nat.leb].
  pose proof (submit_fold (d0 :: rest) [] (log ++ ["使用並行模式檢索"])%list) as Hs.
  pose proof (fun db => submit_log_unsupported (d0 :: rest) db []
                (log ++ ["使用並行模式檢索"])%list) as Hlog.
  destruct (fold_left (submit bots) _ _) as [futures l1].
  cbn [fst snd] in Hs, Hlog. cbn [app] in Hs. subst futures.
  pose proof (collect_fold
                (as_completed (filter (fun db => is_Some (bots !! db)) (d0 :: rest)))
                [] l1) as Hc.
  assert (forall x, x ∈ l1 ->
            x ∈ (fold_left (collect bots query)
                   (as_completed (filter (fun db => is_Some (bots !! db)) (d0 :: rest)))
                   ([], l1)).2) as Hkeep.
  { generalize (as_completed (filter (fun db => is_Some (bots !! db)) (d0 :: rest))).
    generalize (@nil (string * pyval)). generalize l1. clear.
    intros l1 r fs. revert l1 r.
    induction fs as [|f fs IH]; intros l1 r x Hx; [done|].
    cbn [fold_left].
    destruct (collect bots query (r, l1) f) as [r1 l2] eqn:Hc.
    apply IH. unfold collect, record_outcome in Hc.
    destruct (_search_single_database bots query f) as [res|e].
    - destruct (py_get res "total_found" (PInt 0));
        injection Hc as <- <-; apply elem_of_app; by left.
    - injection Hc as <- <-. apply elem_of_app. by left. }
  destruct (fold_left (collect bots query) _ _) as [r l2].
  cbn [fst snd] in Hc, Hkeep. subst r.
  exists l2. split; [done|]. intros db Hin Hnone. apply Hkeep. by apply Hlog.
Qed.
End StrategyFacts.

(** ** A run over well-formed backend results *)

(** A backend result of the interface: a dictionary whose [results], when
    present, is a list of records with string key fields, and whose
    [downloaded_files], when present, is a list. *)
Definition wf_backend (v : pyval) : bool :=
  match v with
  | PDict d =>
      match dict_get d "results" with
      | None => true
      | Some (PList l) => forallb keyed l
      | Some _ => false
      end
      && match dict_get d "downloaded_files" with
         | None | Some (PList _) => true
         | Some _ => false
         end
  | _ => false
  end.

(** A backend result of the interface whose records have ASCII key
    fields. *)
Definition ascii_backend (v : pyval) : bool :=
  match v with
  | PDict d =>
      match dict_get d "results" with
      | None => true
      | Some (PList l) => forallb ascii_keyed l
      | Some _ => false
      end
      && match dict_get d "downloaded_files" with
         | None | Some (PList _) => true
         | Some _ => false
         end
  | _ => false
  end.

Lemma ascii_backend_wf (v : pyval) : ascii_backend v = true -> wf_backend v = true.
Proof.
  destruct v as [| | | |d]; try done. cbn [ascii_backend wf_backend].
  intros [Hr ->]%andb_true_iff. rewrite andb_true_r.
  destruct (dict_get d "results") as [[| | |l|]|]; try done.
  apply forallb_forall. intros p Hp. apply ascii_keyed_keyed.
  by apply (proj1 (forallb_forall _ _) Hr).
Qed.

(** A record after [patent["source_databases"] = [db]]. *)
Definition tagged (db : string) (p : pyval) : pyval :=
  match p with
  | PDict d => PDict (dict_set "source_databases" (PList [PStr db]) d)
  | _ => p
  end.

Lemma wf_backend_failed (msg : string) : wf_backend (failed_result msg) = true.
Proof. reflexivity. Qed.

Lemma outcome_entry_wf (o : result pyval) :
  (forall v, o = Ok v -> wf_backend v = true) -> wf_backend (outcome_entry o) = true.
Proof.
  intros Hwf. destruct o as [res|e]; [|done]. cbn [outcome_entry].
  destruct (py_get res "total_found" (PInt 0)); [|done]. by apply Hwf.
Qed.

Lemma tag_records_keyed (db : string) (l : list pyval) :
  forallb keyed l = true -> tag_records db l = Ok (tagged db <$> l).
Proof.
  induction l as [|p r IH]; [done|]. cbn [forallb].
  intros [Hp Hr]%andb_true_iff. cbn [tag_records].
  pose proof (keyed_is_dict p Hp) as Hd. destruct p as [| | | |d]; try done.
  cbn [py_setitem mbind result_bind]. rewrite (IH Hr). done.
Qed.

Section Pipeline.
Context `{Runtime}.

Lemma tagged_ok (db : string) (p : pyval) :
  keyed p = true ->
  record_ok (tagged db p) = true
  /\ _calculate_patent_hash (tagged db p) = _calculate_patent_hash p
  /\ elements (tagged db p) "source_databases" = [PStr db].
Proof.
  intros Hk. pose proof (keyed_is_dict p Hk) as Hd.
  destruct p as [| | | |d]; try done. cbn [tagged].
  destruct (fingerprint_fields (PDict d)
              (PDict (dict_set "source_databases" (PList [PStr db]) d)))
    as [Hk' Hfp]; try done; try (by rewrite field_set_ne).
  split; [|split; [done|]].
  - unfold record_ok. rewrite Hk'. unfold list_field_ok. by rewrite field_set_eq.
  - unfold elements. by rewrite field_set_eq.
Qed.

(** On well-formed backend results nothing in the run raises. *)
Lemma wf_collect (results : list (string * pyval)) :
  Forall (fun kv => wf_backend kv.2 = true) results ->
  exists all_patents,
    collect_patents results = Ok all_patents
    /\ Forall (fun p => record_ok p = true) all_patents
    /\ (forall db d l p, (db, PDict d) ∈ results ->
          dict_get d "status" = Some (PStr "completed") ->
          dict_get d "results" = Some (PList l) ->
          p ∈ l -> tagged db p ∈ all_patents).
Proof.
  induction 1 as [|[db res] rest Hres Hrest (there & Hthere & Hok & Hin)].
  - exists []. split; [done|]. split; [done|].
    intros db d l p Hx. by apply elem_of_nil in Hx.
  - cbn [snd] in Hres. destruct res as [| | | |d]; try done.
    cbn [wf_backend] in Hres. apply andb_true_iff in Hres as [Hr _].
    assert (exists here,
              collect_result db (PDict d) = Ok here
              /\ Forall (fun p => record_ok p = true) here
              /\ (forall l p, dict_get d "status" = Some (PStr "completed") ->
                    dict_get d "results" = Some (PList l) ->
                    p ∈ l -> tagged db p ∈ here)) as (here & Hhere & Hhok & Hhin).
    { unfold collect_result, py_get1. cbn [py_get mbind result_bind].
      destruct (pyval_eqb _ (PStr "completed")) eqn:Hst.
      - destruct (dict_get d "results") as [[| | |l|]|] eqn:Hl; try done.
        + cbn [py_iter mbind result_bind]. rewrite (tag_records_keyed db l Hr).
          eexists. split; [done|]. split.
          * apply Forall_fmap, Forall_forall. intros p Hp. cbn.
            apply tagged_ok. apply (proj1 (forallb_forall _ _) Hr).
            by apply list_elem_of_In.
          * intros l' p _ [= <-] Hp. by apply list_elem_of_fmap_2.
        + cbn [py_iter mbind result_bind tag_records]. exists [].
          split; [done|]. split; [done|]. intros l p _ Hl'. done.
      - exists []. split; [done|]. split; [done|].
        intros l p Hs. rewrite Hs in Hst. cbn in Hst. done. }
    exists (here ++ there)%list. cbn [collect_patents]. rewrite Hhere, Hthere.
    split; [done|]. split; [by apply Forall_app|].
    intros db' d' l p [[= -> ->] | Hx]%elem_of_cons Hs Hl Hp.
    + apply elem_of_app. left. by apply (Hhin l).
    + apply elem_of_app. right. by apply (Hin db' d' l).
Qed.

Lemma wf_counts (results : list (string * pyval)) :
  Forall (fun kv => wf_backend kv.2 = true) results ->
  (exists files, gather_downloaded_files results = Ok files)
  /\ (exists by_db, count_by_db results = Ok by_db)
  /\ (exists total, total_original results = Ok total).
Proof.
  induction 1 as [|[db res] rest Hres Hrest ((fs & Hfs) & (by_db & Hby) & (t & Ht))].
  - repeat split; by eexists.
  - cbn [snd] in Hres. destruct res as [| | | |d]; try done.
    cbn [wf_backend] in Hres. apply andb_true_iff in Hres as [Hr Hf].
    cbn [gather_downloaded_files count_by_db total_original py_get mbind result_bind].
    rewrite Hfs, Hby, Ht. repeat split.
    + destruct (dict_get d "downloaded_files") as [[| | |l|]|]; try done;
        cbn [py_iter mbind result_bind]; by eexists.
    + destruct (dict_get d "results") as [[| | |l|]|]; try done;
        cbn [py_len mbind result_bind]; by eexists.
    + destruct (dict_get d "results") as [[| | |l|]|]; try done;
        cbn [py_len mbind result_bind]; by eexists.
Qed.





End Pipeline.

(** ** Runs *)

(** A backend that finds nothing. *)
Definition idle_result : pyval :=
  PDict [("status", PStr "completed"); ("total_found", PInt 0);
         ("results", PList []); ("downloaded_files", PList [])].

Definition idle_bot : bot := fun _ => Ok idle_result.

Section RunFacts.
Context `{Runtime}.

Lemma as_completed_elem (l : list string) (x : string) :
  x ∈ as_completed l <-> x ∈ l.
Proof. by rewrite (as_completed_perm l). Qed.

Lemma as_completed_one (x : string) : as_completed [x] = [x].
Proof. apply Permutation_singleton_r. apply as_completed_perm. Qed.

(** What a run returns once its strategy has delivered well-formed
    entries. *)
Lemma run_completed (self : coordinator) (dbs : list string) (q : Query)
    (parallel : bool) (m : list (string * pyval)) (log1 : list string) :
  (if parallel
   then _search_parallel (bots self) q dbs
          (execution_log self ++ ["開始多資料庫檢索: " +:+ PyStr.join ", " dbs])%list
   else _search_sequential (bots self) q dbs
          (execution_log self ++ ["開始多資料庫檢索: " +:+ PyStr.join ", " dbs])%list)
  = (Ok m, log1) ->
  Forall (fun kv => wf_backend kv.2 = true) m ->
  Summary.status (search_multiple_databases self dbs q parallel).1 = "completed"
  /\ Summary.results_by_database (search_multiple_databases self dbs q parallel).1
     = Some m
  /\ Summary.results (search_multiple_databases self dbs q parallel).1
     = (_merge_and_deduplicate_results m log1).1
  /\ Summary.merged_count (search_multiple_databases self dbs q parallel).1
     = length (_merge_and_deduplicate_results m log1).1
  /\ total_original m
     = Ok (Summary.total_found (search_multiple_databases self dbs q parallel).1).
Proof.
  intros Hs Hwf. unfold search_multiple_databases. rewrite Hs.
  destruct (_merge_and_deduplicate_results m log1) as [merged log2].
  destruct (wf_counts m Hwf) as ((fs & ->) & (by_db & ->) & (t & ->)).
  cbn. done.
Qed.

Lemma sequential_entry_wf (bots : gmap string bot) (q : Query) (db : string) :
  (forall db' b' v, bots !! db' = Some b' -> b' q = Ok v -> wf_backend v = true) ->
  wf_backend (sequential_entry bots q db) = true.
Proof.
  intros Hwf. unfold sequential_entry. destruct (bots !! db) as [b|] eqn:Hb; [|done].
  apply outcome_entry_wf. intros v Hv. by apply (Hwf db b).
Qed.

Lemma parallel_entry_wf (bots : gmap string bot) (q : Query) (db : string) :
  (forall db' b' v, bots !! db' = Some b' -> b' q = Ok v -> wf_backend v = true) ->
  wf_backend (parallel_entry bots q db) = true.
Proof.
  intros Hwf. unfold parallel_entry, _search_single_database.
  destruct (bots !! db) as [b|] eqn:Hb; [|done].
  apply outcome_entry_wf. intros v Hv. by apply (Hwf db b).
Qed.

(** The map of a run, by strategy: every entry is well formed, a
    registered requested id has the entry of its outcome. *)
Lemma strategy_results (self : coordinator) (dbs : list string) (q : Query)
    (parallel : bool) (log : list string) :
  dbs <> [] ->
  (forall db' b' v, bots self !! db' = Some b' -> b' q = Ok v -> wf_backend v = true) ->
  exists m log1,
    (if parallel then _search_parallel (bots self) q dbs log
     else _search_sequential (bots self) q dbs log) = (Ok m, log1)
    /\ Forall (fun kv => wf_backend kv.2 = true) m
    /\ (forall db b, db ∈ dbs -> bots self !! db = Some b ->
          dict_get m db = Some (outcome_entry (b q))).
Proof.
  intros Hne Hwf. destruct parallel.
  - destruct (search_parallel_results (bots self) q dbs log Hne) as (log1 & Hp & _).
    eexists _, log1. split; [exact Hp|]. split.
    + apply fold_set_Forall; [done|]. intros db _. by apply parallel_entry_wf.
    + intros db b Hin Hb. rewrite dict_get_fold_set.
      rewrite decide_True.
      * unfold parallel_entry, _search_single_database. by rewrite Hb.
      * apply as_completed_elem, list_elem_of_filter. split; [by eexists|done].
  - destruct (search_sequential_results (bots self) q dbs log) as (log1 & Hp).
    eexists _, log1. split; [exact Hp|]. split.
    + apply fold_set_Forall; [done|]. intros db _. by apply sequential_entry_wf.
    + intros db b Hin Hb. rewrite dict_get_fold_set, decide_True by done.
      unfold sequential_entry. by rewrite Hb.
Qed.


(** C2.  With no database requested, the sequential mode completes with
    zero totals, a zero ratio and an empty map, and the parallel mode fails:
    the pool refuses zero workers, the run reports [failed] and carries
    neither ratio nor map. *)
Theorem C2_empty_targets (self : coordinator) (q : Query) :
  (Summary.status (search_multiple_databases self [] q false).1 = "completed"
   /\ Summary.total_found (search_multiple_databases self [] q false).1 = 0%nat
   /\ Summary.merged_count (search_multiple_databases self [] q false).1 = 0%nat
   /\ Summary.deduplication_ratio (search_multiple_databases self [] q false).1
      = Some 0%Q
   /\ Summary.results_by_database (search_multiple_databases self [] q false).1
      = Some [])
  /\ (Summary.status (search_multiple_databases self [] q true).1 = "failed"
      /\ Summary.error (search_multiple_databases self [] q true).1
         = Some "max_workers must be greater than 0"
      /\ Summary.total_found (search_multiple_databases self [] q true).1 = 0%nat
      /\ Summary.merged_count (search_multiple_databases self [] q true).1 = 0%nat
      /\ Summary.deduplication_ratio (search_multiple_databases self [] q true).1
         = None
      /\ Summary.results_by_database (search_multiple_databases self [] q true).1
         = None).
Proof. repeat split. Qed.

(** An id without a backend under each strategy. *)
Lemma sequential_unregistered (bots : gmap string bot) (q : Query)
    (dbs : list string) (log : list string) (db : string) :
  db ∈ dbs -> bots !! db = None ->
  exists m log',
    _search_sequential bots q dbs log = (Ok m, log')
    /\ dict_get m db = Some (failed_result unsupported_database).
Proof.
  intros Hin Hnone.
  destruct (search_sequential_results bots q dbs log) as (log' & Hs).
  eexists _, log'. split; [exact Hs|].
  rewrite dict_get_fold_set, decide_True by done.
  unfold sequential_entry, bot in *. by rewrite Hnone.
Qed.

Lemma parallel_unregistered (bots : gmap string bot) (q : Query)
    (dbs : list string) (log : list string) (db : string) :
  db ∈ dbs -> bots !! db = None ->
  exists m log',
    _search_parallel bots q dbs log = (Ok m, log')
    /\ dict_get m db = None
    /\ ("不支援的資料庫: " +:+ db) ∈ log'.
Proof.
  intros Hin Hnone.
  assert (dbs <> []) as Hne by (intros ->; by apply elem_of_nil in Hin).
  destruct (search_parallel_results bots q dbs log Hne) as (log' & Hs & Hlog).
  eexists _, log'. split; [exact Hs|]. split; [|by apply Hlog].
  rewrite dict_get_fold_set, decide_False; [done|].
  intros [[b Hb] _]%as_completed_elem%list_elem_of_filter.
  unfold bot in *. congruence.
Qed.

(** C1.  With the registry of the source and the request ["twpat"; "epo"]:
    the sequential strategy records "epo" as a failed entry with the
    unsupported-database error; the parallel strategy only logs it, and its
    map has no entry for "epo"; a parallel run over idle backends completes
    with a map of one entry for the two requested ids. *)
Theorem C1_unregistered_id (twpat uspto : bot) (q : Query) (log : list string) :
  (exists m log',
     _search_sequential (registry twpat uspto) q ["twpat"; "epo"] log = (Ok m, log')
     /\ dict_get m "epo" = Some (failed_result unsupported_database))
  /\ (exists m log',
        _search_parallel (registry twpat uspto) q ["twpat"; "epo"] log = (Ok m, log')
        /\ dict_get m "epo" = None
        /\ "不支援的資料庫: epo" ∈ log')
  /\ (Summary.status
        (search_multiple_databases
           (MkCoordinator (registry idle_bot idle_bot) [] [] [] log)
           ["twpat"; "epo"] q true).1 = "completed"
      /\ Summary.results_by_database
           (search_multiple_databases
              (MkCoordinator (registry idle_bot idle_bot) [] [] [] log)
              ["twpat"; "epo"] q true).1
         = Some [("twpat", idle_result)]).
Proof.
  split; [|split].
  - apply sequential_unregistered; [by right; left|done].
  - apply (parallel_unregistered (registry twpat uspto) q ["twpat"; "epo"] log "epo");
      [by right; left|done].
  - set (self := MkCoordinator (registry idle_bot idle_bot) [] [] [] log).
    destruct (search_parallel_results (bots self) q ["twpat"; "epo"]
                (execution_log self
                   ++ ["開始多資料庫檢索: " +:+ PyStr.join ", " ["twpat"; "epo"]])%list)
      as (log1 & Hs & _); [done|].
    assert (filter (fun db => is_Some (bots self !! db)) ["twpat"; "epo"] = ["twpat"])
      as Hf by (by vm_compute).
    rewrite Hf, as_completed_one in Hs. cbn [fold_left dict_set] in Hs.
    assert (parallel_entry (bots self) q "twpat" = idle_result) as He by done.
    rewrite He in Hs.
    destruct (run_completed self ["twpat"; "epo"] q true _ log1 Hs)
      as (Hst & Hby & _); [by repeat constructor|].
    done.
Qed.
End RunFacts.

(** *** A run with one failing backend *)

Definition widget_result : pyval :=
  PDict [("status", PStr "completed"); ("total_found", PInt 1);
         ("results",
          PList [PDict [("patent_number", PStr "US1234567"); ("title", PStr "Widget")]]);
         ("downloaded_files", PList [])].

Definition demo_bots : gmap string bot :=
  <["a" := fun _ => Ok widget_result]>
    (<["b" := fun _ => Raise (MkExn "RuntimeError" "boom")]> ∅).

Definition demo_self : coordinator := MkCoordinator demo_bots [] [] [] [].

Definition demo_query : Query := MkQuery (Some ["widget"]) None None.

Lemma demo_bots_wf (db : string) (b : bot) (v : pyval) :
  demo_bots !! db = Some b -> b demo_query = Ok v -> wf_backend v = true.
Proof.
  unfold demo_bots. intros Hb Hv.
  apply lookup_insert_Some in Hb as [[<- <-] | [_ Hb]].
  - by injection Hv as <-.
  - apply lookup_insert_Some in Hb as [[<- <-] | [_ Hb]]; [done|].
    by rewrite lookup_empty in Hb.
Defined.



(** * Further properties of the coordinator *)

(** ** The fingerprint ignores letter case and surrounding blanks *)

(** A string of ASCII whitespace. *)
Fixpoint blank (s : string) : bool :=
  match s with
  | EmptyString => true
  | String c r => PyStr.is_space c && blank r
  end.

Lemma lstrip_blank (s : string) : blank s = true -> PyStr.lstrip s = "".
Proof.
  induction s as [|c r IH]; [done|]. cbn [blank PyStr.lstrip].
  intros [-> Hr]%andb_true_iff. by apply IH.
Qed.

Lemma rstrip_blank (s : string) : blank s = true -> PyStr.rstrip s = "".
Proof.
  induction s as [|c r IH]; [done|]. cbn [blank PyStr.rstrip].
  intros [-> Hr]%andb_true_iff. by rewrite IH.
Qed.

Lemma lstrip_app_blank (ws s : string) :
  blank ws = true -> PyStr.lstrip (ws +:+ s) = PyStr.lstrip s.
Proof.
  induction ws as [|c r IH]; [done|]. cbn [blank].
  intros [Hc Hr]%andb_true_iff.
  change (String c r +:+ s) with (String c (r +:+ s)).
  cbn [PyStr.lstrip]. rewrite Hc. by apply IH.
Qed.

Lemma rstrip_app_blank (s ws : string) :
  blank ws = true -> PyStr.rstrip (s +:+ ws) = PyStr.rstrip s.
Proof.
  intros Hws. induction s as [|c r IH].
  - change ("" +:+ ws) with ws. by rewrite rstrip_blank.
  - change (String c r +:+ ws) with (String c (r +:+ ws)).
    cbn [PyStr.rstrip]. by rewrite IH.
Qed.

Lemma strip_padded (l s r : string) :
  blank l = true -> blank r = true ->
  PyStr.strip (l +:+ s +:+ r) = PyStr.strip s.
Proof.
  intros Hl Hr. unfold PyStr.strip. rewrite lstrip_app_blank by done.
  induction s as [|c s' IH].
  - change ("" +:+ r) with r. by rewrite lstrip_blank.
  - change (String c s' +:+ r) with (String c (s' +:+ r)).
    cbn [PyStr.lstrip]. destruct (PyStr.is_space c); [done|].
    change (String c (s' +:+ r)) with (String c s' +:+ r).
    by apply rstrip_app_blank.
Qed.

Section MapChars.
Variable f : ascii -> ascii.
Hypothesis f_space : forall c, PyStr.is_space (f c) = PyStr.is_space c.

Lemma lstrip_map_chars (s : string) :
  PyStr.lstrip (PyStr.map_chars f s) = PyStr.map_chars f (PyStr.lstrip s).
Proof.
  induction s as [|c r IH]; [done|].
  cbn [PyStr.map_chars PyStr.lstrip]. rewrite f_space.
  by destruct (PyStr.is_space c).
Qed.

Lemma rstrip_map_chars (s : string) :
  PyStr.rstrip (PyStr.map_chars f s) = PyStr.map_chars f (PyStr.rstrip s).
Proof.
  induction s as [|c r IH]; [done|].
  cbn [PyStr.map_chars PyStr.rstrip]. rewrite IH, f_space.
  destruct (PyStr.rstrip r); cbn [PyStr.map_chars]; [|done].
  by destruct (PyStr.is_space c).
Qed.

Lemma strip_map_chars (s : string) :
  PyStr.strip (PyStr.map_chars f s) = PyStr.map_chars f (PyStr.strip s).
Proof. unfold PyStr.strip. by rewrite lstrip_map_chars, rstrip_map_chars. Qed.

End MapChars.

Lemma map_chars_compose (f g : ascii -> ascii) (s : string) :
  PyStr.map_chars f (PyStr.map_chars g s) = PyStr.map_chars (fun c => f (g c)) s.
Proof. induction s as [|c r IH]; [done|]. cbn [PyStr.map_chars]. by rewrite IH. Qed.

Lemma map_chars_ext (f g : ascii -> ascii) (s : string) :
  (forall c, f c = g c) -> PyStr.map_chars f s = PyStr.map_chars g s.
Proof.
  intros Hfg. induction s as [|c r IH]; [done|].
  cbn [PyStr.map_chars]. by rewrite IH, Hfg.
Qed.

Lemma map_chars_id (s : string) : PyStr.map_chars (fun c => c) s = s.
Proof. induction s as [|c r IH]; [done|]. cbn [PyStr.map_chars]. by rewrite IH. Qed.

Ltac by_cases_on_char c :=
  destruct c as [[] [] [] [] [] [] [] []]; vm_compute; reflexivity.

Lemma upper_char_space (c : ascii) :
  PyStr.is_space (PyStr.upper_char c) = PyStr.is_space c.
Proof. by_cases_on_char c. Qed.

Lemma lower_char_space (c : ascii) :
  PyStr.is_space (PyStr.lower_char c) = PyStr.is_space c.
Proof. by_cases_on_char c. Qed.

Lemma upper_upper_char (c : ascii) :
  PyStr.upper_char (PyStr.upper_char c) = PyStr.upper_char c.
Proof. by_cases_on_char c. Qed.

Lemma upper_lower_char (c : ascii) :
  PyStr.upper_char (PyStr.lower_char c) = PyStr.upper_char c.
Proof. by_cases_on_char c. Qed.

Lemma lower_lower_char (c : ascii) :
  PyStr.lower_char (PyStr.lower_char c) = PyStr.lower_char c.
Proof. by_cases_on_char c. Qed.

Lemma lower_upper_char (c : ascii) :
  PyStr.lower_char (PyStr.upper_char c) = PyStr.lower_char c.
Proof. by_cases_on_char c. Qed.

(** The three ways a source may write the letters of a field. *)
Definition recasing (f : string -> string) : Prop :=
  f = PyStr.upper \/ f = PyStr.lower \/ f = (fun s => s).

Lemma upper_strip_recased (f : string -> string) (l s r : string) :
  recasing f -> blank l = true -> blank r = true ->
  PyStr.upper (PyStr.strip (l +:+ f s +:+ r)) = PyStr.upper (PyStr.strip s).
Proof.
  intros Hf Hl Hr. rewrite strip_padded by done.
  destruct Hf as [-> | [-> | ->]]; unfold PyStr.upper, PyStr.lower.
  - rewrite strip_map_chars by apply upper_char_space.
    rewrite map_chars_compose. apply map_chars_ext, upper_upper_char.
  - rewrite strip_map_chars by apply lower_char_space.
    rewrite map_chars_compose. apply map_chars_ext, upper_lower_char.
  - done.
Qed.

Lemma lower_strip_recased (f : string -> string) (l s r : string) :
  recasing f -> blank l = true -> blank r = true ->
  PyStr.lower (PyStr.strip (l +:+ f s +:+ r)) = PyStr.lower (PyStr.strip s).
Proof.
  intros Hf Hl Hr. rewrite strip_padded by done.
  destruct Hf as [-> | [-> | ->]]; unfold PyStr.upper, PyStr.lower.
  - rewrite strip_map_chars by apply upper_char_space.
    rewrite map_chars_compose. apply map_chars_ext, lower_upper_char.
  - rewrite strip_map_chars by apply lower_char_space.
    rewrite map_chars_compose. apply map_chars_ext, lower_lower_char.
  - done.
Qed.

Section FingerprintCase.
Context `{Runtime}.

(** X1.  For ASCII patent numbers and titles, writing the letters of either
    field in upper or in lower case and putting whitespace before and after
    it does not change the fingerprint: two records that differ only in this
    way, and in any other field, have the same fingerprint. *)
Theorem X1_fingerprint_ignores_case_and_padding (a b : pyval)
    (n t l1 r1 l2 r2 : string) (recase_n recase_t : string -> string) :
  text_field a "patent_number" = Some n ->
  text_field a "title" = Some t ->
  text_field b "patent_number" = Some (l1 +:+ recase_n n +:+ r1) ->
  text_field b "title" = Some (l2 +:+ recase_t t +:+ r2) ->
  ascii_only n = true -> ascii_only t = true ->
  blank l1 = true -> blank r1 = true -> blank l2 = true -> blank r2 = true ->
  recasing recase_n -> recasing recase_t ->
  _calculate_patent_hash b = _calculate_patent_hash a.
Proof.
  intros Han Hat Hbn Hbt _ _ Hl1 Hr1 Hl2 Hr2 Hfn Hft.
  rewrite (fingerprint_keyed a n t Han Hat).
  rewrite (fingerprint_keyed b _ _ Hbn Hbt).
  unfold normalize_number, normalize_title.
  rewrite upper_strip_recased by done.
  by rewrite lower_strip_recased by done.
Qed.

End FingerprintCase.

(** ** Deduplication: size, order and groups *)

(** The keys that a merge may write. *)
Definition merged_keys : list string :=
  ["source_databases"; "inventors"; "applicants"; "ipc_classes";
   "abstract"; "claims"; "description"; "images"].

Section FirstSeen.
Context `{Runtime}.

(** The loop in plain words: a record joins the list when no record of
    its fingerprint is there yet. *)
Definition keep_first (acc : list pyval) (p : pyval) : list pyval :=
  if decide (_calculate_patent_hash p ∈ _calculate_patent_hash <$> acc)
  then acc else (acc ++ [p])%list.

Definition first_of_each (patents : list pyval) : list pyval :=
  foldl keep_first [] patents.

(** An entry of the output and the record it started from. *)
Definition grown_from (m p : pyval) : Prop :=
  _calculate_patent_hash m = _calculate_patent_hash p
  /\ forall k, k ∉ merged_keys -> field m k = field p k.

Lemma not_merged_key (k : string) :
  k ∉ merged_keys ->
  k <> "source_databases" /\ k <> "inventors" /\ k <> "applicants"
  /\ k <> "ipc_classes" /\ k <> "abstract" /\ k <> "claims"
  /\ k <> "description" /\ k <> "images".
Proof.
  unfold merged_keys. rewrite !not_elem_of_cons. tauto.
Qed.

Lemma list_find_fingerprint (acc : list pyval) (h : string) :
  match list_find (fun a => _calculate_patent_hash a = h) acc with
  | Some (t, a) => acc !! t = Some a /\ _calculate_patent_hash a = h
  | None => h ∉ _calculate_patent_hash <$> acc
  end.
Proof.
  destruct (list_find _ acc) as [[t a]|] eqn:Hlf.
  - by apply list_find_Some in Hlf as (? & ? & _).
  - apply list_find_None in Hlf. intros (a & -> & Ha)%list_elem_of_fmap.
    by apply (proj1 (Forall_forall _ _) Hlf a Ha).
Qed.

Lemma absorb_keep_first (acc firsts : list pyval) (p : pyval) :
  Forall (fun a => record_ok a = true) acc -> record_ok p = true ->
  Forall2 grown_from acc firsts ->
  Forall (fun a => record_ok a = true) (absorb acc p)
  /\ Forall2 grown_from (absorb acc p) (keep_first firsts p).
Proof.
  intros Hacc Hp Hrel.
  assert (_calculate_patent_hash <$> acc = _calculate_patent_hash <$> firsts) as Hfps.
  { clear Hacc. induction Hrel as [|m q acc firsts [Hfp _] _ IH]; [done|].
    cbn [fmap list_fmap]. f_equal; done. }
  unfold absorb, keep_first.
  pose proof (list_find_fingerprint acc (_calculate_patent_hash p)) as Hfind.
  destruct (list_find _ acc) as [[t a]|].
  - destruct Hfind as [Hta Hfp].
    assert (record_ok a = true) as Ha by by apply (proj1 (Forall_lookup _ _) Hacc t a).
    destruct (merge_into_ok a p Ha Hp) as [Hmok Hmfp].
    rewrite decide_True.
    2:{ rewrite <- Hfps, <- Hfp. apply list_elem_of_fmap_2.
        apply list_elem_of_lookup. eauto. }
    split; [by apply Forall_insert|].
    destruct (Forall2_lookup_l _ _ _ t a Hrel Hta) as (q & Hq & Hfq & Hkq).
    rewrite <- (list_insert_id firsts t q Hq).
    apply Forall2_insert; [done|]. split; [congruence|].
    intros k (H1 & H2 & H3 & H4 & H5 & H6 & H7 & H8)%not_merged_key.
    rewrite merge_into_field by done. apply Hkq.
    unfold merged_keys. rewrite !not_elem_of_cons. repeat split; try done.
    apply not_elem_of_nil.
  - rewrite decide_False by (by rewrite <- Hfps).
    split; [apply Forall_app; split; [done|by constructor]|].
    apply Forall2_app; [done|]. constructor; [|constructor]. by split.
Qed.

Lemma fold_keep_first (ps : list pyval) :
  forall acc firsts : list pyval,
  Forall (fun a => record_ok a = true) acc ->
  Forall (fun p => record_ok p = true) ps ->
  Forall2 grown_from acc firsts ->
  Forall2 grown_from (foldl absorb acc ps) (foldl keep_first firsts ps).
Proof.
  induction ps as [|p rest IH]; intros acc firsts Hacc Hps Hrel; [done|].
  apply Forall_cons in Hps as [Hp Hrest]. cbn [foldl].
  destruct (absorb_keep_first acc firsts p Hacc Hp Hrel) as [Hok Hrel'].
  by apply IH.
Qed.

Lemma ascii_records_ok (patents : list pyval) :
  Forall (fun p => ascii_keyed p = true
                   /\ list_field_ok p "source_databases" = true) patents ->
  Forall (fun p => record_ok p = true) patents.
Proof.
  intros Hps. eapply Forall_impl; [exact Hps|]. intros p [Hk Hs].
  unfold record_ok. by rewrite (ascii_keyed_keyed p Hk), Hs.
Qed.

(** X6.  On records whose key fields are ASCII strings and whose sources
    are absent or a list of hashable values, the pass returns one entry per
    distinct fingerprint, in the order in which the fingerprints first occur;
    each entry has the fingerprint of the first record of its group and that
    record's value under every key that a merge does not write. *)
Theorem X6_dedup_first_seen (patents : list pyval) :
  Forall (fun p => ascii_keyed p = true
                   /\ list_field_ok p "source_databases" = true) patents ->
  Forall2 grown_from (_deduplicate_patents patents) (first_of_each patents).
Proof.
  intros Hok%ascii_records_ok. rewrite dedup_is_fold by done.
  apply fold_keep_first; [done|done|constructor].
Qed.

Lemma absorb_ok_distinct (acc : list pyval) (p : pyval) :
  Forall (fun a => record_ok a = true) acc ->
  NoDup (_calculate_patent_hash <$> acc) ->
  record_ok p = true ->
  Forall (fun a => record_ok a = true) (absorb acc p)
  /\ NoDup (_calculate_patent_hash <$> absorb acc p).
Proof.
  intros Hacc Hnd Hp. unfold absorb.
  pose proof (list_find_fingerprint acc (_calculate_patent_hash p)) as Hfind.
  destruct (list_find _ acc) as [[t a]|].
  - destruct Hfind as [Hta Hfp].
    assert (record_ok a = true) as Ha by by apply (proj1 (Forall_lookup _ _) Hacc t a).
    destruct (merge_into_ok a p Ha Hp) as [Hmok Hmfp].
    split; [by apply Forall_insert|].
    rewrite list_fmap_insert, Hmfp, list_insert_id; [done|].
    by rewrite list_lookup_fmap, Hta.
  - split; [apply Forall_app; split; [done|by constructor]|].
    rewrite fmap_app. apply NoDup_app. split; [done|].
    split; [|apply NoDup_singleton].
    intros h Hh ->%list_elem_of_singleton. done.
Qed.

Lemma fold_ok_distinct (ps : list pyval) :
  forall acc : list pyval,
  Forall (fun a => record_ok a = true) acc ->
  NoDup (_calculate_patent_hash <$> acc) ->
  Forall (fun p => record_ok p = true) ps ->
  Forall (fun a => record_ok a = true) (foldl absorb acc ps)
  /\ NoDup (_calculate_patent_hash <$> foldl absorb acc ps).
Proof.
  induction ps as [|p rest IH]; intros acc Hacc Hnd Hps; [done|].
  apply Forall_cons in Hps as [Hp Hrest]. cbn [foldl].
  destruct (absorb_ok_distinct acc p Hacc Hnd Hp) as [Hacc' Hnd'].
  by apply IH.
Qed.

Lemma merge_into_ascii (a p : pyval) :
  record_ok a = true -> record_ok p = true ->
  ascii_keyed (merge_into a p) = ascii_keyed a.
Proof.
  intros Ha Hp.
  destruct (merge_into_ok a p Ha Hp) as [Hok _].
  assert (is_dict (merge_into a p) = is_dict a) as Hd.
  { destruct (record_ok_fields _ Hok) as (_ & _ & d & ->).
    by destruct (record_ok_fields a Ha) as (_ & _ & d' & ->). }
  unfold ascii_keyed.
  rewrite (text_field_field (merge_into a p) a "patent_number"), 
    (text_field_field (merge_into a p) a "title"); try done;
    by apply merge_into_field.
Qed.

Lemma absorb_ascii (acc : list pyval) (p : pyval) :
  Forall (fun a => record_ok a = true) acc -> record_ok p = true ->
  Forall (fun a => ascii_keyed a = true) acc -> ascii_keyed p = true ->
  Forall (fun a => ascii_keyed a = true) (absorb acc p).
Proof.
  intros Hok Hp Hacc Hkp. unfold absorb.
  pose proof (list_find_fingerprint acc (_calculate_patent_hash p)) as Hfind.
  destruct (list_find _ acc) as [[t a]|].
  - destruct Hfind as [Hta _]. apply Forall_insert; [done|].
    rewrite merge_into_ascii; [|by apply (proj1 (Forall_lookup _ _) Hok t a)|done].
    by apply (proj1 (Forall_lookup _ _) Hacc t a).
  - apply Forall_app. split; [done|]. by constructor.
Qed.

Lemma fold_ascii (ps : list pyval) :
  forall acc : list pyval,
  Forall (fun a => record_ok a = true) acc ->
  NoDup (_calculate_patent_hash <$> acc) ->
  Forall (fun p => record_ok p = true) ps ->
  Forall (fun a => ascii_keyed a = true) acc ->
  Forall (fun p => ascii_keyed p = true) ps ->
  Forall (fun a => ascii_keyed a = true) (foldl absorb acc ps).
Proof.
  induction ps as [|p rest IH]; intros acc Hok Hnd Hps Hacc Hkps; [done|].
  apply Forall_cons in Hps as [Hp Hrest].
  apply Forall_cons in Hkps as [Hkp Hkrest]. cbn [foldl].
  destruct (absorb_ok_distinct acc p Hok Hnd Hp) as [Hok' Hnd'].
  apply IH; try done. by apply absorb_ascii.
Qed.

(** X7.  On such records the output has pairwise distinct fingerprints and
    consists of such records again, and a second pass over the output
    returns it unchanged. *)
Theorem X7_dedup_fixpoint (patents : list pyval) :
  Forall (fun p => ascii_keyed p = true
                   /\ list_field_ok p "source_databases" = true) patents ->
  NoDup (_calculate_patent_hash <$> _deduplicate_patents patents)
  /\ Forall (fun p => ascii_keyed p = true
                      /\ list_field_ok p "source_databases" = true)
       (_deduplicate_patents patents)
  /\ _deduplicate_patents (_deduplicate_patents patents)
     = _deduplicate_patents patents.
Proof.
  intros Hascii. pose proof (ascii_records_ok patents Hascii) as Hok.
  destruct (fold_ok_distinct patents [] (Forall_nil_2 _) (NoDup_nil_2) Hok)
    as [Hout Hnd].
  assert (Forall (fun p => ascii_keyed p = true) (foldl absorb [] patents)) as Hkeys.
  { apply fold_ascii; try done; [apply NoDup_nil_2|].
    eapply Forall_impl; [exact Hascii|]. by intros p [Hk _]. }
  rewrite (dedup_is_fold patents Hok).
  split; [done|]. split.
  { apply Forall_forall. intros p Hp. split.
    - by apply (proj1 (Forall_forall _ _) Hkeys).
    - pose proof (proj1 (Forall_forall _ _) Hout p Hp) as Hr.
      unfold record_ok in Hr. by apply andb_true_iff in Hr as [_ ?]. }
  rewrite dedup_is_fold by done.
  rewrite (fold_fresh (foldl absorb [] patents) []); [done|done|].
  intros a p Ha. by apply elem_of_nil in Ha.
Qed.

(** X5.  Whatever the records are, the pass returns at most as many
    entries as it was given, and none exactly when it was given none. *)
Theorem X5_dedup_bounded (patents : list pyval) :
  (length (_deduplicate_patents patents) <= length patents)%nat
  /\ (_deduplicate_patents patents = [] <-> patents = []).
Proof.
  destruct (dedup_length patents) as [Hle Hne]. split; [done|]. split.
  - intros Hnil. destruct patents as [|p rest]; [done|].
    exfalso. by apply Hne.
  - by intros ->.
Qed.

(** X9.  A value that is not a dictionary, met a second time, makes the
    merge of the two raise; the pass then gives back the list it was given,
    duplicates included. *)
Theorem X9_dedup_gives_up (x : pyval) (rest : list pyval) :
  is_dict x = false ->
  _deduplicate_patents (x :: x :: rest) = x :: x :: rest.
Proof.
  intros Hx. unfold _deduplicate_patents. cbn [dedup_loop].
  unfold dedup_step at 1. cbn [seen_hashes].
  rewrite bool_decide_eq_false_2 by apply not_elem_of_empty.
  cbn [store deduplicated seen_hashes app].
  unfold dedup_step at 1. cbn [seen_hashes].
  rewrite bool_decide_eq_true_2 by set_solver.
  unfold find_existing. cbn [deduplicated store List.find lookup list_lookup].
  rewrite String.eqb_refl. cbn [lookup list_lookup].
  destruct x; done.
Qed.

End FirstSeen.

(** ** What an entry of the output gathers *)

Section Groups.
Context `{Runtime}.

(** The invariant of the fold for one multi-valued key [k], on records
    satisfying [good]: the fingerprints of the entries are distinct and are
    those of the records seen, and an entry holds under [k] the members that
    the seen records of its fingerprint hold. *)
Variable good : pyval -> Prop.
Variable k : string.
Hypothesis good_ok : forall a, good a -> record_ok a = true.
Hypothesis good_merge : forall a p, good a -> good p ->
  good (merge_into a p)
  /\ forall x, x ∈ elements (merge_into a p) k
               <-> x ∈ elements a k \/ x ∈ elements p k.

Definition gathers (acc seen : list pyval) : Prop :=
  Forall good acc
  /\ NoDup (_calculate_patent_hash <$> acc)
  /\ (forall q, q ∈ seen ->
        _calculate_patent_hash q ∈ _calculate_patent_hash <$> acc)
  /\ (forall m, m ∈ acc -> forall x,
        x ∈ elements m k
        <-> exists q, q ∈ seen
                      /\ _calculate_patent_hash q = _calculate_patent_hash m
                      /\ x ∈ elements q k).

Lemma absorb_gathers (acc seen : list pyval) (p : pyval) :
  gathers acc seen -> good p -> gathers (absorb acc p) (seen ++ [p]).
Proof.
  intros (Hacc & Hnd & Hseen & Hmem) Hp. unfold absorb.
  pose proof (list_find_fingerprint acc (_calculate_patent_hash p)) as Hfind.
  destruct (list_find _ acc) as [[t a]|].
  - destruct Hfind as [Hta Hfp].
    assert (good a) as Ha by by apply (proj1 (Forall_lookup _ _) Hacc t a).
    destruct (good_merge a p Ha Hp) as [Hgm Hel].
    destruct (merge_into_ok a p (good_ok a Ha) (good_ok p Hp)) as [_ Hmfp].
    assert (_calculate_patent_hash <$> <[t := merge_into a p]> acc
            = _calculate_patent_hash <$> acc) as Hfps.
    { rewrite list_fmap_insert, Hmfp, list_insert_id; [done|].
      by rewrite list_lookup_fmap, Hta. }
    split; [by apply Forall_insert|]. split; [by rewrite Hfps|]. split.
    + intros q [Hq | ->%list_elem_of_singleton]%elem_of_app; rewrite Hfps.
      * by apply Hseen.
      * rewrite <- Hfp. apply list_elem_of_fmap_2, list_elem_of_lookup. eauto.
    + intros m [t' Ht']%list_elem_of_lookup x.
      destruct (decide (t' = t)) as [->|Hne].
      * rewrite list_lookup_insert_eq in Ht' by (by apply lookup_lt_Some in Hta).
        injection Ht' as <-. rewrite Hel, Hmfp.
        rewrite (Hmem a) by (apply list_elem_of_lookup; eauto). split.
        -- intros [(q & Hq & Hfq & Hx) | Hx].
           ++ exists q. split; [apply elem_of_app; by left|done].
           ++ exists p. split; [apply elem_of_app; right; by left|done].
        -- intros (q & [Hq | ->%list_elem_of_singleton]%elem_of_app & Hfq & Hx).
           ++ left. eauto.
           ++ by right.
      * rewrite list_lookup_insert_ne in Ht' by done.
        rewrite (Hmem m) by (apply list_elem_of_lookup; eauto). split.
        -- intros (q & Hq & Hfq & Hx). exists q.
           split; [apply elem_of_app; by left|done].
        -- intros (q & [Hq | ->%list_elem_of_singleton]%elem_of_app & Hfq & Hx).
           ++ eauto.
           ++ exfalso. apply Hne.
              apply (NoDup_lookup (_calculate_patent_hash <$> acc) t' t
                       (_calculate_patent_hash m)); [done| |].
              ** by rewrite list_lookup_fmap, Ht'.
              ** rewrite list_lookup_fmap, Hta. cbn. congruence.
  - split; [apply Forall_app; split; [done|by constructor]|]. split.
    { rewrite fmap_app. apply NoDup_app. split; [done|].
      split; [|apply NoDup_singleton].
      intros h Hh ->%list_elem_of_singleton. done. }
    split.
    + intros q Hq. rewrite fmap_app. apply elem_of_app.
      apply elem_of_app in Hq as [Hq | ->%list_elem_of_singleton].
      * left. by apply Hseen.
      * right. by left.
    + intros m [Hm | ->%list_elem_of_singleton]%elem_of_app x.
      * rewrite (Hmem m Hm). split.
        -- intros (q & Hq & Hfq & Hx). exists q.
           split; [apply elem_of_app; by left|done].
        -- intros (q & [Hq | ->%list_elem_of_singleton]%elem_of_app & Hfq & Hx).
           ++ eauto.
           ++ exfalso. apply Hfind. rewrite Hfq. by apply list_elem_of_fmap_2.
      * split.
        -- intros Hx. exists p. split; [apply elem_of_app; right; by left|done].
        -- intros (q & [Hq | ->%list_elem_of_singleton]%elem_of_app & Hfq & Hx).
           ++ exfalso. apply Hfind. rewrite <- Hfq. by apply Hseen.
           ++ done.
Qed.

Lemma fold_gathers (ps : list pyval) :
  forall acc seen : list pyval,
  gathers acc seen -> Forall good ps ->
  gathers (foldl absorb acc ps) (seen ++ ps).
Proof.
  induction ps as [|p rest IH]; intros acc seen Hg Hps.
  - by rewrite app_nil_r.
  - apply Forall_cons in Hps as [Hp Hrest]. cbn [foldl].
    replace (seen ++ p :: rest)%list with ((seen ++ [p]) ++ rest)%list
      by (by rewrite <- app_assoc).
    apply IH; [|done]. by apply absorb_gathers.
Qed.

Lemma dedup_gathers (patents : list pyval) :
  Forall good patents -> gathers (_deduplicate_patents patents) patents.
Proof.
  intros Hps. rewrite dedup_is_fold.
  2:{ eapply Forall_impl; [exact Hps|]. exact good_ok. }
  apply (fold_gathers patents [] []); [|done].
  split; [done|]. split; [apply NoDup_nil_2|]. split.
  - intros q Hq. by apply elem_of_nil in Hq.
  - intros m Hm. by apply elem_of_nil in Hm.
Qed.

End Groups.

Section GroupFacts.
Context `{Runtime}.

Lemma elements_fill_ne (k k' : string) (d : list (string * pyval)) (n : pyval) :
  k <> k' -> elements (PDict (fill_field k d n)) k' = elements (PDict d) k'.
Proof. intros Hne. unfold elements. by rewrite field_fill_ne. Qed.

Lemma elements_union_eq (k : string) (d : list (string * pyval)) (n : pyval) :
  elements (PDict (union_field k d n)) k
  = set_to_list (elements (PDict d) k ++ elements n k).
Proof. apply elements_set_eq. Qed.

Lemma elements_union_ne (k k' : string) (d : list (string * pyval)) (n : pyval) :
  k <> k' -> elements (PDict (union_field k d n)) k' = elements (PDict d) k'.
Proof. apply elements_set_ne. Qed.

(** The members of a multi-valued field after a merge of typed records. *)
Lemma elements_merged (d : list (string * pyval)) (n : pyval) (k : string) :
  k = "inventors" \/ k = "applicants" \/ k = "ipc_classes" \/ k = "images" ->
  elements (PDict (merged_dict d n)) k
  = set_to_list (elements (PDict d) k ++ elements n k).
Proof.
  unfold merged_dict.
  intros [-> | [-> | [-> | ->]]];
    repeat first [ rewrite elements_union_eq
                 | rewrite elements_union_ne by done
                 | rewrite elements_fill_ne by done ];
    reflexivity.
Qed.

Lemma elements_merge_into (a p : pyval) (k : string) :
  well_typed a = true -> keyed a = true ->
  well_typed p = true -> keyed p = true ->
  k ∈ set_fields ->
  elements (merge_into a p) k = set_to_list (elements a k ++ elements p k).
Proof.
  intros Hta Hka Htp Hkp Hk.
  pose proof (well_typed_record_ok _ Hta Hka) as Hoa.
  pose proof (well_typed_record_ok _ Htp Hkp) as Hop.
  destruct (record_ok_fields a Hoa) as (_ & _ & d & ->).
  destruct (record_ok_fields p Hop) as (_ & Hsp & dp & ->).
  destruct (merge_into_typed d (PDict dp) Hoa Hop) as [_ ->].
  rewrite merge_patent_info_typed by (by try apply well_typed_union_sources).
  revert Hk. unfold set_fields. rewrite !elem_of_cons, elem_of_nil.
  intros [-> | [-> | [-> | [-> | [-> | []]]]]].
  - unfold merged_dict.
    repeat first [ rewrite elements_union_ne by done
                 | rewrite elements_fill_ne by done ].
    apply elements_union_eq.
  - rewrite elements_merged by auto. by rewrite elements_union_ne.
  - rewrite elements_merged by auto. by rewrite elements_union_ne.
  - rewrite elements_merged by auto. by rewrite elements_union_ne.
  - rewrite elements_merged by auto. by rewrite elements_union_ne.
Qed.

(** X8.  On records of the data model with ASCII key fields, every entry
    of the output holds, under each multi-valued key, exactly the members
    that the input records of its fingerprint hold under that key: nothing
    is lost and nothing comes from a record of another fingerprint. *)
Theorem X8_dedup_gathers_groups (patents : list pyval) (k : string) (m x : pyval) :
  Forall (fun p => well_typed p = true /\ ascii_keyed p = true) patents ->
  k ∈ set_fields ->
  m ∈ _deduplicate_patents patents ->
  x ∈ elements m k
  <-> exists p, p ∈ patents
                /\ _calculate_patent_hash p = _calculate_patent_hash m
                /\ x ∈ elements p k.
Proof.
  intros Hascii Hk Hm.
  assert (Forall (fun p => well_typed p = true /\ keyed p = true) patents) as Hty.
  { eapply Forall_impl; [exact Hascii|]. intros p [Ht Hkp].
    split; [done|]. by apply ascii_keyed_keyed. }
  destruct (dedup_gathers (fun p => well_typed p = true /\ keyed p = true) k)
    with (patents := patents) as (_ & _ & _ & Hmem); [| |done|by apply Hmem].
  - intros a [Ht Hka]. by apply well_typed_record_ok.
  - intros a p [Hta Hka] [Htp Hkp]. split.
    + split; [by apply well_typed_merge_into|].
      destruct (merge_into_ok a p) as [Hok _];
        [by apply well_typed_record_ok|by apply well_typed_record_ok|].
      unfold record_ok in Hok. by apply andb_true_iff in Hok as [? _].
    + intros y. rewrite elements_merge_into by done.
      by rewrite set_to_list_elem, elem_of_app.
Qed.

End GroupFacts.

(** ** What a merge leaves alone and what it gathers *)



Section MergeMore.
Context `{Runtime}.


(** X3.  Between two records of the data model, the merge leaves under
    each of [inventors], [applicants], [ipc_classes] and [images] exactly the
    members of the two records, each once, and returns a record of the data
    model. *)
Theorem X3_merge_info_unions (existing new : pyval) (k : string) :
  well_typed existing = true -> well_typed new = true ->
  k = "inventors" \/ k = "applicants" \/ k = "ipc_classes" \/ k = "images" ->
  (forall x, x ∈ elements (_merge_patent_info existing new) k
             <-> x ∈ elements existing k \/ x ∈ elements new k)
  /\ NoDup (elements (_merge_patent_info existing new) k)
  /\ well_typed (_merge_patent_info existing new) = true.
Proof.
  intros Hte Htn Hk.
  destruct (well_typed_fields _ Hte) as [Hd _].
  destruct (well_typed_fields _ Htn) as [Hdn _].
  destruct existing as [| | | |d]; try done.
  destruct new as [| | | |dn]; try done.
  rewrite merge_patent_info_typed by done.
  rewrite elements_merged by done.
  split; [|split].
  - intros x. by rewrite set_to_list_elem, elem_of_app.
  - apply set_to_list_NoDup.
  - by apply well_typed_merged.
Qed.

End MergeMore.

(** ** The ids of the map a strategy returns *)

(** The ids of a list in the order in which they first occur. *)
Definition note_id (ids : list string) (db : string) : list string :=
  if decide (db ∈ ids) then ids else (ids ++ [db])%list.

Definition distinct_ids (dbs : list string) : list string := foldl note_id [] dbs.

Lemma dict_set_keys (k : string) (v : pyval) (d : list (string * pyval)) :
  (dict_set k v d).*1 = note_id d.*1 k.
Proof.
  unfold note_id. induction d as [|[k' v'] r IH]; cbn [dict_set].
  - rewrite decide_False; [done|apply not_elem_of_nil].
  - destruct (String.eqb k k') eqn:E.
    + apply String.eqb_eq in E as ->. cbn [fmap list_fmap fst].
      rewrite decide_True; [done|by left].
    + apply String.eqb_neq in E. cbn [fmap list_fmap fst]. rewrite IH.
      destruct (decide (k ∈ r.*1)) as [Hin|Hnin].
      * rewrite decide_True; [done|by right].
      * rewrite decide_False; [done|]. by intros [?|?]%elem_of_cons.
Qed.

Lemma fold_set_keys (f : string -> pyval) (dbs : list string) :
  forall r0 : list (string * pyval),
  (fold_left (fun r db => dict_set db (f db) r) dbs r0).*1 = foldl note_id r0.*1 dbs.
Proof.
  induction dbs as [|db rest IH]; intros r0; [done|].
  cbn [fold_left foldl]. by rewrite IH, dict_set_keys.
Qed.

Lemma note_id_NoDup (ids : list string) (db : string) :
  NoDup ids -> NoDup (note_id ids db).
Proof.
  intros Hnd. unfold note_id. destruct (decide (db ∈ ids)); [done|].
  apply NoDup_app. split; [done|]. split; [|apply NoDup_singleton].
  by intros x Hx ->%list_elem_of_singleton.
Qed.

Lemma fold_note_id (dbs : list string) :
  forall ids : list string,
  NoDup ids ->
  NoDup (foldl note_id ids dbs)
  /\ forall db, db ∈ foldl note_id ids dbs <-> db ∈ ids \/ db ∈ dbs.
Proof.
  induction dbs as [|d rest IH]; intros ids Hnd; cbn [foldl].
  - split; [done|]. intros db. rewrite elem_of_nil. tauto.
  - destruct (IH (note_id ids d) (note_id_NoDup ids d Hnd)) as [Hnd' Hmem].
    split; [done|]. intros db. rewrite Hmem, elem_of_cons. unfold note_id.
    destruct (decide (d ∈ ids)) as [Hin|Hnin].
    + split; [tauto|]. intros [?|[->|?]]; tauto.
    + rewrite elem_of_app, list_elem_of_singleton. tauto.
Qed.

Lemma dict_get_keys (d : list (string * pyval)) (k : string) :
  is_Some (dict_get d k) <-> k ∈ d.*1.
Proof.
  induction d as [|[k' v'] r IH]; cbn [dict_get fmap list_fmap fst].
  - rewrite elem_of_nil. split; [by intros [? ?]|done].
  - destruct (String.eqb k k') eqn:E.
    + apply String.eqb_eq in E as ->. split; [by left|by eexists].
    + apply String.eqb_neq in E. rewrite IH, elem_of_cons. tauto.
Qed.

Lemma dict_get_NoDup (d : list (string * pyval)) (k : string) (v : pyval) :
  NoDup d.*1 -> (k, v) ∈ d <-> dict_get d k = Some v.
Proof.
  intros Hnd. split; [|apply dict_get_elem].
  induction d as [|[k' v'] r IH]; [by intros ?%elem_of_nil|].
  cbn [fmap list_fmap fst] in Hnd. apply NoDup_cons in Hnd as [Hk' Hnd].
  cbn [dict_get]. intros [[= -> ->] | Hin]%elem_of_cons.
  - by rewrite String.eqb_refl.
  - destruct (String.eqb k k') eqn:E; [|by apply IH].
    apply String.eqb_eq in E as ->. exfalso. apply Hk'.
    by apply (list_elem_of_fmap_2 fst r (k', v)).
Qed.

(** Two maps with distinct keys and the same lookups hold the same
    entries. *)
Lemma dict_Permutation (d e : list (string * pyval)) :
  NoDup d.*1 -> NoDup e.*1 ->
  (forall k, dict_get d k = dict_get e k) -> d ≡ₚ e.
Proof.
  intros Hd He Hget. apply NoDup_Permutation.
  - by apply (NoDup_fmap_1 fst).
  - by apply (NoDup_fmap_1 fst).
  - intros [k v]. by rewrite !dict_get_NoDup, Hget.
Qed.

Section StrategyMore.
Context `{Runtime}.
Variable bots : gmap string bot.
Variable query : Query.

(** X13.  The sequential strategy returns a map with one entry for each
    requested id, registered or not, in the order in which the ids are first
    requested; an id requested twice has one entry. *)
Theorem X13_sequential_map_ids (dbs : list string) (log : list string) :
  exists m log',
    _search_sequential bots query dbs log = (Ok m, log')
    /\ m.*1 = distinct_ids dbs
    /\ NoDup m.*1
    /\ forall db, is_Some (dict_get m db) <-> db ∈ dbs.
Proof.
  destruct (search_sequential_results bots query dbs log) as (log' & Hs).
  eexists _, log'. split; [exact Hs|].
  rewrite fold_set_keys. cbn [fmap list_fmap].
  destruct (fold_note_id dbs [] (NoDup_nil_2)) as [Hnd Hmem].
  split; [done|]. split; [done|]. intros db.
  rewrite dict_get_keys, fold_set_keys. cbn [fmap list_fmap].
  rewrite Hmem, elem_of_nil. tauto.
Qed.

(** X14.  The parallel strategy, given at least one id, returns a map with
    one entry for each requested id that is registered and none for any
    other id. *)
Theorem X14_parallel_map_ids (dbs : list string) (log : list string) :
  dbs <> [] ->
  exists m log',
    _search_parallel bots query dbs log = (Ok m, log')
    /\ NoDup m.*1
    /\ forall db, is_Some (dict_get m db) <-> db ∈ dbs /\ is_Some (bots !! db).
Proof.
  intros Hne.
  destruct (search_parallel_results bots query dbs log Hne) as (log' & Hs & _).
  eexists _, log'. split; [exact Hs|].
  destruct (fold_note_id
              (as_completed (filter (fun db => is_Some (bots !! db)) dbs)) []
              (NoDup_nil_2)) as [Hnd Hmem].
  rewrite fold_set_keys. cbn [fmap list_fmap]. split; [done|]. intros db.
  rewrite dict_get_keys, fold_set_keys. cbn [fmap list_fmap].
  rewrite Hmem, elem_of_nil, as_completed_elem, list_elem_of_filter. tauto.
Qed.

(** X15.  When every requested id is registered and at least one id is
    requested, the two strategies return the same entries: each id has the
    same entry in both maps, and the maps differ at most in the order of their
    entries.  (A backend is taken to answer a query the same way each time.) *)
Theorem X15_strategies_agree (dbs : list string) (log : list string) :
  dbs <> [] ->
  Forall (fun db => is_Some (bots !! db)) dbs ->
  exists mp lp ms ls,
    _search_parallel bots query dbs log = (Ok mp, lp)
    /\ _search_sequential bots query dbs log = (Ok ms, ls)
    /\ (forall db, dict_get mp db = dict_get ms db)
    /\ mp ≡ₚ ms.
Proof.
  intros Hne Hreg.
  destruct (search_parallel_results bots query dbs log Hne) as (lp & Hp & _).
  destruct (search_sequential_results bots query dbs log) as (ls & Hs).
  eexists _, lp, _, ls. split; [exact Hp|]. split; [exact Hs|].
  assert (forall db,
            dict_get (fold_left (fun r db => dict_set db (parallel_entry bots query db) r)
                        (as_completed (filter (fun db => is_Some (bots !! db)) dbs)) []) db
            = dict_get (fold_left (fun r db => dict_set db (sequential_entry bots query db) r)
                          dbs []) db) as Hget.
  { intros db. rewrite !dict_get_fold_set.
    destruct (decide (db ∈ dbs)) as [Hin|Hnin].
    - pose proof (proj1 (Forall_forall _ _) Hreg db Hin) as [b Hb].
      rewrite decide_True.
      2:{ apply as_completed_elem, list_elem_of_filter. split; [by eexists|done]. }
      unfold parallel_entry, sequential_entry, _search_single_database, bot in *.
      by rewrite Hb.
    - rewrite decide_False; [done|].
      by intros [_ ?]%as_completed_elem%list_elem_of_filter. }
  split; [done|].
  apply dict_Permutation; [| |done]; rewrite fold_set_keys;
    apply fold_note_id, NoDup_nil_2.
Qed.

(** X16.  Under either strategy, a requested backend that returns a
    dictionary has that dictionary as its entry, unchanged; one that returns
    anything else has a failed entry whose error is that of the missing
    [get]. *)
Theorem X16_backend_value_recorded (dbs : list string) (log : list string)
    (parallel : bool) (db : string) (b : bot) (v : pyval) :
  bots !! db = Some b -> b query = Ok v -> db ∈ dbs ->
  exists m log',
    (if parallel then _search_parallel bots query dbs log
     else _search_sequential bots query dbs log) = (Ok m, log')
    /\ dict_get m db
       = Some (if is_dict v then v
               else failed_result
                      ("'" +:+ type_name v +:+ "' object has no attribute 'get'")).
Proof.
  intros Hb Hv Hin.
  assert (outcome_entry (b query)
          = if is_dict v then v
            else failed_result
                   ("'" +:+ type_name v +:+ "' object has no attribute 'get'")) as Hentry.
  { rewrite Hv. by destruct v. }
  destruct parallel.
  - assert (dbs <> []) as Hne by (intros ->; by apply elem_of_nil in Hin).
    destruct (search_parallel_results bots query dbs log Hne) as (log' & Hp & _).
    eexists _, log'. split; [exact Hp|].
    rewrite dict_get_fold_set, decide_True.
    + unfold parallel_entry, _search_single_database, bot in *.
      by rewrite Hb, Hentry.
    + apply as_completed_elem, list_elem_of_filter. split; [by eexists|done].
  - destruct (search_sequential_results bots query dbs log) as (log' & Hs).
    eexists _, log'. split; [exact Hs|].
    rewrite dict_get_fold_set, decide_True by done.
    unfold sequential_entry, bot in *. by rewrite Hb, Hentry.
Qed.

End StrategyMore.

(** ** The merge step over a map of backend results *)

(** [db_result.get("status") == "completed"] *)
Definition is_completed (res : pyval) : bool :=
  match py_get1 res "status" with
  | Ok status => pyval_eqb status (PStr "completed")
  | Raise _ => false
  end.

Lemma collect_patents_completed (results : list (string * pyval)) :
  Forall (fun kv => is_dict kv.2 = true) results ->
  collect_patents (filter (fun kv => is_completed kv.2 = true) results)
  = collect_patents results.
Proof.
  induction 1 as [|[db res] rest Hres Hrest IH]; [done|].
  cbn [snd] in Hres. destruct res as [| | | |d]; try done.
  rewrite filter_cons. cbn [snd].
  destruct (decide (is_completed (PDict d) = true)) as [Hc|Hc].
  - cbn [collect_patents]. by rewrite IH.
  - cbn [collect_patents]. rewrite IH.
    assert (collect_result db (PDict d) = Ok []) as ->.
    { unfold is_completed, py_get1 in Hc. unfold collect_result, py_get1.
      cbn [py_get mbind result_bind] in *.
      by destruct (pyval_eqb _ (PStr "completed")). }
    cbn [mbind result_bind]. by destruct (collect_patents rest).
Qed.

Lemma wf_collect_from (results : list (string * pyval)) (all_patents : list pyval)
    (x : pyval) :
  Forall (fun kv => wf_backend kv.2 = true) results ->
  collect_patents results = Ok all_patents ->
  x ∈ all_patents ->
  exists db d l p,
    (db, PDict d) ∈ results
    /\ dict_get d "status" = Some (PStr "completed")
    /\ dict_get d "results" = Some (PList l)
    /\ p ∈ l /\ keyed p = true /\ x = tagged db p.
Proof.
  intros Hwf. revert all_patents.
  induction Hwf as [|[db res] rest Hres Hrest IH]; intros all_patents.
  - cbn [collect_patents]. intros [= <-] Hx. by apply elem_of_nil in Hx.
  - cbn [snd] in Hres. destruct res as [| | | |d]; try done.
    cbn [wf_backend] in Hres. apply andb_true_iff in Hres as [Hr _].
    cbn [collect_patents].
    destruct (collect_result db (PDict d)) as [here|] eqn:Hhere; [|done].
    cbn [mbind result_bind].
    destruct (collect_patents rest) as [there|]; [|done]. cbn [mbind result_bind].
    intros [= <-] [Hx | Hx]%elem_of_app.
    + unfold collect_result, py_get1 in Hhere. cbn [py_get mbind result_bind] in Hhere.
      destruct (dict_get d "status") as [status|] eqn:Hst; cbn in Hhere.
      2:{ injection Hhere as <-. by apply elem_of_nil in Hx. }
      destruct (pyval_eqb status (PStr "completed")) eqn:Hc.
      2:{ injection Hhere as <-. by apply elem_of_nil in Hx. }
      apply pyval_eqb_spec in Hc as ->.
      destruct (dict_get d "results") as [[| | |l|]|] eqn:Hl; try done.
      * cbn [py_iter mbind result_bind] in Hhere.
        rewrite (tag_records_keyed db l Hr) in Hhere. injection Hhere as <-.
        apply list_elem_of_fmap in Hx as (p & -> & Hp).
        exists db, d, l, p. split; [by left|]. repeat split; try done.
        apply (proj1 (forallb_forall _ _) Hr). by apply list_elem_of_In.
      * cbn [py_iter mbind result_bind tag_records] in Hhere.
        injection Hhere as <-. by apply elem_of_nil in Hx.
    + destruct (IH there eq_refl Hx) as (db' & d' & l & p & Hin & ?).
      exists db', d', l, p. split; [by right|done].
Qed.

Section MergeStepMore.
Context `{Runtime}.

(** X10.  Over a map whose entries are dictionaries, the entries whose
    status is not [completed] contribute nothing: the merge step returns the
    same records and the same log as on the map without them. *)
Theorem X10_merge_ignores_failed (results : list (string * pyval)) (log : list string) :
  Forall (fun kv => is_dict kv.2 = true) results ->
  _merge_and_deduplicate_results
    (filter (fun kv => is_completed kv.2 = true) results) log
  = _merge_and_deduplicate_results results log.
Proof.
  intros Hd. unfold _merge_and_deduplicate_results.
  by rewrite collect_patents_completed.
Qed.

Lemma merge_into_sources_members (a p : pyval) :
  record_ok a = true -> record_ok p = true ->
  record_ok (merge_into a p) = true
  /\ forall x, x ∈ elements (merge_into a p) "source_databases"
               <-> x ∈ elements a "source_databases"
                   \/ x ∈ elements p "source_databases".
Proof.
  intros Ha Hp. destruct (merge_into_ok a p Ha Hp) as [Hok _].
  split; [done|]. intros x.
  unfold elements at 1. rewrite merge_into_sources by done.
  by rewrite set_to_list_elem, elem_of_app.
Qed.

(** X11.  Over backend results of the interface whose records have ASCII
    key fields, the sources of a merged record are exactly the ids of the
    completed entries that hold a record of its fingerprint: every such id is
    listed, and nothing else is, whatever [source_databases] the backends
    delivered. *)
Theorem X11_merged_sources_exact (results : list (string * pyval)) (log : list string)
    (m y : pyval) :
  Forall (fun kv => ascii_backend kv.2 = true) results ->
  m ∈ (_merge_and_deduplicate_results results log).1 ->
  y ∈ elements m "source_databases"
  <-> exists db d l p,
        (db, PDict d) ∈ results
        /\ dict_get d "status" = Some (PStr "completed")
        /\ dict_get d "results" = Some (PList l)
        /\ p ∈ l
        /\ _calculate_patent_hash p = _calculate_patent_hash m
        /\ y = PStr db.
Proof.
  intros Hascii.
  assert (Forall (fun kv => wf_backend kv.2 = true) results) as Hwf.
  { eapply Forall_impl; [exact Hascii|]. intros kv. apply ascii_backend_wf. }
  destruct (wf_collect results Hwf) as (all_patents & Hall & Hok & Hto).
  unfold _merge_and_deduplicate_results. rewrite Hall. cbn [fst]. intros Hm.
  destruct (dedup_gathers (fun p => record_ok p = true) "source_databases")
    with (patents := all_patents) as (_ & _ & _ & Hmem);
    [done|exact merge_into_sources_members|done|].
  rewrite (Hmem m Hm). split.
  - intros (x & Hx & Hfp & Hy).
    destruct (wf_collect_from results all_patents x Hwf Hall Hx)
      as (db & d & l & p & Hin & Hst & Hl & Hp & Hk & ->).
    destruct (tagged_ok db p Hk) as (_ & Hfp' & Hel).
    rewrite Hel in Hy. apply list_elem_of_singleton in Hy.
    exists db, d, l, p. repeat split; try done. congruence.
  - intros (db & d & l & p & Hin & Hst & Hl & Hp & Hfp & ->).
    assert (keyed p = true) as Hk.
    { pose proof (proj1 (Forall_forall _ _) Hwf _ Hin) as Hw.
      cbn [snd wf_backend] in Hw. rewrite Hl in Hw.
      apply andb_true_iff in Hw as [Hw _].
      apply (proj1 (forallb_forall _ _) Hw). by apply list_elem_of_In. }
    destruct (tagged_ok db p Hk) as (_ & Hfp' & Hel).
    exists (tagged db p). split; [by apply (Hto db d l p)|].
    split; [congruence|]. rewrite Hel. by left.
Qed.

End MergeStepMore.

(** ** Runs: the log and the counts *)

Lemma count_by_db_total (results : list (string * pyval)) (by_db : list (string * nat)) :
  count_by_db results = Ok by_db ->
  by_db.*1 = results.*1 /\ total_original results = Ok (sum_list by_db.*2).
Proof.
  revert by_db. induction results as [|[db res] rest IH]; intros by_db;
    cbn [count_by_db total_original].
  - by intros [= <-].
  - destruct (py_get res "results" (PList [])) as [r|]; [|done].
    cbn [mbind result_bind].
    destruct (py_len r) as [n|]; [|done]. cbn [mbind result_bind].
    destruct (count_by_db rest) as [m|]; [|done]. cbn [mbind result_bind].
    intros [= <-]. destruct (IH m eq_refl) as [Hk ->].
    cbn [mbind result_bind fmap list_fmap fst snd sum_list sum_list_with].
    split; [|done]. by f_equal.
Qed.

Section Logs.
Context `{Runtime}.
Variable bots : gmap string bot.
Variable query : Query.

Lemma record_outcome_log (db : string) (o : result pyval)
    (acc : list (string * pyval) * list string) :
  exists line, (record_outcome db o acc).2 = (acc.2 ++ [line])%list.
Proof.
  destruct acc as [results log]. unfold record_outcome.
  destruct o as [res|e]; [|by eexists].
  destruct (py_get res "total_found" (PInt 0)); by eexists.
Qed.

Lemma sequential_log (dbs : list string) :
  forall acc : list (string * pyval) * list string,
  exists more,
    (fold_left (sequential_step bots query) dbs acc).2 = (acc.2 ++ more)%list.
Proof.
  induction dbs as [|db rest IH]; intros acc; cbn [fold_left].
  - exists []. by rewrite app_nil_r.
  - destruct (IH (sequential_step bots query acc db)) as [more ->].
    destruct acc as [results log]. unfold sequential_step.
    destruct (bots !! db).
    + destruct (record_outcome_log db (_search_single_database bots query db)
                  (results, (log ++ ["開始檢索 " +:+ db])%list)) as [line ->].
      cbn [snd]. eexists. by rewrite <- !app_assoc.
    + cbn [snd]. eexists. by rewrite <- !app_assoc.
Qed.

Lemma submit_log (dbs : list string) :
  forall acc : list string * list string,
  exists more, (fold_left (submit bots) dbs acc).2 = (acc.2 ++ more)%list.
Proof.
  induction dbs as [|db rest IH]; intros acc; cbn [fold_left].
  - exists []. by rewrite app_nil_r.
  - destruct (IH (submit bots acc db)) as [more ->].
    destruct acc as [futures log]. unfold submit. destruct (bots !! db); cbn [snd].
    + by eexists.
    + eexists. by rewrite <- !app_assoc.
Qed.

Lemma collect_log (futures : list string) :
  forall acc : list (string * pyval) * list string,
  exists more,
    (fold_left (collect bots query) futures acc).2 = (acc.2 ++ more)%list.
Proof.
  induction futures as [|db rest IH]; intros acc; cbn [fold_left].
  - exists []. by rewrite app_nil_r.
  - destruct (IH (collect bots query acc db)) as [more ->]. unfold collect.
    destruct (record_outcome_log db (_search_single_database bots query db) acc)
      as [line ->].
    eexists. by rewrite <- !app_assoc.
Qed.

Lemma strategy_log (dbs : list string) (log : list string) (parallel : bool) :
  exists more,
    (if parallel then _search_parallel bots query dbs log
     else _search_sequential bots query dbs log).2
    = (log ++ (if parallel then "使用並行模式檢索" else "使用順序模式檢索") :: more)%list.
Proof.
  destruct parallel.
  - unfold _search_parallel. destruct (Nat.leb (length dbs) 0).
    + exists []. done.
    + destruct (submit_log dbs ([], (log ++ ["使用並行模式檢索"])%list)) as [m1 H1].
      destruct (fold_left (submit bots) dbs _) as [futures l1]. cbn [snd] in H1.
      destruct (collect_log (as_completed futures) ([], l1)) as [m2 H2].
      destruct (fold_left (collect bots query) _ _) as [results l2]. cbn [snd] in *.
      subst. exists (m1 ++ m2)%list. by rewrite <- !app_assoc.
  - unfold _search_sequential.
    destruct (sequential_log dbs ([], (log ++ ["使用順序模式檢索"])%list)) as [m1 H1].
    destruct (fold_left (sequential_step bots query) dbs _) as [results l1].
    cbn [snd] in *. subst. exists m1. by rewrite <- !app_assoc.
Qed.

End Logs.

(** The line that closes the log of a run. *)
Definition closing_line (s : Summary.t) : string :=
  match Summary.error s with
  | None =>
      "多資料庫檢索完成，共找到 " +:+ str_of_nat (Summary.merged_count s)
      +:+ " 筆去重後的專利"
  | Some e => "多資料庫檢索失敗: " +:+ e
  end.

Ltac log_eq :=
  repeat (rewrite <- ?app_assoc; cbn [app]); reflexivity.

Section RunMore.
Context `{Runtime}.

Lemma merge_log (results : list (string * pyval)) (log : list string) :
  exists more, (_merge_and_deduplicate_results results log).2 = (log ++ more)%list.
Proof.
  unfold _merge_and_deduplicate_results.
  destruct (collect_patents results); cbn [snd]; eexists; by rewrite <- app_assoc.
Qed.

(** X17.  A run never rewrites the log: the log after it is the log before
    it, then the line naming the requested ids, then the line naming the
    mode, then the lines of the steps, then one closing line that reports the
    merged count of a completed run or the error of a failed one.  The summary
    carries this very log, and the registry is unchanged. *)
Theorem X17_run_log_grows (self : coordinator) (dbs : list string) (q : Query)
    (parallel : bool) :
  Summary.execution_log (search_multiple_databases self dbs q parallel).1
  = execution_log (search_multiple_databases self dbs q parallel).2
  /\ bots (search_multiple_databases self dbs q parallel).2 = bots self
  /\ exists steps,
       execution_log (search_multiple_databases self dbs q parallel).2
       = (execution_log self
            ++ ("開始多資料庫檢索: " +:+ PyStr.join ", " dbs)
            :: (if parallel then "使用並行模式檢索" else "使用順序模式檢索")
            :: steps
            ++ [closing_line (search_multiple_databases self dbs q parallel).1])%list.
Proof.
  unfold search_multiple_databases.
  destruct (strategy_log (bots self) q dbs
              (execution_log self ++ ["開始多資料庫檢索: " +:+ PyStr.join ", " dbs])%list
              parallel) as [m1 H1].
  destruct (if parallel then _ else _) as [searched log1]. cbn [snd] in H1. subst log1.
  destruct searched as [results|e].
  2:{ cbn. split; [done|]. split; [done|]. exists m1. log_eq. }
  destruct (merge_log results
              ((execution_log self ++ ["開始多資料庫檢索: " +:+ PyStr.join ", " dbs])
                 ++ (if parallel then "使用並行模式檢索" else "使用順序模式檢索") :: m1)%list)
    as [m2 H2].
  destruct (_merge_and_deduplicate_results results _) as [merged log2].
  cbn [snd] in H2. subst log2.
  destruct (gather_downloaded_files results) as [files|e].
  2:{ cbn. split; [done|]. split; [done|]. exists (m1 ++ m2)%list. log_eq. }
  destruct (count_by_db results) as [by_db|e]; cbn [mbind result_bind].
  2:{ cbn. split; [done|]. split; [done|]. exists (m1 ++ m2)%list. log_eq. }
  destruct (total_original results) as [total|e]; cbn [mbind result_bind].
  2:{ cbn. split; [done|]. split; [done|]. exists (m1 ++ m2)%list. log_eq. }
  cbn. split; [done|]. split; [done|]. exists (m1 ++ m2)%list. log_eq.
Qed.

(** What a completed run was computed from. *)
Lemma run_completed_inv (self : coordinator) (dbs : list string) (q : Query)
    (parallel : bool) :
  Summary.status (search_multiple_databases self dbs q parallel).1 = "completed" ->
  exists m log1 files by_db,
    (if parallel
     then _search_parallel (bots self) q dbs
            (execution_log self ++ ["開始多資料庫檢索: " +:+ PyStr.join ", " dbs])%list
     else _search_sequential (bots self) q dbs
            (execution_log self ++ ["開始多資料庫檢索: " +:+ PyStr.join ", " dbs])%list)
    = (Ok m, log1)
    /\ gather_downloaded_files m = Ok files
    /\ count_by_db m = Ok by_db
    /\ (search_multiple_databases self dbs q parallel).1
       = Summary.Make "completed" None dbs (Some by_db) (sum_list by_db.*2)
           (length (_merge_and_deduplicate_results m log1).1)
           (Some (_calculate_dedup_ratio m (_merge_and_deduplicate_results m log1).1))
           (_merge_and_deduplicate_results m log1).1 (Some m) files elapsed
           ((_merge_and_deduplicate_results m log1).2
              ++ ["多資料庫檢索完成，共找到 "
                    +:+ str_of_nat (length (_merge_and_deduplicate_results m log1).1)
                    +:+ " 筆去重後的專利"])%list
    /\ all_results (search_multiple_databases self dbs q parallel).2 = m.*2
    /\ merged_results (search_multiple_databases self dbs q parallel).2
       = (_merge_and_deduplicate_results m log1).1
    /\ downloaded_files (search_multiple_databases self dbs q parallel).2 = files
    /\ bots (search_multiple_databases self dbs q parallel).2 = bots self.
Proof.
  unfold search_multiple_databases.
  destruct (if parallel then _ else _) as [[m|e] log1]; [|done].
  destruct (_merge_and_deduplicate_results m log1) as [merged log2] eqn:Hm.
  destruct (gather_downloaded_files m) as [files|e] eqn:Hg; [|done].
  destruct (count_by_db m) as [by_db|e] eqn:Hc; cbn [mbind result_bind]; [|done].
  destruct (count_by_db_total m by_db Hc) as [_ Ht]. rewrite Ht.
  cbn [mbind result_bind]. intros _.
  exists m, log1, files, by_db. rewrite Hm. cbn. repeat split; done.
Qed.

(** X18.  In the summary of a completed run, the per-database counts are
    given for exactly the ids of the per-database map and in its order, the
    total is their sum, the merged count is the number of merged records and
    is at most the total, and the ratio is [0.0] when the total is [0] and
    otherwise the [float] of the share of the total that the merge removed,
    between [0] and [1]. *)
Theorem X18_run_counts (self : coordinator) (dbs : list string) (q : Query)
    (parallel : bool) :
  Summary.status (search_multiple_databases self dbs q parallel).1 = "completed" ->
  exists m by_db ratio,
    Summary.results_by_database (search_multiple_databases self dbs q parallel).1
    = Some m
    /\ Summary.total_found_by_db (search_multiple_databases self dbs q parallel).1
       = Some by_db
    /\ Summary.deduplication_ratio (search_multiple_databases self dbs q parallel).1
       = Some ratio
    /\ by_db.*1 = m.*1
    /\ Summary.total_found (search_multiple_databases self dbs q parallel).1
       = sum_list by_db.*2
    /\ Summary.merged_count (search_multiple_databases self dbs q parallel).1
       = length (Summary.results (search_multiple_databases self dbs q parallel).1)
    /\ (Summary.merged_count (search_multiple_databases self dbs q parallel).1
        <= Summary.total_found (search_multiple_databases self dbs q parallel).1)%nat
    /\ (0 <= ratio <= 1)%Q
    /\ ratio
       = (if Nat.eqb (sum_list by_db.*2) 0 then 0
          else float_of
                 ((Z.of_nat (sum_list by_db.*2)
                   - Z.of_nat (Summary.merged_count
                                 (search_multiple_databases self dbs q parallel).1))
                  # Pos.of_nat (sum_list by_db.*2)))%Q.
Proof.
  intros Hst.
  destruct (run_completed_inv self dbs q parallel Hst)
    as (m & log1 & files & by_db & _ & _ & Hc & -> & _).
  destruct (count_by_db_total m by_db Hc) as [Hk Ht].
  pose proof (merged_length m log1 _ Ht) as Hle.
  exists m, by_db, (_calculate_dedup_ratio m (_merge_and_deduplicate_results m log1).1).
  cbn [Summary.results_by_database Summary.total_found_by_db
       Summary.deduplication_ratio Summary.total_found Summary.merged_count
       Summary.results].
  repeat (split; [done|]).
  split; [by apply (dedup_ratio_bounds m _ (sum_list by_db.*2))|].
  unfold _calculate_dedup_ratio. by rewrite Ht.
Qed.

(** X19.  Over backends that return results of the interface, a sequential
    run completes whatever ids are requested, registered or not, and a
    parallel run completes whenever at least one id is requested. *)
Theorem X19_run_completes (self : coordinator) (dbs : list string) (q : Query)
    (parallel : bool) :
  (forall db b v, bots self !! db = Some b -> b q = Ok v -> wf_backend v = true) ->
  parallel = false \/ dbs <> [] ->
  Summary.status (search_multiple_databases self dbs q parallel).1 = "completed"
  /\ Summary.error (search_multiple_databases self dbs q parallel).1 = None.
Proof.
  intros Hwf Hmode.
  assert (exists m log1,
            (if parallel
             then _search_parallel (bots self) q dbs
                    (execution_log self ++ ["開始多資料庫檢索: " +:+ PyStr.join ", " dbs])%list
             else _search_sequential (bots self) q dbs
                    (execution_log self ++ ["開始多資料庫檢索: " +:+ PyStr.join ", " dbs])%list)
            = (Ok m, log1)
            /\ Forall (fun kv => wf_backend kv.2 = true) m) as (m & log1 & Hs & Hm).
  { destruct dbs as [|d0 rest].
    - destruct Hmode as [-> | Hne]; [|done]. eexists _, _. split; [reflexivity|done].
    - destruct (strategy_results self (d0 :: rest) q parallel
                  (execution_log self
                     ++ ["開始多資料庫檢索: " +:+ PyStr.join ", " (d0 :: rest)])%list)
        as (m & log1 & Hs & Hm & _); [done|done|]. eauto. }
  unfold search_multiple_databases. rewrite Hs.
  destruct (_merge_and_deduplicate_results m log1) as [merged log2].
  destruct (wf_counts m Hm) as ((fs & ->) & (by_db & ->) & (t & ->)).
  cbn. done.
Qed.

End RunMore.

(** ** Statistics: [get_statistics] *)

(** [sum(len(result.get("results", [])) for result in self.all_results)] *)
Fixpoint sum_results (all_results : list pyval) : result nat :=
  match all_results with
  | [] => Ok O
  | res :: rest =>
      r ← py_get res "results" (PList []);
      n ← py_len r;
      m ← sum_results rest;
      Ok (n + m)%nat
  end.

(** The dictionary of counts, or the empty dictionary when counting
    raises.  The sum is evaluated for [original_count] and again for
    [duplicates_removed].  Only lengths are read, which the tagging and the
    merging of the records in place do not change. *)
Definition get_statistics (self : coordinator) : pyval :=
  match
    original_count ← sum_results (all_results self);
    counted_again ← sum_results (all_results self);
    Ok (original_count, counted_again)
  with
  | Ok (original_count, counted_again) =>
      PDict
        [ ("total_databases_searched", PInt (Z.of_nat (size (bots self))));
          ("total_results_found", PInt (Z.of_nat (length (all_results self))));
          ("merged_results_count", PInt (Z.of_nat (length (merged_results self))));
          ("total_files_downloaded",
           PInt (Z.of_nat (length (downloaded_files self))));
          ("deduplication_stats",
           PDict
             [ ("original_count", PInt (Z.of_nat original_count));
               ("deduplicated_count",
                PInt (Z.of_nat (length (merged_results self))));
               ("duplicates_removed",
                PInt (Z.of_nat counted_again
                      - Z.of_nat (length (merged_results self)))) ]) ]
  | Raise _ => PDict []
  end.

Lemma sum_results_values (results : list (string * pyval)) :
  sum_results results.*2 = total_original results.
Proof.
  induction results as [|[db res] rest IH]; [done|].
  cbn [fmap list_fmap snd sum_results total_original]. by rewrite IH.
Qed.

Section Statistics.
Context `{Runtime}.

(** X21.  After a completed run the statistics are available and agree
    with the summary of the run: the original count is its total, the merged
    and the deduplicated counts are its merged count, the duplicates removed
    are their difference, which is not negative, the results found are the
    entries of the per-database map and the files those of the summary; the
    databases searched are the registered backends, whatever was requested. *)
Theorem X21_statistics_after_run (self : coordinator) (dbs : list string) (q : Query)
    (parallel : bool) :
  Summary.status (search_multiple_databases self dbs q parallel).1 = "completed" ->
  exists m,
    Summary.results_by_database (search_multiple_databases self dbs q parallel).1
    = Some m
    /\ get_statistics (search_multiple_databases self dbs q parallel).2
       = PDict
           [ ("total_databases_searched", PInt (Z.of_nat (size (bots self))));
             ("total_results_found", PInt (Z.of_nat (length m)));
             ("merged_results_count",
              PInt (Z.of_nat (Summary.merged_count
                                (search_multiple_databases self dbs q parallel).1)));
             ("total_files_downloaded",
              PInt (Z.of_nat (length (Summary.downloaded_files
                                        (search_multiple_databases self dbs q parallel).1))));
             ("deduplication_stats",
              PDict
                [ ("original_count",
                   PInt (Z.of_nat (Summary.total_found
                                     (search_multiple_databases self dbs q parallel).1)));
                  ("deduplicated_count",
                   PInt (Z.of_nat (Summary.merged_count
                                     (search_multiple_databases self dbs q parallel).1)));
                  ("duplicates_removed",
                   PInt (Z.of_nat (Summary.total_found
                                     (search_multiple_databases self dbs q parallel).1)
                         - Z.of_nat (Summary.merged_count
                                       (search_multiple_databases self dbs q parallel).1))) ]) ]
    /\ (0 <= Z.of_nat (Summary.total_found
                         (search_multiple_databases self dbs q parallel).1)
             - Z.of_nat (Summary.merged_count
                           (search_multiple_databases self dbs q parallel).1))%Z.
Proof.
  intros Hst.
  destruct (run_completed_inv self dbs q parallel Hst)
    as (m & log1 & files & by_db & _ & _ & Hc & Hsum & Hall & Hmerged & Hfiles & Hbots).
  destruct (count_by_db_total m by_db Hc) as [_ Ht].
  pose proof (merged_length m log1 _ Ht) as Hle.
  exists m. unfold get_statistics.
  rewrite Hall, Hmerged, Hfiles, Hbots, sum_results_values, Ht, Hsum.
  cbn [mbind result_bind Summary.results_by_database Summary.merged_count
       Summary.total_found Summary.downloaded_files].
  split; [done|]. split; [|lia]. by rewrite length_fmap.
Qed.

End Statistics.

(** ** Every merged record names its sources *)

Section Tagging.
Context `{Runtime}.
Variable ids : list string.

(** The record lists at least one source, and only ids of [ids]. *)
Definition names_sources (x : pyval) : Prop :=
  exists l, field x "source_databases" = Some (PList l)
            /\ l <> []
            /\ Forall (fun y => exists db, y = PStr db /\ db ∈ ids) l.

Lemma names_sources_ok (x : pyval) (l : list pyval) :
  field x "source_databases" = Some (PList l) ->
  Forall (fun y => exists db, y = PStr db /\ db ∈ ids) l ->
  list_field_ok x "source_databases" = true /\ elements x "source_databases" = l.
Proof.
  intros Hf Hl. unfold list_field_ok, elements. rewrite Hf. split; [|done].
  apply forallb_forall. intros y Hy%list_elem_of_In.
  by destruct (proj1 (Forall_forall _ _) Hl y Hy) as (db & -> & _).
Qed.

Lemma merge_sources_names (a p a' : pyval) :
  names_sources a -> names_sources p ->
  merge_sources a p = Ok a' -> names_sources a'.
Proof.
  intros (l1 & Hf1 & Hne1 & Hl1) (l2 & Hf2 & _ & Hl2).
  destruct (names_sources_ok a l1 Hf1 Hl1) as [Hok1 He1].
  destruct (names_sources_ok p l2 Hf2 Hl2) as [Hok2 He2].
  destruct a as [| | | |d]; try done. destruct p as [| | | |dp]; try done.
  rewrite merge_sources_typed by done. intros [= <-].
  unfold union_field. rewrite He1, He2.
  exists (set_to_list (l1 ++ l2)). split; [apply field_set_eq|]. split.
  - destruct l1 as [|y l1]; [done|]. intros Hnil.
    assert (y ∈ set_to_list ((y :: l1) ++ l2)) as Hy.
    { apply set_to_list_elem, elem_of_app. left. by left. }
    rewrite Hnil in Hy. by apply elem_of_nil in Hy.
  - apply Forall_forall. intros y [Hy|Hy]%set_to_list_elem%elem_of_app.
    + by apply (proj1 (Forall_forall _ _) Hl1).
    + by apply (proj1 (Forall_forall _ _) Hl2).
Qed.

Lemma merge_info_names (e n : pyval) :
  names_sources e -> names_sources (_merge_patent_info e n).
Proof.
  intros (l & Hf & Hl). exists l. split; [|done].
  by rewrite merge_info_frame.
Qed.

Lemma dedup_step_names (st st' : dedup_state) (i : nat) (p : pyval) :
  Forall names_sources (store st) -> names_sources p ->
  dedup_step st i p = Ok st' -> Forall names_sources (store st').
Proof.
  intros Hst Hp. unfold dedup_step.
  destruct (bool_decide _); [|by intros [= <-]].
  destruct (find_existing _ st) as [j|]; [|by intros [= <-]].
  destruct (store st !! j) as [existing|] eqn:Hj; [|by intros [= <-]].
  destruct (merge_sources existing p) as [existing'|] eqn:Hm; [|done].
  cbn [mbind result_bind]. intros [= <-]. cbn [store].
  apply Forall_insert; [done|]. apply merge_info_names.
  apply (merge_sources_names existing p existing'); [|done|done].
  by apply (proj1 (Forall_lookup _ _) Hst j existing).
Qed.

Lemma dedup_loop_names (patents : list pyval) :
  forall (i : nat) (st st' : dedup_state) (err : option exn),
  Forall names_sources (store st) -> Forall names_sources patents ->
  dedup_loop i patents st = (st', err) -> Forall names_sources (store st').
Proof.
  induction patents as [|p rest IH]; intros i st st' err Hst Hps; cbn [dedup_loop].
  - by intros [= <- _].
  - apply Forall_cons in Hps as [Hp Hrest].
    destruct (dedup_step st i p) as [st1|e] eqn:Hstep; [|by intros [= <- _]].
    apply IH; [|done]. by apply (dedup_step_names st st1 i p).
Qed.

Lemma dedup_names (patents : list pyval) :
  Forall names_sources patents -> Forall names_sources (_deduplicate_patents patents).
Proof.
  intros Hps. destruct patents as [|p0 rest]; [done|]. unfold _deduplicate_patents.
  destruct (dedup_loop 0 (p0 :: rest) _) as [st err] eqn:Hloop.
  apply dedup_loop_names in Hloop; [|done|done].
  destruct err; [done|].
  apply Forall_forall. intros x (j & _ & Hj)%list_elem_of_omap.
  by apply (proj1 (Forall_lookup _ _) Hloop j x).
Qed.

End Tagging.

Lemma names_sources_mono (ids ids' : list string) (x : pyval) :
  (forall db, db ∈ ids -> db ∈ ids') -> names_sources ids x -> names_sources ids' x.
Proof.
  intros Hsub (l & Hf & Hne & Hl). exists l. split; [done|]. split; [done|].
  eapply Forall_impl; [exact Hl|]. intros y (db & -> & Hdb). eauto.
Qed.

Lemma tag_records_names (db : string) (l tagged : list pyval) :
  tag_records db l = Ok tagged -> Forall (names_sources [db]) tagged.
Proof.
  revert tagged. induction l as [|p r IH]; intros tagged; cbn [tag_records].
  - by intros [= <-].
  - destruct (py_setitem p _ _) as [p'|] eqn:Hp; [|done]. cbn [mbind result_bind].
    destruct (tag_records db r) as [r'|]; [|done]. cbn [mbind result_bind].
    intros [= <-]. constructor; [|by apply IH].
    destruct p as [| | | |d]; try done. injection Hp as <-.
    exists [PStr db]. split; [apply field_set_eq|]. split; [done|].
    constructor; [|done]. exists db. split; [done|by left].
Qed.

Lemma collect_patents_names (results : list (string * pyval)) :
  forall all_patents : list pyval,
  collect_patents results = Ok all_patents ->
  Forall (names_sources results.*1) all_patents.
Proof.
  induction results as [|[db res] rest IH]; intros all_patents; cbn [collect_patents].
  - by intros [= <-].
  - destruct (collect_result db res) as [here|] eqn:Hh; [|done].
    cbn [mbind result_bind].
    destruct (collect_patents rest) as [there|]; [|done]. cbn [mbind result_bind].
    intros [= <-]. apply Forall_app. split.
    + assert (Forall (names_sources [db]) here) as Hhere.
      { unfold collect_result in Hh.
        destruct (py_get1 res "status") as [status|]; [|done].
        cbn [mbind result_bind] in Hh.
        destruct (pyval_eqb status (PStr "completed")); [|by injection Hh as <-].
        destruct (py_get res "results" (PList [])) as [r|]; [|done].
        cbn [mbind result_bind] in Hh.
        destruct (py_iter r) as [l|]; [|done]. cbn [mbind result_bind] in Hh.
        by apply (tag_records_names db l). }
      eapply Forall_impl; [exact Hhere|]. intros x.
      apply names_sources_mono. intros db' ->%list_elem_of_singleton.
      cbn [fmap list_fmap fst]. by left.
    + eapply Forall_impl; [exact (IH there eq_refl)|]. intros x.
      apply names_sources_mono. intros db' Hdb'. cbn [fmap list_fmap fst]. by right.
Qed.

Section TaggingStep.
Context `{Runtime}.

(** X12.  Whatever the backends returned, every record that the merge step
    returns carries a [source_databases] list that is not empty and holds
    only ids of the per-database map. *)
Theorem X12_merged_records_name_sources (results : list (string * pyval))
    (log : list string) (m : pyval) :
  m ∈ (_merge_and_deduplicate_results results log).1 ->
  exists l, field m "source_databases" = Some (PList l)
            /\ l <> []
            /\ Forall (fun y => exists db, y = PStr db /\ db ∈ results.*1) l.
Proof.
  unfold _merge_and_deduplicate_results.
  destruct (collect_patents results) as [all_patents|e] eqn:Hall; cbn [fst].
  - intros Hm. pose proof (collect_patents_names results all_patents Hall) as Hn.
    apply (dedup_names results.*1) in Hn.
    by apply (proj1 (Forall_forall _ _) Hn m).
  - intros Hm. by apply elem_of_nil in Hm.
Qed.

End TaggingStep.

(** ** The files of a run *)

Lemma gather_concat (results : list (string * pyval)) :
  forall files : list pyval,
  gather_downloaded_files results = Ok files ->
  exists parts,
    Forall2 (fun kv part =>
               exists fs, py_get kv.2 "downloaded_files" (PList []) = Ok fs
                          /\ py_iter fs = Ok part) results parts
    /\ files = concat parts.
Proof.
  induction results as [|[db res] rest IH]; intros files;
    cbn [gather_downloaded_files].
  - intros [= <-]. exists []. split; [constructor|done].
  - destruct (py_get res "downloaded_files" (PList [])) as [fs|] eqn:Hfs; [|done].
    cbn [mbind result_bind].
    destruct (py_iter fs) as [here|] eqn:Hhere; [|done]. cbn [mbind result_bind].
    destruct (gather_downloaded_files rest) as [there|]; [|done].
    cbn [mbind result_bind]. intros [= <-].
    destruct (IH there eq_refl) as (parts & Hparts & ->).
    exists (here :: parts). split; [|done]. constructor; [|done]. cbn [snd]. eauto.
Qed.

Section RunFiles.
Context `{Runtime}.

(** X20.  The files of a completed run are the [downloaded_files] lists of
    the entries of the per-database map, one after the other in the order of
    the map; the coordinator keeps the same list. *)
Theorem X20_run_downloaded_files (self : coordinator) (dbs : list string) (q : Query)
    (parallel : bool) :
  Summary.status (search_multiple_databases self dbs q parallel).1 = "completed" ->
  exists m parts,
    Summary.results_by_database (search_multiple_databases self dbs q parallel).1
    = Some m
    /\ Forall2 (fun kv part =>
                  exists fs, py_get kv.2 "downloaded_files" (PList []) = Ok fs
                             /\ py_iter fs = Ok part) m parts
    /\ Summary.downloaded_files (search_multiple_databases self dbs q parallel).1
       = concat parts
    /\ downloaded_files (search_multiple_databases self dbs q parallel).2
       = concat parts.
Proof.
  intros Hst.
  destruct (run_completed_inv self dbs q parallel Hst)
    as (m & log1 & files & by_db & _ & Hg & _ & -> & _ & _ & -> & _).
  destruct (gather_concat m files Hg) as (parts & Hparts & ->).
  exists m, parts. done.
Qed.

End RunFiles.

(** ** Merging the same record again *)

Ltac peel_scalar :=
  repeat first [ rewrite scalar_union_ne by done | rewrite scalar_fill_ne by done ].

Section MergeTwice.
Context `{Runtime}.

Lemma fill_field_kept (k : string) (d : list (string * pyval)) (n : pyval) :
  truthy (scalar (PDict d) k) = true -> fill_field k d n = d.
Proof. intros He. unfold fill_field. by rewrite He. Qed.

Lemma merged_scalar_truthy (d : list (string * pyval)) (n : pyval) (key : string) :
  key = "abstract" \/ key = "claims" \/ key = "description" ->
  truthy (scalar n key) = true ->
  truthy (scalar (PDict (merged_dict d n)) key) = true.
Proof.
  intros Hkey Hn. destruct (truthy (scalar (PDict d) key)) eqn:He.
  - assert (scalar (PDict (merged_dict d n)) key = scalar (PDict d) key) as ->; [|done].
    unfold merged_dict.
    destruct Hkey as [-> | [-> | ->]]; peel_scalar;
      (rewrite fill_field_kept by (peel_scalar; exact He));
      peel_scalar; reflexivity.
  - by rewrite merged_scalar_filled.
Qed.

Lemma fill_field_settled (k : string) (d : list (string * pyval)) (n : pyval) :
  (truthy (scalar n k) = true -> truthy (scalar (PDict d) k) = true) ->
  fill_field k d n = d.
Proof.
  intros Hs. unfold fill_field.
  destruct (truthy (scalar (PDict d) k)); [done|].
  destruct (truthy (scalar n k)); [|done]. by specialize (Hs eq_refl).
Qed.

(** X4.  Between two records of the data model, merging the same incoming
    record a second time changes nothing more: every multi-valued field keeps
    its members and every other field its value. *)
Theorem X4_merge_info_settles (existing new : pyval) :
  well_typed existing = true -> well_typed new = true ->
  same_record
    (_merge_patent_info (_merge_patent_info existing new) new)
    (_merge_patent_info existing new).
Proof.
  intros Hte Htn.
  destruct (well_typed_fields _ Hte) as [Hd _].
  destruct (well_typed_fields _ Htn) as [Hdn _].
  destruct existing as [| | | |d]; try done.
  destruct new as [| | | |dn]; try done.
  rewrite (merge_patent_info_typed d dn) by done.
  pose proof (well_typed_merged d (PDict dn) Hte Htn) as Htm.
  rewrite merge_patent_info_typed by done.
  set (dm := merged_dict d (PDict dn)) in *.
  assert (forall key, key = "abstract" \/ key = "claims" \/ key = "description" ->
            truthy (scalar (PDict dn) key) = true ->
            truthy (scalar (PDict dm) key) = true) as Hsettled.
  { intros key Hkey. by apply merged_scalar_truthy. }
  assert (merged_dict dm (PDict dn)
          = union_field "images"
              (union_field "ipc_classes"
                 (union_field "applicants" (union_field "inventors" dm (PDict dn))
                    (PDict dn)) (PDict dn)) (PDict dn)) as Hm.
  { unfold merged_dict at 1.
    rewrite (fill_field_settled "abstract").
    2:{ rewrite !scalar_union_ne by done. apply Hsettled. auto. }
    rewrite (fill_field_settled "claims").
    2:{ rewrite !scalar_union_ne by done. apply Hsettled. auto. }
    rewrite (fill_field_settled "description").
    2:{ rewrite !scalar_union_ne by done. apply Hsettled. auto. }
    done. }
  split; [done|]. split.
  - intros k Hk x. revert Hk. unfold set_fields.
    rewrite !elem_of_cons, elem_of_nil.
    intros [-> | [-> | [-> | [-> | [-> | []]]]]]; rewrite Hm;
      repeat first [ rewrite elements_union_eq | rewrite elements_union_ne by done ];
      try reflexivity;
      unfold dm; rewrite elements_merged by auto;
      rewrite !set_to_list_elem, !elem_of_app, !set_to_list_elem, !elem_of_app;
      tauto.
  - intros k. unfold set_fields. rewrite !not_elem_of_cons.
    intros (H1 & H2 & H3 & H4 & H5 & _). rewrite Hm. unfold union_field.
    by rewrite !field_set_ne by done.
Qed.

End MergeTwice.

(** ** A backend's records: [USPTOSearchBot._parse_api_results]

    The USPTO backend answers a keyword query from the records it parses
    out of the API's response; they are the records that reach the
    coordinator under the id "uspto". *)

(** The dictionary built for one entry of the response. *)
Definition api_record (patent : pyval) : result pyval :=
  patent_number ← py_get patent "patentNumber" (PStr "");
  title ← py_get patent "title" (PStr "");
  abstract ← py_get patent "abstract" (PStr "");
  inventors ← py_get patent "inventors" (PList []);
  applicants ← py_get patent "applicants" (PList []);
  application_date ← py_get1 patent "applicationDate";
  publication_date ← py_get1 patent "publicationDate";
  grant_date ← py_get1 patent "grantDate";
  ipc_classes ← py_get patent "ipcClasses" (PList []);
  claims ← py_get patent "claims" (PStr "");
  description ← py_get patent "description" (PStr "");
  images ← py_get patent "images" (PList []);
  source_url ← py_get patent "url" (PStr "");
  detail_url ← py_get patent "detailUrl" (PStr "");
  Ok (PDict [ ("patent_number", patent_number);
              ("title", title);
              ("abstract", abstract);
              ("inventors", inventors);
              ("applicants", applicants);
              ("application_date", application_date);
              ("publication_date", publication_date);
              ("grant_date", grant_date);
              ("ipc_classes", ipc_classes);
              ("claims", claims);
              ("description", description);
              ("images", images);
              ("source_database", PStr "uspto");
              ("source_url", source_url);
              ("detail_url", detail_url) ]).

(** The loop inside the [try]: an exception ends it and the records
    appended so far are returned. *)
Fixpoint parse_loop (patents : list pyval) (results : list pyval) : list pyval :=
  match patents with
  | [] => results
  | patent :: rest =>
      match api_record patent with
      | Ok patent_info => parse_loop rest (results ++ [patent_info])
      | Raise _ => results
      end
  end.

Definition _parse_api_results (api_data : pyval) : list pyval :=
  match patents ← py_get api_data "patents" (PList []); py_iter patents with
  | Ok patents => parse_loop patents []
  | Raise _ => []
  end.


Lemma api_record_dict (d : list (string * pyval)) :
  exists r, api_record (PDict d) = Ok (PDict r)
            /\ dict_get r "patent_number"
               = Some (match dict_get d "patentNumber" with
                       | Some v => v | None => PStr "" end)
            /\ dict_get r "title"
               = Some (match dict_get d "title" with
                       | Some v => v | None => PStr "" end)
            /\ dict_get r "source_database" = Some (PStr "uspto")
            /\ r.*1 = ["patent_number"; "title"; "abstract"; "inventors";
                       "applicants"; "application_date"; "publication_date";
                       "grant_date"; "ipc_classes"; "claims"; "description";
                       "images"; "source_database"; "source_url"; "detail_url"].
Proof. eexists. split; [reflexivity|]. repeat split. Qed.

Lemma api_record_not_dict (x : pyval) :
  is_dict x = false -> exists e, api_record x = Raise e.
Proof. destruct x; try done; intros _; eexists; reflexivity. Qed.

Lemma parse_loop_app (good rest : list pyval) :
  forall results : list pyval,
  Forall (fun p => is_dict p = true) good ->
  exists parsed,
    Forall2 (fun p r => api_record p = Ok r) good parsed
    /\ parse_loop (good ++ rest) results = parse_loop rest (results ++ parsed).
Proof.
  induction good as [|p good IH]; intros results Hgood.
  - exists []. split; [constructor|]. by rewrite app_nil_r.
  - apply Forall_cons in Hgood as [Hp Hgood].
    destruct p as [| | | |d]; try done.
    destruct (api_record_dict d) as (r & Hr & _).
    destruct (IH (results ++ [PDict r])%list Hgood) as (parsed & Hparsed & Hloop).
    exists (PDict r :: parsed). split; [by constructor|].
    cbn [app parse_loop]. rewrite Hr, Hloop. by rewrite <- app_assoc.
Qed.

(** X22.  The parser returns one record per entry of the response, in
    order, up to the first entry that is not a dictionary; that entry and all
    entries after it are dropped without an error. *)
Theorem X22_parse_api_truncates (d : list (string * pyval)) (good rest : list pyval)
    (bad : pyval) :
  dict_get d "patents" = Some (PList (good ++ bad :: rest)) ->
  Forall (fun p => is_dict p = true) good ->
  is_dict bad = false ->
  Forall2 (fun p r => api_record p = Ok r) good (_parse_api_results (PDict d))
  /\ length (_parse_api_results (PDict d)) = length good.
Proof.
  intros Hd Hgood Hbad. unfold _parse_api_results.
  cbn [py_get mbind result_bind]. rewrite Hd. cbn [py_iter].
  destruct (parse_loop_app good (bad :: rest) [] Hgood) as (parsed & Hparsed & ->).
  cbn [app parse_loop]. destruct (api_record_not_dict bad Hbad) as [e ->].
  split; [done|]. symmetry. by apply Forall2_length in Hparsed.
Qed.




(** ** The properties above on examples *)

Definition widget_record : pyval :=
  PDict [("patent_number", PStr "US1234567"); ("title", PStr "Widget")].

Definition widget_map : list (string * pyval) :=
  [("a", widget_result); ("b", failed_result "boom")].

Definition api_response : list (string * pyval) :=
  [("patents",
    PList [PDict [("patentNumber", PStr "US1234567"); ("title", PStr "Widget")];
           PStr "truncated";
           PDict [("patentNumber", PStr "US7654321"); ("title", PStr "Gadget")]])].


Lemma X6_dedup_first_seen_witness :
  Forall2 grown_from
    (_deduplicate_patents [tagged_widget; tagged_gadget; tagged_widget])
    (first_of_each [tagged_widget; tagged_gadget; tagged_widget]).
Proof.
  apply (X6_dedup_first_seen [tagged_widget; tagged_gadget; tagged_widget]).
  repeat constructor.
Defined.

Lemma X7_dedup_fixpoint_witness :
  NoDup (_calculate_patent_hash
           <$> _deduplicate_patents [tagged_widget; tagged_gadget; tagged_widget])
  /\ Forall (fun p => ascii_keyed p = true
                      /\ list_field_ok p "source_databases" = true)
       (_deduplicate_patents [tagged_widget; tagged_gadget; tagged_widget])
  /\ _deduplicate_patents
       (_deduplicate_patents [tagged_widget; tagged_gadget; tagged_widget])
     = _deduplicate_patents [tagged_widget; tagged_gadget; tagged_widget].
Proof.
  apply (X7_dedup_fixpoint [tagged_widget; tagged_gadget; tagged_widget]).
  repeat constructor.
Defined.

Lemma X9_dedup_gives_up_witness :
  _deduplicate_patents [PNone; PNone; tagged_gadget] = [PNone; PNone; tagged_gadget].
Proof. exact (X9_dedup_gives_up PNone [tagged_gadget] eq_refl). Defined.

Lemma X8_dedup_gathers_groups_witness :
  PStr "twpat" ∈ elements tagged_gadget "source_databases"
  <-> exists p, p ∈ [tagged_widget; tagged_gadget; tagged_widget]
                /\ _calculate_patent_hash p = _calculate_patent_hash tagged_gadget
                /\ PStr "twpat" ∈ elements p "source_databases".
Proof.
  apply (X8_dedup_gathers_groups [tagged_widget; tagged_gadget; tagged_widget]
           "source_databases" tagged_gadget (PStr "twpat")).
  - repeat constructor.
  - apply list_elem_of_here.
  - apply list_elem_of_lookup. exists 1%nat. vm_compute. reflexivity.
Defined.

Lemma X3_merge_info_unions_witness :
  (forall x, x ∈ elements (_merge_patent_info tagged_widget first_seen) "inventors"
             <-> x ∈ elements tagged_widget "inventors"
                 \/ x ∈ elements first_seen "inventors")
  /\ NoDup (elements (_merge_patent_info tagged_widget first_seen) "inventors")
  /\ well_typed (_merge_patent_info tagged_widget first_seen) = true.
Proof.
  exact (X3_merge_info_unions tagged_widget first_seen "inventors"
           eq_refl eq_refl (or_introl eq_refl)).
Defined.

Lemma X4_merge_info_settles_witness :
  same_record
    (_merge_patent_info (_merge_patent_info first_seen later_seen) later_seen)
    (_merge_patent_info first_seen later_seen).
Proof. exact (X4_merge_info_settles first_seen later_seen eq_refl eq_refl). Defined.

Lemma X14_parallel_map_ids_witness :
  exists m log',
    _search_parallel demo_bots demo_query ["a"; "c"] [] = (Ok m, log')
    /\ NoDup m.*1
    /\ forall db, is_Some (dict_get m db)
                  <-> db ∈ ["a"; "c"] /\ is_Some (demo_bots !! db).
Proof.
  apply (X14_parallel_map_ids demo_bots demo_query ["a"; "c"] []). discriminate.
Defined.

Lemma X15_strategies_agree_witness :
  exists mp lp ms ls,
    _search_parallel demo_bots demo_query ["a"; "b"] [] = (Ok mp, lp)
    /\ _search_sequential demo_bots demo_query ["a"; "b"] [] = (Ok ms, ls)
    /\ (forall db, dict_get mp db = dict_get ms db)
    /\ mp ≡ₚ ms.
Proof.
  apply (X15_strategies_agree demo_bots demo_query ["a"; "b"] []).
  - discriminate.
  - repeat constructor; eexists; reflexivity.
Defined.

Lemma X16_backend_value_recorded_witness :
  exists m log',
    _search_parallel demo_bots demo_query ["a"; "b"] [] = (Ok m, log')
    /\ dict_get m "a" = Some widget_result.
Proof.
  exact (X16_backend_value_recorded demo_bots demo_query ["a"; "b"] [] true "a"
           (fun _ => Ok widget_result) widget_result
           eq_refl eq_refl (list_elem_of_here "a" ["b"])).
Defined.

Lemma X10_merge_ignores_failed_witness :
  _merge_and_deduplicate_results
    (filter (fun kv => is_completed kv.2 = true) widget_map) []
  = _merge_and_deduplicate_results widget_map [].
Proof. apply (X10_merge_ignores_failed widget_map []). repeat constructor. Defined.

Lemma X11_merged_sources_exact_witness :
  PStr "a" ∈ elements (tagged "a" widget_record) "source_databases"
  <-> exists db d l p,
        (db, PDict d) ∈ widget_map
        /\ dict_get d "status" = Some (PStr "completed")
        /\ dict_get d "results" = Some (PList l)
        /\ p ∈ l
        /\ _calculate_patent_hash p = _calculate_patent_hash (tagged "a" widget_record)
        /\ PStr "a" = PStr db.
Proof.
  apply (X11_merged_sources_exact widget_map [] (tagged "a" widget_record) (PStr "a")).
  - repeat constructor.
  - apply list_elem_of_lookup. exists 0%nat. vm_compute. reflexivity.
Defined.

Lemma X12_merged_records_name_sources_witness :
  exists l, field (tagged "a" widget_record) "source_databases" = Some (PList l)
            /\ l <> []
            /\ Forall (fun y => exists db, y = PStr db /\ db ∈ widget_map.*1) l.
Proof.
  apply (X12_merged_records_name_sources widget_map []).
  apply list_elem_of_lookup. exists 0%nat. vm_compute. reflexivity.
Defined.

Lemma demo_run_completed :
  Summary.status (search_multiple_databases demo_self ["a"; "b"] demo_query true).1
  = "completed".
Proof. vm_compute. reflexivity. Defined.

Lemma X18_run_counts_witness :
  exists m by_db ratio,
    Summary.results_by_database
      (search_multiple_databases demo_self ["a"; "b"] demo_query true).1 = Some m
    /\ Summary.total_found_by_db
         (search_multiple_databases demo_self ["a"; "b"] demo_query true).1
       = Some by_db
    /\ Summary.deduplication_ratio
         (search_multiple_databases demo_self ["a"; "b"] demo_query true).1
       = Some ratio
    /\ by_db.*1 = m.*1
    /\ Summary.total_found
         (search_multiple_databases demo_self ["a"; "b"] demo_query true).1
       = sum_list by_db.*2
    /\ Summary.merged_count
         (search_multiple_databases demo_self ["a"; "b"] demo_query true).1
       = length (Summary.results
                   (search_multiple_databases demo_self ["a"; "b"] demo_query true).1)
    /\ (Summary.merged_count
          (search_multiple_databases demo_self ["a"; "b"] demo_query true).1
        <= Summary.total_found
             (search_multiple_databases demo_self ["a"; "b"] demo_query true).1)%nat
    /\ (0 <= ratio <= 1)%Q
    /\ ratio
       = (if Nat.eqb (sum_list by_db.*2) 0 then 0
          else float_of
                 ((Z.of_nat (sum_list by_db.*2)
                   - Z.of_nat (Summary.merged_count
                        (search_multiple_databases demo_self ["a"; "b"]
                           demo_query true).1))
                  # Pos.of_nat (sum_list by_db.*2)))%Q.
Proof.
  exact (X18_run_counts demo_self ["a"; "b"] demo_query true demo_run_completed).
Defined.

Lemma X19_run_completes_witness :
  Summary.status (search_multiple_databases demo_self ["a"; "c"] demo_query false).1
  = "completed"
  /\ Summary.error (search_multiple_databases demo_self ["a"; "c"] demo_query false).1
     = None.
Proof.
  exact (X19_run_completes demo_self ["a"; "c"] demo_query false demo_bots_wf
           (or_introl eq_refl)).
Defined.

Lemma X20_run_downloaded_files_witness :
  exists m parts,
    Summary.results_by_database
      (search_multiple_databases demo_self ["a"; "b"] demo_query true).1 = Some m
    /\ Forall2 (fun kv part =>
                  exists fs, py_get kv.2 "downloaded_files" (PList []) = Ok fs
                             /\ py_iter fs = Ok part) m parts
    /\ Summary.downloaded_files
         (search_multiple_databases demo_self ["a"; "b"] demo_query true).1
       = concat parts
    /\ downloaded_files
         (search_multiple_databases demo_self ["a"; "b"] demo_query true).2
       = concat parts.
Proof.
  exact (X20_run_downloaded_files demo_self ["a"; "b"] demo_query true demo_run_completed).
Defined.

Lemma X21_statistics_after_run_witness :
  exists m,
    Summary.results_by_database
      (search_multiple_databases demo_self ["a"; "b"] demo_query true).1 = Some m
    /\ get_statistics (search_multiple_databases demo_self ["a"; "b"] demo_query true).2
       = PDict
           [ ("total_databases_searched", PInt (Z.of_nat (size (bots demo_self))));
             ("total_results_found", PInt (Z.of_nat (length m)));
             ("merged_results_count",
              PInt (Z.of_nat (Summary.merged_count
                      (search_multiple_databases demo_self ["a"; "b"] demo_query true).1)));
             ("total_files_downloaded",
              PInt (Z.of_nat (length (Summary.downloaded_files
                      (search_multiple_databases demo_self ["a"; "b"] demo_query true).1))));
             ("deduplication_stats",
              PDict
                [ ("original_count",
                   PInt (Z.of_nat (Summary.total_found
                      (search_multiple_databases demo_self ["a"; "b"] demo_query true).1)));
                  ("deduplicated_count",
                   PInt (Z.of_nat (Summary.merged_count
                      (search_multiple_databases demo_self ["a"; "b"] demo_query true).1)));
                  ("duplicates_removed",
                   PInt (Z.of_nat (Summary.total_found
                      (search_multiple_databases demo_self ["a"; "b"] demo_query true).1)
                         - Z.of_nat (Summary.merged_count
                      (search_multiple_databases demo_self ["a"; "b"] demo_query true).1))) ]) ]
    /\ (0 <= Z.of_nat (Summary.total_found
                 (search_multiple_databases demo_self ["a"; "b"] demo_query true).1)
             - Z.of_nat (Summary.merged_count
                 (search_multiple_databases demo_self ["a"; "b"] demo_query true).1))%Z.
Proof.
  exact (X21_statistics_after_run demo_self ["a"; "b"] demo_query true demo_run_completed).
Defined.

Lemma X22_parse_api_truncates_witness :
  Forall2 (fun p r => api_record p = Ok r)
    [PDict [("patentNumber", PStr "US1234567"); ("title", PStr "Widget")]]
    (_parse_api_results (PDict api_response))
  /\ length (_parse_api_results (PDict api_response)) = 1%nat.
Proof.
  apply (X22_parse_api_truncates api_response
           [PDict [("patentNumber", PStr "US1234567"); ("title", PStr "Widget")]]
           [PDict [("patentNumber", PStr "US7654321"); ("title", PStr "Gadget")]]
           (PStr "truncated")).
  - reflexivity.
  - repeat constructor.
  - reflexivity.
Defined.


Lemma X1_fingerprint_ignores_case_and_padding_witness :
  _calculate_patent_hash
    (PDict [("title", PStr " WIDGET  "); ("abstract", PStr "x");
            ("patent_number", PStr "  us1234567 ")])
  = _calculate_patent_hash
      (PDict [("patent_number", PStr "US1234567"); ("title", PStr "Widget")]).
Proof.
  apply (X1_fingerprint_ignores_case_and_padding
           (PDict [("patent_number", PStr "US1234567"); ("title", PStr "Widget")])
           (PDict [("title", PStr " WIDGET  "); ("abstract", PStr "x");
                   ("patent_number", PStr "  us1234567 ")])
           "US1234567" "Widget" "  " " " " " "  " PyStr.lower PyStr.upper);
    first [ reflexivity
          | left; reflexivity
          | right; left; reflexivity ].
Defined.

(** ** Unsupported ids in the log *)

Section Unsupported.
Context `{Runtime}.

Lemma sequential_log_unsupported (bots : gmap string bot) (q : Query)
    (dbs : list string) (db : string) :
  forall acc : list (string * pyval) * list string,
  db ∈ dbs -> bots !! db = None ->
  ("不支援的資料庫: " +:+ db) ∈ (fold_left (sequential_step bots q) dbs acc).2.
Proof.
  induction dbs as [|d rest IH]; intros acc Hin Hnone;
    [by apply elem_of_nil in Hin|].
  cbn [fold_left]. apply elem_of_cons in Hin as [<- | Hin]; [|by apply IH].
  destruct (sequential_log bots q rest (sequential_step bots q acc db)) as [more ->].
  apply elem_of_app. left. destruct acc as [results log].
  unfold sequential_step, bot in *. rewrite Hnone. cbn [snd].
  apply elem_of_app. right. by left.
Qed.

Lemma strategy_log_unsupported (bots : gmap string bot) (q : Query)
    (dbs : list string) (log : list string) (parallel : bool) (db : string) :
  db ∈ dbs -> bots !! db = None ->
  ("不支援的資料庫: " +:+ db)
  ∈ (if parallel then _search_parallel bots q dbs log
     else _search_sequential bots q dbs log).2.
Proof.
  intros Hin Hnone. destruct parallel.
  - assert (dbs <> []) as Hne by (intros ->; by apply elem_of_nil in Hin).
    destruct (search_parallel_results bots q dbs log Hne) as (log' & -> & Hlog).
    by apply Hlog.
  - unfold _search_sequential.
    pose proof (sequential_log_unsupported bots q dbs db
                  ([], (log ++ ["使用順序模式檢索"])%list) Hin Hnone) as Hl.
    by destruct (fold_left _ dbs _) as [results l1].
Qed.

Lemma run_log_after_strategy (self : coordinator) (dbs : list string) (q : Query)
    (parallel : bool) :
  exists more,
    execution_log (search_multiple_databases self dbs q parallel).2
    = ((if parallel
        then _search_parallel (bots self) q dbs
               (execution_log self ++ ["開始多資料庫檢索: " +:+ PyStr.join ", " dbs])%list
        else _search_sequential (bots self) q dbs
               (execution_log self ++ ["開始多資料庫檢索: " +:+ PyStr.join ", " dbs])%list).2
       ++ more)%list.
Proof.
  unfold search_multiple_databases.
  destruct (if parallel then _ else _) as [[results|e] log1]; cbn [snd];
    [|by eexists].
  destruct (merge_log results log1) as [m2 H2].
  destruct (_merge_and_deduplicate_results results log1) as [merged log2].
  cbn [snd] in H2. subst log2.
  destruct (gather_downloaded_files results) as [files|e].
  2:{ cbn. eexists. by rewrite <- app_assoc. }
  destruct (count_by_db results) as [by_db|e]; cbn [mbind result_bind].
  2:{ cbn. eexists. by rewrite <- app_assoc. }
  destruct (total_original results) as [total|e]; cbn [mbind result_bind].
  2:{ cbn. eexists. by rewrite <- app_assoc. }
  cbn. eexists. by rewrite <- app_assoc.
Qed.

(** X24.  In a run of either mode, every requested id that has no backend
    is reported in the log, of the coordinator and of the summary, by a line
    that names it. *)
Theorem X24_run_reports_unsupported (self : coordinator) (dbs : list string)
    (q : Query) (parallel : bool) (db : string) :
  db ∈ dbs -> bots self !! db = None ->
  ("不支援的資料庫: " +:+ db)
  ∈ execution_log (search_multiple_databases self dbs q parallel).2
  /\ ("不支援的資料庫: " +:+ db)
     ∈ Summary.execution_log (search_multiple_databases self dbs q parallel).1.
Proof.
  intros Hin Hnone.
  assert (("不支援的資料庫: " +:+ db)
          ∈ execution_log (search_multiple_databases self dbs q parallel).2) as Hlog.
  { destruct (run_log_after_strategy self dbs q parallel) as [more ->].
    apply elem_of_app. left. by apply strategy_log_unsupported. }
  split; [done|].
  assert (Summary.execution_log (search_multiple_databases self dbs q parallel).1
          = execution_log (search_multiple_databases self dbs q parallel).2) as ->;
    [|done].
  clear. unfold search_multiple_databases.
  destruct (if parallel then _ else _) as [[results|e] log1]; [|done].
  destruct (_merge_and_deduplicate_results results log1) as [merged log2].
  destruct (gather_downloaded_files results) as [files|e]; [|done].
  destruct (count_by_db results) as [by_db|e]; cbn [mbind result_bind]; [|done].
  by destruct (total_original results) as [total|e].
Qed.

End Unsupported.

Lemma X24_run_reports_unsupported_witness :
  "不支援的資料庫: c"
  ∈ execution_log (search_multiple_databases demo_self ["a"; "c"] demo_query true).2
  /\ "不支援的資料庫: c"
     ∈ Summary.execution_log
         (search_multiple_databases demo_self ["a"; "c"] demo_query true).1.
Proof.
  apply (X24_run_reports_unsupported demo_self ["a"; "c"] demo_query true "c").
  - apply list_elem_of_further, list_elem_of_here.
  - reflexivity.
Defined.
